(** * node-amqp, lib/connection.js

    A shallow embedding of the AMQP 0-9-1 client connection: handshake
    methods on channel 0, content framing, channel id allocation, the two
    heartbeat timers and the reconnection supervisor.

    Conventions of the embedding
    - JavaScript numbers that the code uses as counters, sizes and
      milliseconds are integers of [Z].
    - A [Buffer] is a list of octets, each an integer in 0..255.
    - The two module variables [maxFrameBuffer] and [channelMax] live in
      the record [Globals], threaded through every function that reads or
      writes them; all connections of a process see the same record.
    - A [Connection] value is a connection on which [connect()] has run at
      least once, so the listeners of [addAllListeners] are installed and
      [this.socket] exists.
    - Events are functions named after the listener they run; [emit]
      appends to the [emitted] log and runs the listeners this file
      installs.  Listeners of the application are outside the model.
    - What serializer.js, definitions.js and the runtime (JSON, Buffer
      encodings) provide is a field of the class [Platform].  Of parser.js
      the model has the callbacks a chunk of data leads to, which are the
      input of the 'data' listener; of exchange.js and queue.js it has the
      handlers stored in [channels], with their [state]. *)

From Stdlib Require Import ZArith List String Ascii Lia Bool.
From stdpp Require Import base option list gmap strings pretty.

Set Warnings "-register-all".
Local Open Scope Z_scope.

(** ** JavaScript values *)

Inductive JsValue :=
  | JUndefined
  | JNull
  | JBool (b : bool)
  | JNum (n : Z)
  | JStr (s : string)
  | JBuffer (bytes : list Z)
  | JObject (fields : list (string * JsValue)).

(** ToBoolean of ECMAScript, on the values above. *)
Definition ToBoolean (v : JsValue) : bool :=
  match v with
  | JUndefined | JNull => false
  | JBool b => b
  | JNum n => negb (n =? 0)
  | JStr s => negb (String.eqb s "")
  | JBuffer _ | JObject _ => true
  end.

(** [a || b] *)
Definition js_or (a b : JsValue) : JsValue :=
  if ToBoolean a then a else b.

Definition Buffer := list Z.

Record JsError := mkError {
  err_name : string;
  err_message : string;
  err_code : option Z
}.

(** [new Error(message)] *)
Definition Error (message : string) : JsError := mkError "Error" message None.

(** The error a property read on [undefined] raises; the text is the
    engine's. *)
Definition TypeError_undefined : JsError :=
  mkError "TypeError" "Cannot read properties of undefined" None.

(** A plain object used as a bag of properties is a [gmap string JsValue]. *)

(** [Object.assign(target, source)]: the source's own properties win. *)
Definition Object_assign (target source : gmap string JsValue) : gmap string JsValue :=
  source ∪ target.

(** [obj[name]] used as a condition. *)
Definition truthy_prop (obj : gmap string JsValue) (name : string) : bool :=
  match obj !! name with
  | Some v => ToBoolean v
  | None => false
  end.

(** ** Methods *)

(** Methods the connection sends ([definitions.methods]). *)
Inductive Method :=
  | connectionStartOk
  | connectionTuneOk
  | connectionOpen
  | connectionClose.

Record StartArgs := mkStartArgs {
  versionMajor : Z;
  versionMinor : Z;
  serverProperties_arg : JsValue;
  mechanisms : string;
  locales : string
}.

Record TuneArgs := mkTuneArgs {
  frameMax : Z;
  channelMax_arg : Z;
  heartbeat_arg : Z
}.

Record CloseArgs := mkCloseArgs {
  replyText : string;
  replyCode : Z;
  classId : Z;
  methodId : Z
}.

(** A decoded inbound method together with its arguments, as the parser
    hands them to [onMethod]. *)
Inductive InboundMethod :=
  | ConnectionStart (args : StartArgs)
  | ConnectionTune (args : TuneArgs)
  | ConnectionOpenOk
  | ConnectionClose (args : CloseArgs)
  | ConnectionCloseOk
  | ConnectionBlocked (reason : string)
  | ConnectionUnblocked
  | OtherMethod (name : string) (args : JsValue).

(** ** Collaborators outside lib/connection.js *)

Class Platform := {
  (** definitions.js: wire ids of a method *)
  classIndex : Method -> Z;
  methodIndex : Method -> Z;
  (** serializer.js: [serializeFields(b, method.fields, args, true)] *)
  serializeFields : Method -> list (string * JsValue) -> Buffer;
  (** definitions.js: [classes[60].index] and the names of
      [classes[60].fields], in order *)
  basicClassIndex : Z;
  basicFields : list string;
  (** serializer.js: [serializeFields(b, classInfo.fields, properties, false)] *)
  serializeProperties : gmap string JsValue -> Buffer;
  (** [new Buffer(s, 'utf8')] *)
  utf8 : string -> Buffer;
  (** [JSON.stringify(v)]; [None] when the result is [undefined] *)
  JSON_stringify : JsValue -> option string
}.

(** Modelled from the spec: [serializer.serializeInt(b, size, int)] is
    defined in serializer.js, not in connection.js; the spec says that all
    multi-byte integers are big-endian.  The octets are returned instead of
    being stored at [b.used]. *)
Fixpoint serializeInt (size : nat) (int : Z) : Buffer :=
  match size with
  | O => []
  | S k => Z.land (Z.shiftr int (8 * Z.of_nat k)) 255 :: serializeInt k int
  end.

(** Reading a big-endian integer back, for statements about frames. *)
Definition parseInt (b : Buffer) : Z :=
  fold_left (fun acc o => acc * 256 + o) b 0.

(** ** Module variables *)

Record Globals := mkGlobals {
  maxFrameBuffer : Z;
  channelMax : Z
}.

(** The values the module is loaded with. *)
Definition initialGlobals : Globals := mkGlobals 131072 65535.

(** ** Options *)

Record Options := mkOptions {
  login : string;
  password : string;
  authMechanism : string;
  response : JsValue;
  vhost : string;
  clientProperties : JsValue;
  (** seconds; 0 stands for every falsy setting *)
  heartbeat : Z;
  (** truthiness of the option *)
  heartbeatForceReconnect : bool;
  noDelay : JsValue;
  ssl_enabled : bool;
  connectionTimeout : Z
}.

Record ImplOptions := mkImplOptions {
  defaultExchangeName : string;
  reconnect_opt : bool;
  reconnectBackoffStrategy : string;
  reconnectExponentialLimit : Z;
  reconnectBackoffTime : Z
}.

Definition defaultOptions : Options :=
  mkOptions "guest" "guest" "AMQPLAIN" JUndefined "/" (JObject []) 0 false
            JUndefined false 10000.

Definition defaultImplOptions : ImplOptions :=
  mkImplOptions "" true "linear" 120000 1000.

(** ** Transport *)

Record Socket := mkSocket {
  sock_tls : bool;
  readable : bool;
  writable : bool;
  (** [end()] was called *)
  ended : bool;
  (** [destroy(e)] was called, with its argument *)
  destroyed : option (option JsError);
  (** the flag [setNoDelay] leaves on the socket *)
  sock_noDelay : bool;
  (** [setTimeout(ms, ...)]; 0 when none is armed *)
  sock_timeout : Z;
  (** buffers handed to [write], oldest first *)
  written : list Buffer
}.

(** [socket.end()]: the writing side is closed. *)
Definition socket_end (s : Socket) : Socket :=
  mkSocket (sock_tls s) (readable s) false true (destroyed s) (sock_noDelay s)
           (sock_timeout s) (written s).

(** [socket.destroy(e)] *)
Definition socket_destroy (e : option JsError) (s : Socket) : Socket :=
  mkSocket (sock_tls s) false false (ended s) (Some e) (sock_noDelay s)
           (sock_timeout s) (written s).

(** [socket.write(b)] *)
Definition socket_write (b : Buffer) (s : Socket) : Socket :=
  mkSocket (sock_tls s) (readable s) (writable s) (ended s) (destroyed s)
           (sock_noDelay s) (sock_timeout s) (written s ++ [b]).

(** ** Timers *)

Inductive Callback :=
  | InboundHeartbeatCheck (gracePeriod : Z)
  | OutboundHeartbeat.

Record TimerHandle := mkTimer {
  timeout_callback : Callback;
  timeout_ms : Z
}.

(** ** Channels *)

Inductive HandlerKind := ExchangeHandler | QueueHandler.

(** An entry of [this.channels]: the connection itself under key 0, an
    exchange or a queue elsewhere.  Of a handler object the connection only
    reads and writes [state]. *)
Inductive Channel :=
  | Self
  | Handler (kind : HandlerKind) (name : string) (state : string).

Definition channel_set_state (st : string) (ch : Channel) : Channel :=
  match ch with
  | Self => Self
  | Handler k n _ => Handler k n st
  end.

(** ** Events *)

Inductive Event :=
  | EvError (e : JsError)
  | EvClose
  | EvReady
  | EvHeartbeat
  | EvBlocked
  | EvUnblocked.

(** ** The connection object *)

Record Connection := mkConnection {
  options : Options;
  implOptions : ImplOptions;
  (** a ready callback is waiting to be called *)
  _readyCallback : bool;
  connectionAttemptScheduled : bool;
  channelCounter : Z;
  (** length of the pre-allocated [_sendBuffer] *)
  _sendBuffer : Z;
  _blocked : bool;
  _blockedReason : option string;
  (** [undefined] until the first connect event *)
  channels : option (gmap Z Channel);
  (** per queue name, the [state] of each entry of [consumerTagOptions] *)
  queues : gmap string (gmap string string);
  (** [None] is [null]; the parser's frame limit when it was set *)
  parser : option (option Z);
  readyEmitted : bool;
  _inboundHeartbeatTimer : option TimerHandle;
  _outboundHeartbeatTimer : option TimerHandle;
  socket : Socket;
  serverProperties : JsValue;
  (** the variable [backoffTime] of [addAllListeners] *)
  backoffTime : option Z;
  (** the listener [backoff] is still attached to 'error' *)
  backoffListener : bool;
  (** delays of the reconnection timers armed so far, oldest first *)
  reconnectTimeouts : list Z;
  (** events emitted so far, oldest first *)
  emitted : list Event
}.

(** Field updates: [set_f v c] is [c] after the assignment [this.f = v]. *)

Definition set_readyCallback (v : bool) (c : Connection) : Connection :=
  mkConnection (options c) (implOptions c) v (connectionAttemptScheduled c)
    (channelCounter c) (_sendBuffer c) (_blocked c) (_blockedReason c)
    (channels c) (queues c) (parser c) (readyEmitted c)
    (_inboundHeartbeatTimer c) (_outboundHeartbeatTimer c) (socket c)
    (serverProperties c) (backoffTime c) (backoffListener c)
    (reconnectTimeouts c) (emitted c).

Definition set_connectionAttemptScheduled (v : bool) (c : Connection) : Connection :=
  mkConnection (options c) (implOptions c) (_readyCallback c) v
    (channelCounter c) (_sendBuffer c) (_blocked c) (_blockedReason c)
    (channels c) (queues c) (parser c) (readyEmitted c)
    (_inboundHeartbeatTimer c) (_outboundHeartbeatTimer c) (socket c)
    (serverProperties c) (backoffTime c) (backoffListener c)
    (reconnectTimeouts c) (emitted c).

Definition set_channelCounter (v : Z) (c : Connection) : Connection :=
  mkConnection (options c) (implOptions c) (_readyCallback c)
    (connectionAttemptScheduled c) v (_sendBuffer c) (_blocked c)
    (_blockedReason c) (channels c) (queues c) (parser c) (readyEmitted c)
    (_inboundHeartbeatTimer c) (_outboundHeartbeatTimer c) (socket c)
    (serverProperties c) (backoffTime c) (backoffListener c)
    (reconnectTimeouts c) (emitted c).

Definition set_sendBuffer (v : Z) (c : Connection) : Connection :=
  mkConnection (options c) (implOptions c) (_readyCallback c)
    (connectionAttemptScheduled c) (channelCounter c) v (_blocked c)
    (_blockedReason c) (channels c) (queues c) (parser c) (readyEmitted c)
    (_inboundHeartbeatTimer c) (_outboundHeartbeatTimer c) (socket c)
    (serverProperties c) (backoffTime c) (backoffListener c)
    (reconnectTimeouts c) (emitted c).

Definition set_blocked (v : bool) (c : Connection) : Connection :=
  mkConnection (options c) (implOptions c) (_readyCallback c)
    (connectionAttemptScheduled c) (channelCounter c) (_sendBuffer c) v
    (_blockedReason c) (channels c) (queues c) (parser c) (readyEmitted c)
    (_inboundHeartbeatTimer c) (_outboundHeartbeatTimer c) (socket c)
    (serverProperties c) (backoffTime c) (backoffListener c)
    (reconnectTimeouts c) (emitted c).

Definition set_blockedReason (v : option string) (c : Connection) : Connection :=
  mkConnection (options c) (implOptions c) (_readyCallback c)
    (connectionAttemptScheduled c) (channelCounter c) (_sendBuffer c)
    (_blocked c) v (channels c) (queues c) (parser c) (readyEmitted c)
    (_inboundHeartbeatTimer c) (_outboundHeartbeatTimer c) (socket c)
    (serverProperties c) (backoffTime c) (backoffListener c)
    (reconnectTimeouts c) (emitted c).

Definition set_channels (v : option (gmap Z Channel)) (c : Connection) : Connection :=
  mkConnection (options c) (implOptions c) (_readyCallback c)
    (connectionAttemptScheduled c) (channelCounter c) (_sendBuffer c)
    (_blocked c) (_blockedReason c) v (queues c) (parser c) (readyEmitted c)
    (_inboundHeartbeatTimer c) (_outboundHeartbeatTimer c) (socket c)
    (serverProperties c) (backoffTime c) (backoffListener c)
    (reconnectTimeouts c) (emitted c).

Definition set_queues (v : gmap string (gmap string string)) (c : Connection) : Connection :=
  mkConnection (options c) (implOptions c) (_readyCallback c)
    (connectionAttemptScheduled c) (channelCounter c) (_sendBuffer c)
    (_blocked c) (_blockedReason c) (channels c) v (parser c) (readyEmitted c)
    (_inboundHeartbeatTimer c) (_outboundHeartbeatTimer c) (socket c)
    (serverProperties c) (backoffTime c) (backoffListener c)
    (reconnectTimeouts c) (emitted c).

Definition set_parser (v : option (option Z)) (c : Connection) : Connection :=
  mkConnection (options c) (implOptions c) (_readyCallback c)
    (connectionAttemptScheduled c) (channelCounter c) (_sendBuffer c)
    (_blocked c) (_blockedReason c) (channels c) (queues c) v (readyEmitted c)
    (_inboundHeartbeatTimer c) (_outboundHeartbeatTimer c) (socket c)
    (serverProperties c) (backoffTime c) (backoffListener c)
    (reconnectTimeouts c) (emitted c).

Definition set_readyEmitted (v : bool) (c : Connection) : Connection :=
  mkConnection (options c) (implOptions c) (_readyCallback c)
    (connectionAttemptScheduled c) (channelCounter c) (_sendBuffer c)
    (_blocked c) (_blockedReason c) (channels c) (queues c) (parser c) v
    (_inboundHeartbeatTimer c) (_outboundHeartbeatTimer c) (socket c)
    (serverProperties c) (backoffTime c) (backoffListener c)
    (reconnectTimeouts c) (emitted c).

Definition set_inboundHeartbeatTimer (v : option TimerHandle) (c : Connection) : Connection :=
  mkConnection (options c) (implOptions c) (_readyCallback c)
    (connectionAttemptScheduled c) (channelCounter c) (_sendBuffer c)
    (_blocked c) (_blockedReason c) (channels c) (queues c) (parser c)
    (readyEmitted c) v (_outboundHeartbeatTimer c) (socket c)
    (serverProperties c) (backoffTime c) (backoffListener c)
    (reconnectTimeouts c) (emitted c).

Definition set_outboundHeartbeatTimer (v : option TimerHandle) (c : Connection) : Connection :=
  mkConnection (options c) (implOptions c) (_readyCallback c)
    (connectionAttemptScheduled c) (channelCounter c) (_sendBuffer c)
    (_blocked c) (_blockedReason c) (channels c) (queues c) (parser c)
    (readyEmitted c) (_inboundHeartbeatTimer c) v (socket c)
    (serverProperties c) (backoffTime c) (backoffListener c)
    (reconnectTimeouts c) (emitted c).

Definition set_socket (v : Socket) (c : Connection) : Connection :=
  mkConnection (options c) (implOptions c) (_readyCallback c)
    (connectionAttemptScheduled c) (channelCounter c) (_sendBuffer c)
    (_blocked c) (_blockedReason c) (channels c) (queues c) (parser c)
    (readyEmitted c) (_inboundHeartbeatTimer c) (_outboundHeartbeatTimer c) v
    (serverProperties c) (backoffTime c) (backoffListener c)
    (reconnectTimeouts c) (emitted c).

Definition set_serverProperties (v : JsValue) (c : Connection) : Connection :=
  mkConnection (options c) (implOptions c) (_readyCallback c)
    (connectionAttemptScheduled c) (channelCounter c) (_sendBuffer c)
    (_blocked c) (_blockedReason c) (channels c) (queues c) (parser c)
    (readyEmitted c) (_inboundHeartbeatTimer c) (_outboundHeartbeatTimer c)
    (socket c) v (backoffTime c) (backoffListener c) (reconnectTimeouts c)
    (emitted c).

Definition set_backoffTime (v : option Z) (c : Connection) : Connection :=
  mkConnection (options c) (implOptions c) (_readyCallback c)
    (connectionAttemptScheduled c) (channelCounter c) (_sendBuffer c)
    (_blocked c) (_blockedReason c) (channels c) (queues c) (parser c)
    (readyEmitted c) (_inboundHeartbeatTimer c) (_outboundHeartbeatTimer c)
    (socket c) (serverProperties c) v (backoffListener c)
    (reconnectTimeouts c) (emitted c).

Definition set_backoffListener (v : bool) (c : Connection) : Connection :=
  mkConnection (options c) (implOptions c) (_readyCallback c)
    (connectionAttemptScheduled c) (channelCounter c) (_sendBuffer c)
    (_blocked c) (_blockedReason c) (channels c) (queues c) (parser c)
    (readyEmitted c) (_inboundHeartbeatTimer c) (_outboundHeartbeatTimer c)
    (socket c) (serverProperties c) (backoffTime c) v (reconnectTimeouts c)
    (emitted c).

Definition set_reconnectTimeouts (v : list Z) (c : Connection) : Connection :=
  mkConnection (options c) (implOptions c) (_readyCallback c)
    (connectionAttemptScheduled c) (channelCounter c) (_sendBuffer c)
    (_blocked c) (_blockedReason c) (channels c) (queues c) (parser c)
    (readyEmitted c) (_inboundHeartbeatTimer c) (_outboundHeartbeatTimer c)
    (socket c) (serverProperties c) (backoffTime c) (backoffListener c) v
    (emitted c).

Definition set_emitted (v : list Event) (c : Connection) : Connection :=
  mkConnection (options c) (implOptions c) (_readyCallback c)
    (connectionAttemptScheduled c) (channelCounter c) (_sendBuffer c)
    (_blocked c) (_blockedReason c) (channels c) (queues c) (parser c)
    (readyEmitted c) (_inboundHeartbeatTimer c) (_outboundHeartbeatTimer c)
    (socket c) (serverProperties c) (backoffTime c) (backoffListener c)
    (reconnectTimeouts c) v.

(** ** Results of calls that may throw or loop *)

Inductive Completion (A : Type) :=
  | Return (a : A)
  | Throw (e : JsError)
  | OutOfFuel.

Arguments Return {A} a.
Arguments Throw {A} e.
Arguments OutOfFuel {A}.

(** What the parser calls back while it consumes one chunk of data. *)
Inductive ParserCallback :=
  | OnMethod (channel : Z) (method : InboundMethod)
  | OnContent (channel : Z) (data : Buffer)
  | OnContentHeader (channel : Z) (size : Z)
  | OnHeartBeat
  | OnError (e : JsError).

(** [parser.execute(data)], seen from the connection: the callbacks it
    makes, in order, and the exception it ends with, if any. *)
Record Parsed := mkParsed {
  callbacks : list ParserCallback;
  parse_exception : option JsError
}.

Definition NUL : string := String "000"%char EmptyString.

Section Connection.

Context `{P : Platform}.

(** ** Writing *)

(** [this.write(b)], the proxy of [socket.write]. *)
Definition write (b : Buffer) (c : Connection) : Connection :=
  set_socket (socket_write b (socket c)) c.

(** [Connection.prototype.heartbeat] *)
Definition Connection_heartbeat (c : Connection) : Connection :=
  if writable (socket c) then write [8; 0; 0; 0; 0; 0; 0; 206] c else c.

(** ** Heartbeat timers *)

Definition _outboundHeartbeatTimerReset (c : Connection) : Connection :=
  let c := set_outboundHeartbeatTimer None c in
  if writable (socket c) && negb (heartbeat (options c) =? 0)
  then set_outboundHeartbeatTimer
         (Some (mkTimer OutboundHeartbeat (1000 * heartbeat (options c)))) c
  else c.

(** The callback of the outbound timer. *)
Definition outboundHeartbeatTimer_fire (c : Connection) : Connection :=
  _outboundHeartbeatTimerReset (Connection_heartbeat c).

Definition _inboundHeartbeatTimerReset (c : Connection) : Connection :=
  let c := set_inboundHeartbeatTimer None c in
  if negb (heartbeat (options c) =? 0)
  then
    let gracePeriod := 2 * heartbeat (options c) in
    set_inboundHeartbeatTimer
      (Some (mkTimer (InboundHeartbeatCheck gracePeriod) (gracePeriod * 1000))) c
  else c.

(** ** The 'error' listener [backoff] *)

Definition close_channels_but_0 (chs : gmap Z Channel) : gmap Z Channel :=
  map_imap (fun channel ch =>
              Some (if channel =? 0 then ch else channel_set_state "closed" ch)) chs.

Definition close_consumers (q : gmap string string) : gmap string string :=
  (fun _ : string => "closed"%string) <$> q.

Definition backoff (c : Connection) : Connection :=
  let c := set_inboundHeartbeatTimer None c in
  let c := set_outboundHeartbeatTimer None c in
  if negb (connectionAttemptScheduled c) then
    let c := set_connectionAttemptScheduled true c in
    let c := set_socket (socket_end (socket c)) c in
    let c := set_parser None c in
    let c := set_channels (close_channels_but_0 <$> channels c) c in
    let c := set_queues (close_consumers <$> queues c) c in
    if reconnect_opt (implOptions c) then
      let backoffTime' :=
        match backoffTime c with
        | None => reconnectBackoffTime (implOptions c)
        | Some t =>
            if String.eqb (reconnectBackoffStrategy (implOptions c)) "exponential"
            then
              let t := t * 2 in
              if t >? reconnectExponentialLimit (implOptions c)
              then reconnectExponentialLimit (implOptions c)
              else t
            else if String.eqb (reconnectBackoffStrategy (implOptions c)) "linear"
            then t
            else t
        end in
      let c := set_backoffTime (Some backoffTime') c in
      set_reconnectTimeouts (reconnectTimeouts c ++ [backoffTime']) c
    else set_backoffListener false c
  else c.

(** [this.emit(ev)] for the events without a listener of this file. *)
Definition emit (ev : Event) (c : Connection) : Connection :=
  set_emitted (emitted c ++ [ev]) c.

(** [this.emit('error', e)] *)
Definition emit_error (e : JsError) (c : Connection) : Connection :=
  let c := emit (EvError e) c in
  if backoffListener c then backoff c else c.

(** The callback of the inbound timer, when the timer that is set fires. *)
Definition inboundHeartbeatTimer_fire (c : Connection) : Connection :=
  match _inboundHeartbeatTimer c with
  | Some (mkTimer (InboundHeartbeatCheck gracePeriod) _) =>
      if readable (socket c) || heartbeatForceReconnect (options c)
      then emit_error
             (Error ("no heartbeat or data in last " +:+ pretty gracePeriod
                     +:+ " seconds")) c
      else c
  | _ => c
  end.

(** ** Connecting *)

(** [_createSocket], without the choice of host and port and without the
    TLS options: a fresh socket, readable and writable until it is ended or
    destroyed, with its timeout and the no-delay flag that
    [setNoDelay(noDelay)] leaves, the truthiness of its argument. *)
Definition _createSocket (c : Connection) : Connection :=
  let noDelay := js_or (noDelay (options c)) (JBool true) in
  let connTimeout := connectionTimeout (options c) in
  set_socket
    (mkSocket (ssl_enabled (options c)) true true false None
              (ToBoolean noDelay)
              (if negb (connTimeout =? 0) then connTimeout else 0)
              []) c.

Definition _startHandshake (c : Connection) : Connection :=
  write [65; 77; 81; 80; 0; 0; 9; 1] c.

Definition connect (c : Connection) : Connection :=
  _startHandshake (_createSocket c).

Definition reconnect (c : Connection) : Connection :=
  let c := set_channels (fmap (M := gmap Z) (channel_set_state "closed") <$> channels c) c in
  let c := set_socket (socket_end (socket c)) c in
  connect c.

(** The callback of a reconnection timer. *)
Definition reconnectTimeout_fire (c : Connection) : Connection :=
  reconnect (set_connectionAttemptScheduled false c).

(** ** Frames *)

(** [_sendMethod]; the frame is assumed to fit the pre-allocated
    [_sendBuffer]. *)
Definition methodFrame (channel : Z) (method : Method)
    (args : list (string * JsValue)) : Buffer :=
  let payload :=
    serializeInt 2 (classIndex method) ++ serializeInt 2 (methodIndex method)
    ++ serializeFields method args in
  [1] ++ serializeInt 2 channel ++ serializeInt 4 (Z.of_nat (length payload))
  ++ payload ++ [206].

Definition _sendMethod (channel : Z) (method : Method)
    (args : list (string * JsValue)) (c : Connection) : Connection :=
  _outboundHeartbeatTimerReset (write (methodFrame channel method args) c).

Definition disconnect (c : Connection) : Connection :=
  _sendMethod 0 connectionClose
    [("replyText", JStr "client disconnect"); ("replyCode", JNum 200);
     ("classId", JNum 0); ("methodId", JNum 0)]%string c.

(** [propertyFlags]: bit [15 - i] for every field [i] of the basic class
    whose property is truthy. *)
Fixpoint propertyFlags_from (i : Z) (fields : list string)
    (properties : gmap string JsValue) (flags : Z) : Z :=
  match fields with
  | [] => flags
  | name :: rest =>
      propertyFlags_from (i + 1) rest properties
        (if truthy_prop properties name
         then Z.lor flags (Z.shiftl 1 ((15 - i) mod 32))
         else flags)
  end.

(** The frame [_sendHeader] builds; it is assumed to fit the buffer of
    [maxFrameBuffer] octets it is built in. *)
Definition headerFrame (channel size : Z) (properties : gmap string JsValue) : Buffer :=
  let properties :=
    Object_assign {[ "contentType"%string := JStr "application/octet-stream" ]}
                  properties in
  let propertyFlags := propertyFlags_from 0 basicFields properties 0 in
  let body :=
    serializeInt 2 basicClassIndex ++ serializeInt 2 0 ++ serializeInt 8 size
    ++ serializeInt 2 propertyFlags ++ serializeProperties properties in
  [2] ++ serializeInt 2 channel ++ serializeInt 4 (Z.of_nat (length body))
  ++ body ++ [206].

Definition _sendHeader (channel size : Z) (properties : gmap string JsValue)
    (c : Connection) : Connection :=
  write (headerFrame channel size properties) c.

(** The error [new Buffer(undefined, 'utf8')] raises; the text is the
    engine's. *)
Definition TypeError_buffer : JsError :=
  mkError "TypeError" "First argument must be a string, Buffer, or Array" None.

Definition _bodyToBuffer (body : JsValue)
    : Completion (option (gmap string JsValue) * Buffer) :=
  match body with
  | JStr s => Return (None, utf8 s)
  | JBuffer b => Return (None, b)
  | _ =>
      match JSON_stringify body with
      | Some jsonBody =>
          Return (Some {[ "contentType"%string := JStr "application/json" ]},
                  utf8 jsonBody)
      | None => Throw TypeError_buffer
      end
  end.

(** [buffer.copy(b, b.used, pos, pos + bodySize)]: the octets copied. *)
Definition Buffer_slice (buffer : Buffer) (pos bodySize : Z) : Buffer :=
  take (Z.to_nat bodySize) (drop (Z.to_nat pos) buffer).

Definition bodyFrame (channel bodySize : Z) (payload : Buffer) : Buffer :=
  [3] ++ serializeInt 2 channel ++ serializeInt 4 bodySize ++ payload ++ [206].

(** The [while (len > 0)] loop of [_sendBody]; one unit of fuel per
    iteration. *)
Fixpoint _sendBody_loop (fuel : nat) (maxBodySize channel : Z) (buffer : Buffer)
    (pos len : Z) (c : Connection) : Completion Connection :=
  if len >? 0 then
    match fuel with
    | O => OutOfFuel
    | S fuel =>
        let bodySize := if len <? maxBodySize then len else maxBodySize in
        let b := bodyFrame channel bodySize (Buffer_slice buffer pos bodySize) in
        _sendBody_loop fuel maxBodySize channel buffer
                       (pos + bodySize) (len - bodySize) (write b c)
    end
  else Return c.

Definition _sendBody (fuel : nat) (g : Globals) (channel : Z) (body : JsValue)
    (properties : gmap string JsValue) (c : Connection) : Completion Connection :=
  match _bodyToBuffer body with
  | Return (props, buffer) =>
      let properties := Object_assign (default ∅ props) properties in
      let c := _sendHeader channel (Z.of_nat (length buffer)) properties c in
      let metaSize := 8 in
      let maxBodySize := maxFrameBuffer g - metaSize in
      _sendBody_loop fuel maxBodySize channel buffer 0 (Z.of_nat (length buffer)) c
  | Throw e => Throw e
  | OutOfFuel => OutOfFuel
  end.

(** ** Channel ids *)

Definition NoChannelIds : JsError := Error "No valid Channel Id values available".

(** The [while (true)] loop of [generateChannelId]; one unit of fuel per
    iteration. *)
Fixpoint generateChannelId_loop (fuel : nat) (channelMax : Z)
    (chs : gmap Z Channel) (channelCounter channelId : Z) : Completion Z :=
  match fuel with
  | O => OutOfFuel
  | S fuel =>
      let channelId := Z.rem channelId channelMax + 1 in
      match chs !! channelId with
      | None => Return channelId
      | Some _ =>
          if channelId =? channelCounter then Throw NoChannelIds
          else generateChannelId_loop fuel channelMax chs channelCounter channelId
      end
  end.

Definition generateChannelId (fuel : nat) (g : Globals) (c : Connection)
    : Completion (Z * Connection) :=
  match channels c with
  | None => Throw TypeError_undefined
  | Some chs =>
      match generateChannelId_loop fuel (channelMax g) chs (channelCounter c)
                                   (channelCounter c) with
      | Return channelId => Return (channelId, set_channelCounter channelId c)
      | Throw e => Throw e
      | OutOfFuel => OutOfFuel
      end
  end.

(** What [exchange(name, ...)] and [queue(name, ...)] share: a fresh id, and
    the new handler stored under it; an exception of the allocation goes to
    the error channel.  The constructors of the handlers are in exchange.js
    and queue.js; the new handler is recorded in state "opening". *)
Definition open_channel (kind : HandlerKind) (fuel : nat) (g : Globals)
    (name : string) (c : Connection) : Completion (option Z * Connection) :=
  match generateChannelId fuel g c with
  | Return (channel, c) =>
      Return (Some channel,
              set_channels (<[channel := Handler kind name "opening"]> <$> channels c) c)
  | Throw exception => Return (None, emit_error exception c)
  | OutOfFuel => OutOfFuel
  end.

Definition exchange := open_channel ExchangeHandler.
Definition queue := open_channel QueueHandler.

(** Modelled from the spec: a handler gives its slot back when it is
    closed; the code that does so is in exchange.js and queue.js. *)
Definition release_channel (channel : Z) (c : Connection) : Connection :=
  set_channels (delete channel <$> channels c) c.

(** ** Handshake *)

Definition _saslResponse (c : Connection) : JsValue :=
  let o := options c in
  if String.eqb (authMechanism o) "AMQPLAIN" then
    JObject [("LOGIN", JStr (login o)); ("PASSWORD", JStr (password o))]%string
  else if String.eqb (authMechanism o) "PLAIN" then
    JStr (NUL +:+ login o +:+ NUL +:+ password o)
  else if String.eqb (authMechanism o) "EXTERNAL" then
    JStr NUL
  else if String.eqb (authMechanism o) "ANONYMOUS" then
    JStr NUL
  else
    response o.

(** Modelled from the spec: [reconnect()] of a channel handler is in
    exchange.js and queue.js; the spec says that it re-opens the channel. *)
Definition channel_reconnect (ch : Channel) : Channel :=
  channel_set_state "opening" ch.

Definition reconnect_channels_but_0 (chs : gmap Z Channel) : gmap Z Channel :=
  map_imap (fun index ch =>
              Some (if index =? 0 then ch else channel_reconnect ch)) chs.

(** The 'ready' listener. *)
Definition ready_listener (c : Connection) : Connection :=
  let c := set_backoffTime None c in
  let c :=
    if reconnect_opt (implOptions c)
    then set_channels (reconnect_channels_but_0 <$> channels c) c
    else c in
  let c := set_readyEmitted true c in
  _outboundHeartbeatTimerReset c.

(** [this.emit('ready')] *)
Definition emit_ready (c : Connection) : Connection :=
  ready_listener (emit EvReady c).

(** The text [JSON.stringify(args)] contributes to a message. *)
Definition JSON_text (v : JsValue) : string :=
  default "undefined"%string (JSON_stringify v).

(** [_onMethod(channel, method, args)]: the module variables and the
    connection afterwards, and the exception it ends with, if any. *)
Definition _onMethod (g : Globals) (channel : Z) (method : InboundMethod)
    (c : Connection) : Globals * Connection * option JsError :=
  if channel >? 0 then
    match channels c with
    | None => (g, c, Some TypeError_undefined)
    | Some chs =>
        match chs !! channel with
        | None => (g, c, None)
        | Some Self =>
            (g, c,
             Some (Error ("Channel " +:+ pretty channel
                          +:+ " has no _onChannelMethod method.")))
        | Some (Handler _ _ _) =>
            (* [_onChannelMethod] of exchange.js or queue.js takes over *)
            (g, c, None)
        end
    end
  else
    match method with
    | ConnectionStart args =>
        if negb (versionMajor args =? 0) && negb (versionMinor args =? 9) then
          let c := set_socket (socket_end (socket c)) c in
          (g, emit_error (Error "Bad server version") c, None)
        else
          let c := set_serverProperties (serverProperties_arg args) c in
          (g,
           _sendMethod 0 connectionStartOk
             [("clientProperties", clientProperties (options c));
              ("mechanism", JStr (authMechanism (options c)));
              ("response", _saslResponse c);
              ("locale", JStr "en_US")]%string c,
           None)
    | ConnectionTune args =>
        let '(g, c, thrown) :=
          if negb (frameMax args =? 0) then
            let g := mkGlobals (frameMax args) (channelMax g) in
            let c := set_sendBuffer (maxFrameBuffer g) c in
            match parser c with
            | Some _ => (g, set_parser (Some (Some (maxFrameBuffer g))) c, None)
            | None => (g, c, Some TypeError_undefined)
            end
          else (g, c, None) in
        match thrown with
        | Some e => (g, c, Some e)
        | None =>
            let g :=
              if negb (channelMax_arg args =? 0)
              then mkGlobals (maxFrameBuffer g) (channelMax_arg args)
              else g in
            let c :=
              _sendMethod 0 connectionTuneOk
                [("channelMax", JNum (channelMax g));
                 ("frameMax", JNum (maxFrameBuffer g));
                 ("heartbeat", JNum (heartbeat (options c)))]%string c in
            let c :=
              _sendMethod 0 connectionOpen
                [("virtualHost", JStr (vhost (options c)));
                 ("reserved1", JStr "");
                 ("reserved2", JBool true)]%string c in
            (g, c, None)
        end
    | ConnectionOpenOk =>
        let c := set_readyCallback false c in
        (g, emit_ready c, None)
    | ConnectionClose args =>
        let e := mkError "Error" (replyText args) (Some (replyCode args)) in
        (g, set_socket (socket_destroy (Some e) (socket c)) c, None)
    | ConnectionCloseOk =>
        (g, set_socket (socket_destroy None (socket_end (socket c))) c, None)
    | ConnectionBlocked reason =>
        let c := set_blocked true c in
        let c := set_blockedReason (Some reason) c in
        (g, emit EvBlocked c, None)
    | ConnectionUnblocked =>
        let c := set_blocked false c in
        let c := set_blockedReason None c in
        (g, emit EvUnblocked c, None)
    | OtherMethod name args =>
        (g, c,
         Some (Error ("Uncaught method '" +:+ name +:+ "' with args "
                      +:+ JSON_text args)))
    end.

(** ** Listeners of the socket's events *)

(** The listener of 'connect' (of 'secureConnect' under TLS). *)
Definition connect_listener (c : Connection) : Connection :=
  let c := set_channels (Some (default {[ 0 := Self ]} (channels c))) c in
  let c := set_parser (Some None) c in
  set_readyEmitted false c.

(** One callback of the parser. *)
Definition parser_callback (g : Globals) (cb : ParserCallback) (c : Connection)
    : Globals * Connection * option JsError :=
  match cb with
  | OnMethod channel method => _onMethod g channel method c
  | OnContent _ _ => (g, c, None)
  | OnContentHeader _ _ => (g, c, None)
  | OnHeartBeat => (g, emit EvHeartbeat c, None)
  | OnError e => (g, emit EvClose (emit_error e c), None)
  end.

(** [parser.execute(data)]: the callbacks in order, up to the first
    exception. *)
Fixpoint parser_execute (g : Globals) (cbs : list ParserCallback)
    (last : option JsError) (c : Connection)
    : Globals * Connection * option JsError :=
  match cbs with
  | [] => (g, c, last)
  | cb :: cbs =>
      match parser_callback g cb c with
      | (g, c, Some e) => (g, c, Some e)
      | (g, c, None) => parser_execute g cbs last c
      end
  end.

(** The 'data' listener. *)
Definition data_listener (g : Globals) (data : Parsed) (c : Connection)
    : Globals * Connection :=
  match parser c with
  | Some _ =>
      match parser_execute g (callbacks data) (parse_exception data) c with
      | (g, c, Some exception) => (g, emit_error exception c)
      | (g, c, None) => (g, _inboundHeartbeatTimerReset c)
      end
  | None => (g, _inboundHeartbeatTimerReset c)
  end.

(** The 'end' listener. *)
Definition end_listener (c : Connection) : Connection :=
  if negb (readyEmitted c)
  then emit_error
         (Error "Connection ended: possibly due to an authentication failure.") c
  else c.

(** Events of the socket, which the connection re-emits on itself. *)
Inductive SocketEvent :=
  | SockConnect
  | SockSecureConnect
  | SockData (data : Parsed)
  | SockError (e : JsError)
  | SockEnd
  | SockClose
  | SockDrain
  | SockTimeout.

Definition on_socket_event (g : Globals) (ev : SocketEvent) (c : Connection)
    : Globals * Connection :=
  match ev with
  | SockConnect => (g, if ssl_enabled (options c) then c else connect_listener c)
  | SockSecureConnect => (g, if ssl_enabled (options c) then connect_listener c else c)
  | SockData data => data_listener g data c
  | SockError e => (g, emit_error e c)
  | SockEnd => (g, end_listener c)
  | SockClose => (g, emit EvClose c)
  | SockDrain | SockTimeout => (g, c)
  end.

(** [new Connection(connectionArgs, options, readyCallback)] followed by the
    first [connect()], which installs the listeners, creates the socket and
    writes the protocol header. *)
Definition Connection_new (g : Globals) (o : Options) (io : ImplOptions)
    (readyCallback : bool) : Connection :=
  connect
    (mkConnection o io readyCallback false 0 (maxFrameBuffer g) false None None ∅
                  None false None None
                  (mkSocket false false false false None false 0 [])
                  JUndefined None true [] []).

End Connection.

(** ** A platform for the examples

    JSON text for the values of [JsValue] (strings are taken to need no
    escapes), the octets of a string taken to hold UTF-8 text, the wire ids of
    AMQP 0-9-1, and, as a stand-in for the field serializer, the JSON text of
    the arguments. *)

Definition quoted (s : string) : string :=
  String "034"%char (s +:+ String "034"%char EmptyString).

Fixpoint example_stringify (v : JsValue) : option string :=
  match v with
  | JUndefined => None
  | JNull => Some "null"%string
  | JBool b => Some (if b then "true" else "false")%string
  | JNum n => Some (pretty n)
  | JStr s => Some (quoted s)
  | JBuffer bytes => Some ("[" +:+ String.concat "," (map pretty bytes) +:+ "]")
  | JObject fields =>
      Some ("{" +:+ String.concat ","
              ((fix members (fs : list (string * JsValue)) : list string :=
                  match fs with
                  | [] => []
                  | (k, v) :: fs =>
                      match example_stringify v with
                      | Some t => (quoted k +:+ ":" +:+ t) :: members fs
                      | None => members fs
                      end
                  end) fields)
            +:+ "}")
  end.

Definition example_utf8 (s : string) : Buffer :=
  map (fun a => Z.of_nat (nat_of_ascii a)) (list_ascii_of_string s).

Definition example_methodIndex (m : Method) : Z :=
  match m with
  | connectionStartOk => 11
  | connectionTuneOk => 31
  | connectionOpen => 40
  | connectionClose => 50
  end.

Definition examplePlatform : Platform := {|
  classIndex := fun _ => 10;
  methodIndex := example_methodIndex;
  serializeFields := fun _ args =>
    example_utf8 (default "" (example_stringify (JObject args)));
  basicClassIndex := 60;
  basicFields :=
    ["contentType"; "contentEncoding"; "headers"; "deliveryMode"; "priority";
     "correlationId"; "replyTo"; "expiration"; "messageId"; "timestamp"; "type";
     "userId"; "appId"; "clusterId"]%string;
  serializeProperties := fun props =>
    example_utf8 (default "" (example_stringify (JObject (map_to_list props))));
  utf8 := example_utf8;
  JSON_stringify := example_stringify
|}.

(** A connection with the default options, connected, before any event. *)
Definition exampleConnection : Connection :=
  Connection_new initialGlobals defaultOptions defaultImplOptions false.

(** The same after the 'connect' event of its socket. *)
Definition connectedConnection : Connection :=
  connect_listener exampleConnection.


(** Default options with a heartbeat of 30 seconds. *)
Definition heartbeatOptions : Options :=
  mkOptions "guest" "guest" "AMQPLAIN" JUndefined "/" (JObject []) 30 false
            JUndefined false 10000.

(** A connected connection whose inbound heartbeat timer is armed. *)
Definition heartbeatConnection : Connection :=
  _inboundHeartbeatTimerReset
    (connect_listener
       (Connection_new initialGlobals heartbeatOptions defaultImplOptions false)).

(** The message of the inbound heartbeat timeout. *)
Definition heartbeatTimeoutError (gracePeriod : Z) : JsError :=
  Error ("no heartbeat or data in last " +:+ pretty gracePeriod +:+ " seconds").

(** The error the 'end' listener raises before 'ready'. *)
Definition authenticationFailure : JsError :=
  Error "Connection ended: possibly due to an authentication failure.".

(** ** Notions used to state the properties *)

(** The payload length field of a frame: octets 3 to 6, big-endian. *)
Definition payloadLength (frame : Buffer) : Z :=
  parseInt (take 4 (drop 3 frame)).

(** The body size field of a content header frame: octets 11 to 18. *)
Definition headerBodySize (frame : Buffer) : Z :=
  parseInt (take 8 (drop 11 frame)).

(** Several writes in a row. *)
Definition write_all (bs : list Buffer) (c : Connection) : Connection :=
  fold_left (fun c b => write b c) bs c.

(** A buffer cut into consecutive pieces of [n] octets, the last one
    shorter when [n] does not divide the length. *)
Fixpoint chunks_fuel (fuel n : nat) (l : Buffer) : list Buffer :=
  match fuel, l with
  | O, _ | _, [] => []
  | S fuel, _ => take n l :: chunks_fuel fuel n (drop n l)
  end.

Definition chunks (n : nat) (l : Buffer) : list Buffer :=
  chunks_fuel (length l) n l.

(** The lengths of the pieces of a buffer of [len] octets. *)
Fixpoint chunk_sizes (fuel n len : nat) : list nat :=
  match fuel, len with
  | O, _ | _, O => []
  | S fuel, _ => Nat.min n len :: chunk_sizes fuel n (len - n)
  end.

(** The payload length fields of what a completed call has left on the
    socket, after the first [skip] buffers. *)
Definition sentPayloadLengths (skip : nat) (r : Completion Connection)
    : option (list Z) :=
  match r with
  | Return c => Some (map payloadLength (drop skip (written (socket c))))
  | _ => None
  end.

(** The example of the specification: 300000 octets. *)
Definition body300000 : JsValue := JBuffer (repeat 0 (Z.to_nat 300000)).

(** The smallest frame limit of AMQP 0-9-1, 4096 octets. *)
Definition smallGlobals : Globals := mkGlobals 4096 65535.

(** A body of 4500 octets. *)
Definition body4500 : Buffer := repeat 7 4500.

(** The arguments of Connection.StartOk. *)
Definition startOkArgs (c : Connection) : list (string * JsValue) :=
  [("clientProperties", clientProperties (options c));
   ("mechanism", JStr (authMechanism (options c)));
   ("response", _saslResponse c);
   ("locale", JStr "en_US")]%string.

(** Connection.Start is answered with Connection.StartOk: nothing is
    thrown, the transport is not ended, no event is emitted, the server
    properties are stored and the StartOk frame is written. *)
Definition start_is_accepted `{P : Platform} (g : Globals) (args : StartArgs)
    (c : Connection) : Prop :=
  let r := _onMethod g 0 (ConnectionStart args) c in
  r.2 = None
  /\ ended (socket r.1.2) = ended (socket c)
  /\ emitted r.1.2 = emitted c
  /\ serverProperties r.1.2 = serverProperties_arg args
  /\ written (socket r.1.2)
     = written (socket c) ++ [methodFrame 0 connectionStartOk (startOkArgs c)].

(** Connection.Start is refused: the transport is ended, the error
    "Bad server version" is emitted and nothing is written. *)
Definition start_is_rejected `{P : Platform} (g : Globals) (args : StartArgs)
    (c : Connection) : Prop :=
  let r := _onMethod g 0 (ConnectionStart args) c in
  r.1.2 = emit_error (Error "Bad server version")
                     (set_socket (socket_end (socket c)) c)
  /\ ended (socket_end (socket c)) = true
  /\ emitted r.1.2 = emitted c ++ [EvError (Error "Bad server version")]
  /\ written (socket r.1.2) = written (socket c).

(** Options with the given SASL mechanism and caller-supplied response. *)
Definition mechanismOptions (mechanism : string) (response : JsValue) : Options :=
  mkOptions "guest" "guest" mechanism response "/" (JObject []) 0 false
            JUndefined false 10000.

Definition mechanismConnection (mechanism : string) (response : JsValue)
    : Connection :=
  connect_listener
    (Connection_new initialGlobals (mechanismOptions mechanism response)
                    defaultImplOptions false).

(** A failure of the connection: an error is raised, and the reconnection
    timer that the error listener arms fires. *)
Definition failure (e : JsError) (c : Connection) : Connection :=
  reconnectTimeout_fire (emit_error e c).

(** Failures in a row, the first of the list first. *)
Definition failures (es : list JsError) (c : Connection) : Connection :=
  fold_left (fun c e => failure e c) es c.

(** The backoff of the specification: the configured time for the first
    failure since the last success, then doubled up to the limit under the
    exponential strategy, and unchanged otherwise. *)
Definition next_backoff (io : ImplOptions) (previous : option Z) : Z :=
  match previous with
  | None => reconnectBackoffTime io
  | Some t =>
      if String.eqb (reconnectBackoffStrategy io) "exponential"
      then Z.min (t * 2) (reconnectExponentialLimit io)
      else t
  end.

(** The delays of [n] failures in a row. *)
Fixpoint backoff_series (io : ImplOptions) (previous : option Z) (n : nat)
    : list Z :=
  match n with
  | O => []
  | S n =>
      let t := next_backoff io previous in
      t :: backoff_series io (Some t) n
  end.

(** The implementation options of the exponential example. *)
Definition exponentialOptions : ImplOptions :=
  mkImplOptions "" true "exponential" 10000 1000.

Definition exponentialConnection : Connection :=
  connect_listener
    (Connection_new initialGlobals defaultOptions exponentialOptions false).

(** [n] calls of [exchange] in a row, with no release in between: the ids
    they return and the connection afterwards. *)
Fixpoint allocate (n fuel : nat) (g : Globals) (c : Connection)
    : list Z * Connection :=
  match n with
  | O => ([], c)
  | S n =>
      match exchange fuel g "" c with
      | Return (Some channel, c) =>
          let '(ids, c) := allocate n fuel g c in (channel :: ids, c)
      | Return (None, c) => allocate n fuel g c
      | _ => ([], c)
      end
  end.

(** Module variables with a channel limit of 3. *)
Definition threeChannels : Globals := mkGlobals 131072 3.

(** ** Several connections in one process

    The connections of a process, by number, and the module variables they
    all read and write. *)
Record Process := mkProcess {
  globals : Globals;
  connections : gmap nat Connection
}.

(** Connection [i] receives a method on channel 0. *)
Definition deliver `{P : Platform} (i : nat) (method : InboundMethod)
    (p : Process) : Process :=
  match connections p !! i with
  | Some c =>
      let '(g, c, _) := _onMethod (globals p) 0 method c in
      mkProcess g (<[i := c]> (connections p))
  | None => p
  end.

(** Connection [i] sends a body; the connection afterwards. *)
Definition publish_on `{P : Platform} (fuel : nat) (i : nat) (channel : Z)
    (body : JsValue) (properties : gmap string JsValue) (p : Process)
    : Completion Connection :=
  match connections p !! i with
  | Some c => _sendBody fuel (globals p) channel body properties c
  | None => Throw TypeError_undefined
  end.

(** A process with two connected connections. *)
Definition exampleProcess : Process :=
  mkProcess initialGlobals
            {[ 0%nat := connectedConnection; 1%nat := connectedConnection ]}.

(** ** The rest of the connection's life *)

(** [this.options.heartbeat = v] *)
Definition set_options_heartbeat (v : Z) (c : Connection) : Connection :=
  let o := options c in
  mkConnection
    (mkOptions (login o) (password o) (authMechanism o) (response o) (vhost o)
               (clientProperties o) v (heartbeatForceReconnect o) (noDelay o)
               (ssl_enabled o) (connectionTimeout o))
    (implOptions c) (_readyCallback c) (connectionAttemptScheduled c)
    (channelCounter c) (_sendBuffer c) (_blocked c) (_blockedReason c)
    (channels c) (queues c) (parser c) (readyEmitted c)
    (_inboundHeartbeatTimer c) (_outboundHeartbeatTimer c) (socket c)
    (serverProperties c) (backoffTime c) (backoffListener c)
    (reconnectTimeouts c) (emitted c).

(** [Connection.prototype.end]; [heartbeat = false] is the falsy 0. *)
Definition Connection_end (c : Connection) : Connection :=
  let c := set_socket (socket_end (socket c)) c in
  let c := set_options_heartbeat 0 c in
  let c := set_inboundHeartbeatTimer None c in
  set_outboundHeartbeatTimer None c.

(** [queueClosed(name)] *)
Definition queueClosed (name : string) (c : Connection) : Connection :=
  match queues c !! name with
  | Some _ => set_queues (delete name (queues c)) c
  | None => c
  end.

(** The callback [_createSocket] hands to [socket.setTimeout], run when the
    timeout armed on the socket fires: the socket is destroyed and a
    TimeoutError goes to the error channel. *)
Definition TimeoutError : JsError :=
  mkError "TimeoutError" "connection timeout" None.

Definition connectionTimeout_fire (c : Connection) : Connection :=
  if sock_timeout (socket c) =? 0 then c
  else emit_error TimeoutError (set_socket (socket_destroy None (socket c)) c).

(** What can happen to a connection: an event of its socket, the firing of
    one of its timers, or a call of the application ([exchange], [queue],
    [disconnect], [reconnect], [end]).  Events and the connection timeout
    are those of the current socket.  The timeout can fire whenever one is
    armed: the callback of connect that disarms it is left out, so the
    histories below include some that the runtime excludes. *)
Inductive Stimulus :=
  | FromSocket (ev : SocketEvent)
  | InboundTimerFires
  | OutboundTimerFires
  | ReconnectTimerFires
  | ConnectionTimeoutFires
  | OpenExchange (name : string)
  | OpenQueue (name : string)
  | CallDisconnect
  | CallReconnect
  | CallEnd.

(** A call of [exchange] or [queue] whose scan for an id has not come back
    within the fuel leaves the state as it was. *)
Definition deliver_stimulus `{P : Platform} (fuel : nat) (st : Stimulus)
    (gc : Globals * Connection) : Globals * Connection :=
  let '(g, c) := gc in
  match st with
  | FromSocket ev => on_socket_event g ev c
  | InboundTimerFires => (g, inboundHeartbeatTimer_fire c)
  | OutboundTimerFires => (g, outboundHeartbeatTimer_fire c)
  | ReconnectTimerFires => (g, reconnectTimeout_fire c)
  | ConnectionTimeoutFires => (g, connectionTimeout_fire c)
  | OpenExchange name =>
      match exchange fuel g name c with
      | Return (_, c) => (g, c)
      | _ => (g, c)
      end
  | OpenQueue name =>
      match queue fuel g name c with
      | Return (_, c) => (g, c)
      | _ => (g, c)
      end
  | CallDisconnect => (g, disconnect c)
  | CallReconnect => (g, reconnect c)
  | CallEnd => (g, Connection_end c)
  end.

(** A history: stimuli delivered one after the other. *)
Definition history `{P : Platform} (fuel : nat) (sts : list Stimulus)
    (gc : Globals * Connection) : Globals * Connection :=
  fold_left (fun gc st => deliver_stimulus fuel st gc) sts gc.

(** Errors raised one after the other. *)
Definition errors (es : list JsError) (c : Connection) : Connection :=
  fold_left (fun c e => emit_error e c) es c.

(** The three methods of a successful handshake, in one chunk of data. *)
Definition handshakeData (start : StartArgs) (tune : TuneArgs) : Parsed :=
  mkParsed [OnMethod 0 (ConnectionStart start); OnMethod 0 (ConnectionTune tune);
            OnMethod 0 ConnectionOpenOk] None.

(** The arguments of Connection.TuneOk and of Connection.Open. *)
Definition tuneOkArgs (g : Globals) (c : Connection) : list (string * JsValue) :=
  [("channelMax", JNum (channelMax g)); ("frameMax", JNum (maxFrameBuffer g));
   ("heartbeat", JNum (heartbeat (options c)))]%string.

Definition openArgs (c : Connection) : list (string * JsValue) :=
  [("virtualHost", JStr (vhost (options c))); ("reserved1", JStr "");
   ("reserved2", JBool true)]%string.

(** The module variables after Connection.Tune: a field that is 0 changes
    nothing. *)
Definition tuned (g : Globals) (tune : TuneArgs) : Globals :=
  mkGlobals (if frameMax tune =? 0 then maxFrameBuffer g else frameMax tune)
            (if channelMax_arg tune =? 0 then channelMax g else channelMax_arg tune).

(** The state of a channel handler, if the entry is one. *)
Definition channel_state (ch : Channel) : option string :=
  match ch with
  | Self => None
  | Handler _ _ st => Some st
  end.

(** Options with a heartbeat of 30 seconds and reconnection off. *)
Definition noReconnectOptions : ImplOptions :=
  mkImplOptions "" false "linear" 120000 1000.

Definition noReconnectConnection : Connection :=
  connect_listener
    (Connection_new initialGlobals heartbeatOptions noReconnectOptions false).

(** The heartbeat is off and no heartbeat timer is set. *)
Definition quiet (c : Connection) : Prop :=
  heartbeat (options c) = 0
  /\ _inboundHeartbeatTimer c = None
  /\ _outboundHeartbeatTimer c = None.

(** The implementation options are [io], they enable reconnection, and the
    error listener is attached. *)
Definition supervised (io : ImplOptions) (c : Connection) : Prop :=
  implOptions c = io /\ reconnect_opt io = true /\ backoffListener c = true.

(** Two entries of [channels] are the same object: at most [state] differs. *)
Definition same_handler (a b : Channel) : Prop :=
  match a, b with
  | Self, Self => True
  | Handler k n _, Handler k' n' _ => k = k' /\ n = n'
  | _, _ => False
  end.

(** [channels c] is defined and every entry of the table [a] is an entry of
    it, under the same id. *)
Definition channels_kept (a : gmap Z Channel) (c : Connection) : Prop :=
  exists chs' : gmap Z Channel,
    channels c = Some chs'
    /\ forall id ch, a !! id = Some ch ->
         exists ch', chs' !! id = Some ch' /\ same_handler ch ch'.

(** A change of the table that keeps every entry. *)
Definition gentle (f : gmap Z Channel -> gmap Z Channel) : Prop :=
  forall (chs : gmap Z Channel) id ch,
    chs !! id = Some ch ->
    exists ch', f chs !! id = Some ch' /\ same_handler ch ch'.

(** A connection on which five exchanges were opened in a row. *)
Definition fiveChannels : Connection :=
  (allocate 5 10 initialGlobals connectedConnection).2.

(** The property flags of a content header frame: octets 19 and 20. *)
Definition headerPropertyFlags (frame : Buffer) : Z :=
  parseInt (take 2 (drop 19 frame)).

(** The properties [_sendHeader] serializes. *)
Definition headerProperties (properties : gmap string JsValue)
    : gmap string JsValue :=
  Object_assign {[ "contentType"%string := JStr "application/octet-stream" ]}
                properties.

(** ** The choice of a host *)

(** [options.host]: one value, or an array of host names. *)
Inductive HostOption :=
  | OneHost (h : JsValue)
  | HostArray (hs : list string).

(** [this.hosti]: not set yet, NaN, or a number. *)
Inductive HostIndex :=
  | NoIndex
  | NaNIndex
  | Index (i : Z).

(** [hs[hosti]]; [None] is [undefined]. *)
Definition host_at (hs : list string) (hosti : HostIndex) : option string :=
  match hosti with
  | Index i => if 0 <=? i then hs !! Z.to_nat i else None
  | _ => None
  end.

(** [_chooseHost]: the new [hosti] and the host returned.  [random] is the
    value of [parseInt(Math.random() * this.options.host.length, 10)];
    [hostPreference] counts as a number when it is a [JNum]. *)
Definition _chooseHost (host : HostOption) (hostPreference : JsValue)
    (random : Z) (hosti : HostIndex) : HostIndex * JsValue :=
  match host with
  | HostArray hs =>
      let len := Z.of_nat (length hs) in
      let hosti :=
        match hosti with
        | NoIndex =>
            match hostPreference with
            | JNum p => Index (if p <? len then p else len - 1)
            | _ => Index random
            end
        | NaNIndex => NaNIndex
        | Index i => if len =? 0 then NaNIndex else Index (Z.rem (i + 1) len)
        end in
      (hosti, match host_at hs hosti with Some h => JStr h | None => JUndefined end)
  | OneHost h => (hosti, h)
  end.

(** [n] calls of [_chooseHost] in a row: the hosts returned and the last
    [hosti]. *)
Fixpoint chooseHosts (n : nat) (host : HostOption) (hostPreference : JsValue)
    (random : Z) (hosti : HostIndex) : list JsValue * HostIndex :=
  match n with
  | O => ([], hosti)
  | S n =>
      let '(hosti, h) := _chooseHost host hostPreference random hosti in
      let '(hs, hosti) := chooseHosts n host hostPreference random hosti in
      (h :: hs, hosti)
  end.

(** ** Options from the arguments and from a URL *)

(** [obj[name]] on a value; only an object literal has properties here. *)
Fixpoint assoc (name : string) (fields : list (string * JsValue)) : JsValue :=
  match fields with
  | [] => JUndefined
  | (k, v) :: fields => if String.eqb k name then v else assoc name fields
  end.

Definition js_get (obj : JsValue) (name : string) : JsValue :=
  match obj with
  | JObject fields => assoc name fields
  | _ => JUndefined
  end.

(** [obj[name]] on a bag of properties. *)
Definition prop (obj : gmap string JsValue) (name : string) : JsValue :=
  default JUndefined (obj !! name).

(** [s.lastIndexOf(ch)] *)
Fixpoint lastIndexOf_from (ch : ascii) (s : string) (i found : Z) : Z :=
  match s with
  | EmptyString => found
  | String c rest =>
      lastIndexOf_from ch rest (i + 1) (if Ascii.eqb c ch then i else found)
  end.

Definition lastIndexOf (ch : ascii) (s : string) : Z :=
  lastIndexOf_from ch s 0 (-1).

(** [s.split(':')] *)
Fixpoint split_colon (s : string) : list string :=
  match s with
  | EmptyString => [EmptyString]
  | String c rest =>
      match split_colon rest with
      | part :: parts =>
          if Ascii.eqb c ":" then EmptyString :: part :: parts
          else String c part :: parts
      | [] => []
      end
  end.

(** No colon occurs in [s]. *)
Fixpoint colon_free (s : string) : bool :=
  match s with
  | EmptyString => true
  | String c rest => negb (Ascii.eqb c ":") && colon_free rest
  end.

(** [a[i]] of an array of strings. *)
Definition item (a : list string) (i : nat) : JsValue :=
  match a !! i with
  | Some s => JStr s
  | None => JUndefined
  end.

(** What [URL.parse] returns, as far as [_parseURLOptions] reads it; [None]
    is [null]. *)
Record Url := mkUrl {
  url_protocol : option string;
  url_hostname : option string;
  url_port : option string;
  url_auth : option string;
  url_pathname : option string
}.

Definition nullable (v : option string) : JsValue :=
  match v with
  | Some s => JStr s
  | None => JNull
  end.

(** [defaultPorts[scheme]] for the two schemes that pass the check. *)
Definition defaultPorts (scheme : string) : Z :=
  if String.eqb scheme "amqps" then 5671 else 5672.

Definition TypeError_null : JsError :=
  mkError "TypeError" "Cannot read properties of null" None.

Definition TypeError_url : JsError :=
  mkError "TypeError" "The url argument must be of type string" None.

Definition BadScheme : JsError :=
  Error ("Connection URI must use amqp or amqps scheme. For example, "
         +:+ String "034"%char
               ("amqp://bus.megacorp.internal:5766"
                +:+ String "034"%char ".")).

Definition defaultOptionsObject : gmap string JsValue :=
  list_to_map
    [("host", JStr "localhost"); ("port", JNum 5672); ("login", JStr "guest");
     ("password", JStr "guest"); ("authMechanism", JStr "AMQPLAIN");
     ("vhost", JStr "/"); ("connectionTimeout", JNum 10000);
     ("ssl", JObject [("enabled", JBool false)])]%string.

Definition defaultSslOptions : gmap string JsValue :=
  list_to_map
    [("port", JNum 5671);
     ("ssl", JObject [("rejectUnauthorized", JBool true)])]%string.

Section UrlOptions.

(** [unescape] of the runtime and [URL.parse] of the url module, on
    strings. *)
Variable unescape : string -> string.
Variable URL_parse : string -> Url.

(** [_parseURLOptions], after [URL.parse]. *)
Definition parsedURLOptions (url : Url) : Completion (gmap string JsValue) :=
  match url_protocol url with
  | None => Throw TypeError_null
  | Some protocol =>
      let scheme :=
        String.substring 0 (Z.to_nat (lastIndexOf ":" protocol)) protocol in
      if negb (String.eqb scheme "amqp") && negb (String.eqb scheme "amqps")
      then Throw BadScheme
      else
        let opts : gmap string JsValue :=
          {[ "ssl"%string := JObject [("enabled"%string,
                                       JBool (String.eqb "amqps" scheme))] ]} in
        let opts := <["host"%string := nullable (url_hostname url)]> opts in
        let opts :=
          <["port"%string := js_or (nullable (url_port url))
                                   (JNum (defaultPorts scheme))]> opts in
        let opts :=
          if ToBoolean (nullable (url_auth url)) then
            let auth := split_colon (default EmptyString (url_auth url)) in
            let opts :=
              if ToBoolean (item auth 0)
              then <["login"%string := item auth 0]> opts else opts in
            if ToBoolean (item auth 1)
            then <["password"%string := item auth 1]> opts else opts
          else opts in
        let opts :=
          if ToBoolean (nullable (url_pathname url)) then
            <["vhost"%string :=
                JStr (unescape
                        (String.substring 1
                           (String.length (default EmptyString (url_pathname url)))
                           (default EmptyString (url_pathname url))))]> opts
          else opts in
        Return opts
  end.

(** [_parseURLOptions(connectionString)]; [URL.parse] refuses what is not a
    string. *)
Definition _parseURLOptions (connectionString : JsValue)
    : Completion (gmap string JsValue) :=
  match connectionString with
  | JStr s => parsedURLOptions (URL_parse s)
  | _ => Throw TypeError_url
  end.

(** The first statements of [setOptions], up to the merge of the four
    objects; [None] is a missing argument. *)
Definition setOptions (options : option (gmap string JsValue))
    : Completion (gmap string JsValue) :=
  let o := default ∅ options in
  let urlo :=
    if ToBoolean (prop o "url") then _parseURLOptions (prop o "url")
    else Return ∅ in
  match urlo with
  | Return urlo =>
      let sslo :=
        if ToBoolean (prop o "ssl") && ToBoolean (js_get (prop o "ssl") "enabled")
        then defaultSslOptions else ∅ in
      Return (Object_assign
                (Object_assign
                   (Object_assign (Object_assign ∅ defaultOptionsObject) sslo)
                   urlo)
                o)
  | Throw e => Throw e
  | OutOfFuel => OutOfFuel
  end.

End UrlOptions.

(** What [URL.parse] makes of amqp://admin:s3:cret@localhost. *)
Definition exampleUrl : Url :=
  mkUrl (Some "amqp:"%string) (Some "localhost"%string) None
        (Some "admin:s3:cret"%string) None.

(** The argument [{ssl: {enabled: true}}] of [setOptions]. *)
Definition tlsArguments : gmap string JsValue :=
  {[ "ssl"%string := JObject [("enabled"%string, JBool true)] ]}.

(** The event of the socket that the connect listener is attached to. *)
Definition connectEvent (c : Connection) : SocketEvent :=
  if ssl_enabled (options c) then SockSecureConnect else SockConnect.

(** The protocol header [_startHandshake] writes. *)
Definition protocolHeader : Buffer := [65; 77; 81; 80; 0; 0; 9; 1].

(** The channelMax of a Connection.Tune is a short unsigned integer, as the
    parser decodes it from the wire. *)
Definition wire_callback (cb : ParserCallback) : Prop :=
  match cb with
  | OnMethod _ (ConnectionTune tune) => 0 <= channelMax_arg tune <= 65535
  | _ => True
  end.

Definition wire_stimulus (st : Stimulus) : Prop :=
  match st with
  | FromSocket (SockData data) => Forall wire_callback (callbacks data)
  | _ => True
  end.

(** The limit and the counter of the channel ids are where
    [generateChannelId] expects them, and fit the two octets of a frame's
    channel field. *)
Definition allocatable (gc : Globals * Connection) : Prop :=
  1 <= channelMax gc.1 <= 65535 /\ 0 <= channelCounter gc.2 <= 65535.

(** [this.emit('error', e)] as its caller sees it.  An EventEmitter with no
    listener for 'error' throws the error instead of emitting it; the
    listeners here are [backoff], while it is attached, and those of the
    application, of which [listening] says whether there is one. *)
Definition emit_error_from (listening : bool) (e : JsError) (c : Connection)
    : Completion Connection :=
  if backoffListener c || listening then Return (emit_error e c) else Throw e.

(** Errors raised one after the other, up to the first that is thrown. *)
Fixpoint errors_from (listening : bool) (es : list JsError) (c : Connection)
    : Completion Connection :=
  match es with
  | [] => Return c
  | e :: es =>
      match emit_error_from listening e c with
      | Return c => errors_from listening es c
      | Throw x => Throw x
      | OutOfFuel => OutOfFuel
      end
  end.

(** The 'ready' listener calls [reconnect()] of no handler: reconnection is
    off, or [channels] holds nothing besides channel 0. *)
Definition ready_reconnects_nothing (c : Connection) : Prop :=
  reconnect_opt (implOptions c) = false
  \/ forall (chs : gmap Z Channel) id,
       channels c = Some chs -> id <> 0 -> chs !! id = None.

(** Traffic of the control channel: nothing in it is handed to an exchange
    or a queue, whose code is in exchange.js and queue.js. *)
Definition control_callback (cb : ParserCallback) : Prop :=
  match cb with
  | OnMethod channel _ => channel <= 0
  | OnContent _ _ | OnContentHeader _ _ => False
  | OnHeartBeat | OnError _ => True
  end.

Definition control_stimulus (st : Stimulus) : Prop :=
  match st with
  | FromSocket (SockData data) => Forall control_callback (callbacks data)
  | _ => True
  end.

(** * Properties *)

(** ** Fields that a step leaves alone *)

Ltac fields :=
  intros;
  repeat first
    [ reflexivity
    | progress cbn
    | case_match ].

Section Frames.

Context `{P : Platform}.

Lemma options_backoff c : options (backoff c) = options c.
Proof. unfold backoff. fields. Qed.

Lemma implOptions_backoff c : implOptions (backoff c) = implOptions c.
Proof. unfold backoff. fields. Qed.

Lemma emitted_backoff c : emitted (backoff c) = emitted c.
Proof. unfold backoff. fields. Qed.

Lemma options_emit_error e c : options (emit_error e c) = options c.
Proof. unfold emit_error. case_match; [rewrite options_backoff |]; reflexivity. Qed.

Lemma emitted_emit_error e c :
  emitted (emit_error e c) = emitted c ++ [EvError e].
Proof. unfold emit_error. case_match; [rewrite emitted_backoff |]; reflexivity. Qed.

Lemma options_outboundReset c :
  options (_outboundHeartbeatTimerReset c) = options c.
Proof. unfold _outboundHeartbeatTimerReset. fields. Qed.

Lemma options_sendMethod channel m args c :
  options (_sendMethod channel m args c) = options c.
Proof. unfold _sendMethod. rewrite options_outboundReset. reflexivity. Qed.

Lemma options_emit_ready c : options (emit_ready c) = options c.
Proof.
  unfold emit_ready, ready_listener. rewrite options_outboundReset. fields.
Qed.

Lemma options_onMethod g channel m c :
  options (_onMethod g channel m c).1.2 = options c.
Proof.
  unfold _onMethod.
  repeat first
    [ reflexivity
    | rewrite options_emit_error
    | rewrite options_sendMethod
    | rewrite options_outboundReset
    | rewrite options_emit_ready
    | progress cbn [fst snd options set_serverProperties set_socket set_blocked
                    set_blockedReason set_readyCallback set_sendBuffer set_parser
                    emit_ready ready_listener emit set_emitted set_backoffTime
                    set_channels set_readyEmitted]
    | case_match
    | progress simplify_eq ].
Qed.

Lemma options_parser_callback g cb c :
  options (parser_callback g cb c).1.2 = options c.
Proof.
  destruct cb; cbn [parser_callback fst snd]; try reflexivity.
  - apply options_onMethod.
  - unfold emit at 1. cbn [options set_emitted].
    rewrite options_emit_error. reflexivity.
Qed.

Lemma options_parser_execute cbs : forall g last c,
  options (parser_execute g cbs last c).1.2 = options c.
Proof.
  induction cbs as [|cb cbs IH]; intros g last c; [reflexivity|].
  cbn [parser_execute].
  pose proof (options_parser_callback g cb c) as Hcb.
  destruct (parser_callback g cb c) as [[g1 c1] [e|]]; cbn [fst snd] in *.
  - exact Hcb.
  - rewrite IH. exact Hcb.
Qed.

End Frames.

(** ** The inbound heartbeat timer *)

Section Heartbeat.

Context `{P : Platform}.

Lemma inboundTimer_backoff c : _inboundHeartbeatTimer (backoff c) = None.
Proof. unfold backoff. fields. Qed.

Lemma inboundTimer_emit_error e c :
  backoffListener c = true -> _inboundHeartbeatTimer (emit_error e c) = None.
Proof.
  intros Hl. unfold emit_error. cbn [backoffListener emit set_emitted].
  rewrite Hl. apply inboundTimer_backoff.
Qed.

Lemma inboundTimer_reset c :
  heartbeat (options c) <> 0 ->
  _inboundHeartbeatTimer (_inboundHeartbeatTimerReset c)
  = Some (mkTimer (InboundHeartbeatCheck (2 * heartbeat (options c)))
                  (2 * heartbeat (options c) * 1000)).
Proof.
  intros Hhb. unfold _inboundHeartbeatTimerReset.
  cbn [options set_inboundHeartbeatTimer].
  destruct (Z.eqb_spec (heartbeat (options c)) 0) as [E|_]; [contradiction|].
  reflexivity.
Qed.

End Heartbeat.

(** C1, as amended.  With a heartbeat of [h > 0] seconds the inbound timer
    is armed for [2 * h] seconds.  When it fires and the transport is
    readable or [heartbeatForceReconnect] is set, the error
    "no heartbeat or data in last 2h seconds" is emitted; when the transport
    is not readable and the option is not set, nothing happens.  A data event
    arms the timer again when the parser is absent or when the parser and the
    method handlers return without an exception; a data event that ends with
    an exception emits that exception instead and does not arm the timer
    (the error listener, while attached, cancels it). *)
Theorem C1_inbound_heartbeat_timer `{P : Platform}
    (g : Globals) (data : Parsed) (c : Connection) :
  0 < heartbeat (options c) ->
  let gracePeriod := 2 * heartbeat (options c) in
  let armed :=
    Some (mkTimer (InboundHeartbeatCheck gracePeriod) (gracePeriod * 1000)) in
  _inboundHeartbeatTimer (_inboundHeartbeatTimerReset c) = armed
  /\ (_inboundHeartbeatTimer c = armed ->
      (readable (socket c) || heartbeatForceReconnect (options c) = true ->
       inboundHeartbeatTimer_fire c
         = emit_error (heartbeatTimeoutError gracePeriod) c
       /\ emitted (inboundHeartbeatTimer_fire c)
         = emitted c ++ [EvError (heartbeatTimeoutError gracePeriod)])
      /\ (readable (socket c) || heartbeatForceReconnect (options c) = false ->
          inboundHeartbeatTimer_fire c = c))
  /\ (parser c = None ->
      data_listener g data c = (g, _inboundHeartbeatTimerReset c)
      /\ _inboundHeartbeatTimer (data_listener g data c).2 = armed)
  /\ (forall g1 c1,
        parser c <> None ->
        parser_execute g (callbacks data) (parse_exception data) c
          = (g1, c1, None) ->
        data_listener g data c = (g1, _inboundHeartbeatTimerReset c1)
        /\ _inboundHeartbeatTimer (data_listener g data c).2 = armed)
  /\ (forall g1 c1 e,
        parser c <> None ->
        parser_execute g (callbacks data) (parse_exception data) c
          = (g1, c1, Some e) ->
        data_listener g data c = (g1, emit_error e c1)
        /\ (backoffListener c1 = true ->
            _inboundHeartbeatTimer (data_listener g data c).2 = None)).
Proof.
  intros Hhb gracePeriod armed. subst gracePeriod armed.
  assert (Hne : heartbeat (options c) <> 0) by lia.
  split; [now apply inboundTimer_reset|].
  split.
  { intros Harmed. unfold inboundHeartbeatTimer_fire. rewrite Harmed.
    split.
    - intros ->. split; [reflexivity|]. apply emitted_emit_error.
    - intros ->. reflexivity. }
  split.
  { intros Hp. unfold data_listener. rewrite Hp. split; [reflexivity|].
    now apply inboundTimer_reset. }
  split.
  - intros g1 c1 Hp Hex. unfold data_listener.
    destruct (parser c) as [p|]; [|congruence].
    pose proof (options_parser_execute (callbacks data) g (parse_exception data) c)
      as Hopt.
    rewrite Hex in *. cbn [fst snd] in *.
    split; [reflexivity|].
    rewrite inboundTimer_reset; rewrite Hopt; [reflexivity | exact Hne].
  - intros g1 c1 e Hp Hex. unfold data_listener.
    destruct (parser c) as [p|]; [|congruence].
    rewrite Hex. cbn [fst snd].
    split; [reflexivity|]. apply inboundTimer_emit_error.
Qed.

(** The amended C1 at a connection with a heartbeat of 30 seconds whose
    socket is readable: the timer is armed for twice the heartbeat and its
    firing emits the timeout error. *)
Lemma C1_inbound_heartbeat_timer_witness :
  0 < heartbeat (options heartbeatConnection)
  /\ (let gracePeriod := 2 * heartbeat (options heartbeatConnection) in
      _inboundHeartbeatTimer (_inboundHeartbeatTimerReset heartbeatConnection)
      = Some (mkTimer (InboundHeartbeatCheck gracePeriod) (gracePeriod * 1000))
      /\ emitted (inboundHeartbeatTimer_fire heartbeatConnection)
         = emitted heartbeatConnection
           ++ [EvError (heartbeatTimeoutError gracePeriod)]).
Proof.
  assert (H : 0 < heartbeat (options heartbeatConnection)) by (cbn; lia).
  split; [exact H|].
  destruct (C1_inbound_heartbeat_timer (P := examplePlatform) initialGlobals
              (mkParsed [OnHeartBeat] None) heartbeatConnection H)
    as (Hreset & Hfire & _).
  split; [exact Hreset|].
  assert (Harmed :
    _inboundHeartbeatTimer heartbeatConnection
    = Some (mkTimer
              (InboundHeartbeatCheck (2 * heartbeat (options heartbeatConnection)))
              (2 * heartbeat (options heartbeatConnection) * 1000)))
    by reflexivity.
  destruct (Hfire Harmed) as [Hraise _].
  assert (Hreadable :
    readable (socket heartbeatConnection)
    || heartbeatForceReconnect (options heartbeatConnection) = true)
    by reflexivity.
  exact (proj2 (Hraise Hreadable)).
Defined.

(** C1 as stated fails twice over.  With the transport readable and
    [heartbeatForceReconnect] false the firing timer does raise the error
    (the claim says nothing happens); with the transport not readable and
    the option false nothing happens (the claim says the error is raised). *)
Lemma C1_counterexample :
  (readable (socket heartbeatConnection) = true
   /\ heartbeatForceReconnect (options heartbeatConnection) = false
   /\ emitted heartbeatConnection = []
   /\ emitted (inboundHeartbeatTimer_fire heartbeatConnection)
      = [EvError (heartbeatTimeoutError 60)])
  /\ (let c := set_socket (socket_destroy None (socket heartbeatConnection))
                          heartbeatConnection in
      readable (socket c) = false
      /\ heartbeatForceReconnect (options c) = false
      /\ inboundHeartbeatTimer_fire c = c).
Proof. vm_compute. repeat split; reflexivity. Qed.

(** ** The premature end of the transport *)

Section PrematureEnd.

Context `{P : Platform}.

Lemma readyEmitted_outboundReset c :
  readyEmitted (_outboundHeartbeatTimerReset c) = readyEmitted c.
Proof. unfold _outboundHeartbeatTimerReset. fields. Qed.

Lemma readyEmitted_ready_listener c : readyEmitted (ready_listener c) = true.
Proof.
  unfold ready_listener. rewrite readyEmitted_outboundReset. reflexivity.
Qed.

End PrematureEnd.

(** C8.  An 'end' event of the transport while [readyEmitted] is false
    emits the authentication-failure error; with [readyEmitted] true it
    emits nothing and changes nothing.  The listener of the transport's
    connect event ('secureConnect' under TLS, 'connect' otherwise) sets
    [readyEmitted] to false and the 'ready' listener, run by
    Connection.OpenOk, sets it to true. *)
Theorem C8_premature_end `{P : Platform} (g : Globals) (c : Connection) :
  (readyEmitted c = false ->
     on_socket_event g SockEnd c = (g, emit_error authenticationFailure c)
     /\ emitted (on_socket_event g SockEnd c).2
        = emitted c ++ [EvError authenticationFailure])
  /\ (readyEmitted c = true -> on_socket_event g SockEnd c = (g, c))
  /\ on_socket_event g
       (if ssl_enabled (options c) then SockSecureConnect else SockConnect) c
     = (g, connect_listener c)
  /\ readyEmitted (connect_listener c) = false
  /\ _onMethod g 0 ConnectionOpenOk c
     = (g, emit_ready (set_readyCallback false c), None)
  /\ readyEmitted (emit_ready c) = true
  /\ last (emitted (emit_ready c)) = Some EvReady.
Proof.
  repeat split.
  - unfold on_socket_event, end_listener. rewrite H. reflexivity.
  - unfold on_socket_event, end_listener. rewrite H. cbn [negb snd].
    apply emitted_emit_error.
  - intros H. unfold on_socket_event, end_listener. rewrite H. reflexivity.
  - destruct (ssl_enabled (options c)) eqn:E; cbn [on_socket_event];
      rewrite E; reflexivity.
  - unfold emit_ready. apply readyEmitted_ready_listener.
  - unfold emit_ready, ready_listener, _outboundHeartbeatTimerReset.
    repeat case_match; cbn; apply last_snoc.
Qed.

(** C8 at the example connection: connected but not ready, an 'end'
    emits the error; after Connection.OpenOk an 'end' emits nothing. *)
Lemma C8_premature_end_witness :
  readyEmitted connectedConnection = false
  /\ emitted (on_socket_event (P := examplePlatform) initialGlobals SockEnd
                connectedConnection).2
     = [EvError authenticationFailure]
  /\ (let c := (_onMethod (P := examplePlatform) initialGlobals 0
                  ConnectionOpenOk connectedConnection).1.2 in
      readyEmitted c = true
      /\ on_socket_event (P := examplePlatform) initialGlobals SockEnd c
         = (initialGlobals, c)).
Proof.
  destruct (C8_premature_end (P := examplePlatform) initialGlobals
              connectedConnection) as (Hend & _ & _ & _ & Hok & _).
  destruct (Hend eq_refl) as [_ Hemitted].
  split; [reflexivity|]. split; [exact Hemitted|].
  rewrite Hok. cbn [fst snd].
  destruct (C8_premature_end (P := examplePlatform) initialGlobals
              (emit_ready (set_readyCallback false connectedConnection)))
    as (_ & Hquiet & _ & _ & _ & _).
  split; [reflexivity|]. apply Hquiet. reflexivity.
Defined.

(** ** No-delay *)

Lemma ToBoolean_or_true v : ToBoolean (js_or v (JBool true)) = true.
Proof. unfold js_or. destruct (ToBoolean v) eqn:E; [exact E | reflexivity]. Qed.

(** C10.  [this.options.noDelay || true] is truthy for every value of the
    option, and is the boolean [true] whenever the option is a boolean
    ([false] included), [undefined] or [null]; so the socket [_createSocket]
    makes, also through [connect] and [reconnect], always has no-delay
    enabled. *)
Theorem C10_noDelay_always_enabled (c : Connection) :
  (forall v, ToBoolean (js_or v (JBool true)) = true)
  /\ (forall b, js_or (JBool b) (JBool true) = JBool true)
  /\ js_or JUndefined (JBool true) = JBool true
  /\ js_or JNull (JBool true) = JBool true
  /\ sock_noDelay (socket (_createSocket c)) = true
  /\ sock_noDelay (socket (connect c)) = true
  /\ sock_noDelay (socket (reconnect c)) = true.
Proof.
  split; [apply ToBoolean_or_true|].
  split; [intros []; reflexivity|].
  repeat split; cbn; apply ToBoolean_or_true.
Qed.

(** ** Content frames *)

Lemma length_serializeInt size int : length (serializeInt size int) = size.
Proof. induction size as [|k IH]; cbn; [reflexivity | now rewrite IH]. Qed.

Lemma parseInt_acc b : forall acc,
  fold_left (fun acc o => acc * 256 + o) b acc
  = acc * 256 ^ Z.of_nat (length b) + parseInt b.
Proof.
  unfold parseInt.
  induction b as [|y b IH]; intros acc; cbn [fold_left length].
  - cbn. lia.
  - rewrite IH, (IH (0 * 256 + y)).
    rewrite Nat2Z.inj_succ, Z.pow_succ_r by lia. lia.
Qed.

Lemma parseInt_cons x b :
  parseInt (x :: b) = x * 256 ^ Z.of_nat (length b) + parseInt b.
Proof. unfold parseInt at 1. cbn [fold_left]. rewrite parseInt_acc. lia. Qed.

Lemma parseInt_serializeInt size int :
  parseInt (serializeInt size int) = int mod 256 ^ Z.of_nat size.
Proof.
  induction size as [|k IH].
  - cbn. now rewrite Z.mod_1_r.
  - cbn [serializeInt]. rewrite parseInt_cons, IH, length_serializeInt.
    change 255 with (Z.ones 8). rewrite Z.land_ones by lia.
    rewrite Z.shiftr_div_pow2 by lia.
    rewrite Nat2Z.inj_succ, Z.pow_succ_r by lia.
    replace (2 ^ (8 * Z.of_nat k)) with (256 ^ Z.of_nat k)
      by (change 256 with (2 ^ 8); rewrite <- Z.pow_mul_r by lia; reflexivity).
    change (2 ^ 8) with 256.
    assert (Hpos : 0 < 256 ^ Z.of_nat k) by (apply Z.pow_pos_nonneg; lia).
    rewrite (Z.mul_comm 256), Z.rem_mul_r by lia. lia.
Qed.

Lemma length_bodyFrame channel bodySize payload :
  Z.of_nat (length (bodyFrame channel bodySize payload))
  = Z.of_nat (length payload) + 8.
Proof.
  unfold bodyFrame.
  rewrite !length_app, !length_serializeInt. cbn [length]. lia.
Qed.

Lemma payloadLength_bodyFrame channel bodySize payload :
  0 <= bodySize < 2 ^ 32 ->
  payloadLength (bodyFrame channel bodySize payload) = bodySize.
Proof.
  intros Hb. unfold payloadLength, bodyFrame.
  pose proof (length_serializeInt 4 bodySize) as H4.
  pose proof (parseInt_serializeInt 4 bodySize) as Hparse.
  remember (serializeInt 4 bodySize) as s eqn:Hs.
  cbn [app serializeInt drop].
  rewrite drop_0, take_app_length' by (symmetry; exact H4).
  rewrite Hparse. apply Z.mod_small.
  change (256 ^ Z.of_nat 4) with (2 ^ 32). exact Hb.
Qed.

Lemma written_write_all bs : forall c,
  written (socket (write_all bs c)) = written (socket c) ++ bs.
Proof.
  induction bs as [|b bs IH]; intros c; cbn [write_all fold_left].
  - now rewrite app_nil_r.
  - fold (write_all bs (write b c)). rewrite IH. cbn [write socket set_socket
      socket_write written]. now rewrite <- app_assoc.
Qed.

Lemma take_min_length (n : nat) (l : Buffer) :
  take (Nat.min n (length l)) l = take n l.
Proof.
  destruct (Nat.le_gt_cases n (length l)) as [Hle|Hgt].
  - now rewrite Nat.min_l.
  - rewrite Nat.min_r by lia. rewrite !take_ge by lia. reflexivity.
Qed.

Lemma drop_min_length (n : nat) (l : Buffer) :
  drop (Nat.min n (length l)) l = drop n l.
Proof.
  destruct (Nat.le_gt_cases n (length l)) as [Hle|Hgt].
  - now rewrite Nat.min_l.
  - rewrite Nat.min_r by lia. rewrite !drop_ge by lia. reflexivity.
Qed.

Lemma chunks_fuel_enough (n : nat) :
  (0 < n)%nat ->
  forall fuel1 fuel2 (l : Buffer),
    (length l <= fuel1)%nat -> (length l <= fuel2)%nat ->
    chunks_fuel fuel1 n l = chunks_fuel fuel2 n l.
Proof.
  intros Hn. induction fuel1 as [|fuel1 IH]; intros fuel2 l H1 H2.
  - assert (l = []) as -> by (apply nil_length_inv; lia). now destruct fuel2.
  - destruct l as [|x l]; [now destruct fuel2|].
    destruct fuel2 as [|fuel2]; [cbn in H2; lia|].
    cbn [chunks_fuel]. f_equal.
    apply IH; rewrite length_drop; cbn [length] in *; lia.
Qed.

Lemma concat_chunks_fuel (n : nat) :
  (0 < n)%nat ->
  forall fuel (l : Buffer),
    (length l <= fuel)%nat -> concat (chunks_fuel fuel n l) = l.
Proof.
  intros Hn. induction fuel as [|fuel IH]; intros l Hl.
  - assert (l = []) as -> by (apply nil_length_inv; lia). reflexivity.
  - destruct l as [|x l]; [reflexivity|].
    cbn [chunks_fuel concat]. rewrite IH.
    + apply take_drop.
    + rewrite length_drop. cbn [length] in *. lia.
Qed.

Lemma Forall_chunks_fuel (n : nat) :
  (0 < n)%nat ->
  forall fuel (l : Buffer),
    Forall (fun p => (0 < length p <= n)%nat) (chunks_fuel fuel n l).
Proof.
  intros Hn. induction fuel as [|fuel IH]; intros l; [constructor|].
  destruct l as [|x l]; [constructor|].
  cbn [chunks_fuel]. constructor; [|apply IH].
  rewrite length_take. cbn [length]. lia.
Qed.

Lemma lengths_chunks_fuel (n : nat) : forall fuel (l : Buffer),
  map length (chunks_fuel fuel n l) = chunk_sizes fuel n (length l).
Proof.
  induction fuel as [|fuel IH]; intros l; [reflexivity|].
  destruct l as [|x l]; [reflexivity|].
  cbn [chunks_fuel map chunk_sizes length].
  rewrite IH, length_take, length_drop. reflexivity.
Qed.

Lemma length_chunk_sizes (n : nat) :
  (0 < n)%nat ->
  forall fuel len, (len <= fuel)%nat ->
    Z.of_nat (length (chunk_sizes fuel n len))
    = (Z.of_nat len + Z.of_nat n - 1) / Z.of_nat n.
Proof.
  intros Hn. induction fuel as [|fuel IH]; intros len Hlen.
  - assert (len = 0)%nat as -> by lia. cbn [chunk_sizes length].
    symmetry. apply Z.div_small. lia.
  - destruct len as [|len].
    + cbn [chunk_sizes length]. symmetry. apply Z.div_small. lia.
    + cbn [chunk_sizes length]. rewrite Nat2Z.inj_succ, IH by lia.
      destruct (Nat.le_gt_cases n (S len)) as [Hle|Hgt].
      * replace (Z.of_nat (S len) + Z.of_nat n - 1)
          with (Z.of_nat (S len - n) + Z.of_nat n - 1 + 1 * Z.of_nat n) by lia.
        rewrite Z.div_add by lia. lia.
      * replace (S len - n)%nat with 0%nat by lia.
        rewrite (Z.div_small (Z.of_nat 0 + Z.of_nat n - 1)) by lia.
        apply Z.div_unique with (r := Z.of_nat (S len) - 1); lia.
Qed.

Lemma sendBody_loop_chunks (maxBodySize channel : Z) (buffer : Buffer) :
  0 < maxBodySize ->
  forall fuel (rest : Buffer) (pos : nat) c,
    drop pos buffer = rest ->
    (length rest <= fuel)%nat ->
    _sendBody_loop fuel maxBodySize channel buffer
                   (Z.of_nat pos) (Z.of_nat (length rest)) c
    = Return (write_all
                (map (fun p => bodyFrame channel (Z.of_nat (length p)) p)
                     (chunks_fuel fuel (Z.to_nat maxBodySize) rest)) c).
Proof.
  intros Hm. set (n := Z.to_nat maxBodySize).
  induction fuel as [|fuel IH]; intros rest pos c Hdrop Hlen.
  - assert (rest = []) as -> by (apply nil_length_inv; lia). reflexivity.
  - destruct rest as [|x rest]; [reflexivity|].
    set (l := x :: rest) in *.
    assert (Hpos : (0 < length l)%nat) by (subst l; cbn; lia).
    cbn [_sendBody_loop].
    destruct (Z.gtb_spec (Z.of_nat (length l)) 0) as [_|Hc]; [|lia].
    assert (Hsize :
      (if Z.of_nat (length l) <? maxBodySize
       then Z.of_nat (length l) else maxBodySize)
      = Z.of_nat (Nat.min n (length l))).
    { destruct (Z.ltb_spec (Z.of_nat (length l)) maxBodySize); subst n; lia. }
    rewrite Hsize.
    assert (Hslice :
      Buffer_slice buffer (Z.of_nat pos) (Z.of_nat (Nat.min n (length l)))
      = take n l).
    { unfold Buffer_slice. rewrite !Nat2Z.id, Hdrop. apply take_min_length. }
    rewrite Hslice.
    replace (Z.of_nat pos + Z.of_nat (Nat.min n (length l)))
      with (Z.of_nat (pos + Nat.min n (length l))) by lia.
    replace (Z.of_nat (length l) - Z.of_nat (Nat.min n (length l)))
      with (Z.of_nat (length (drop n l)))
      by (rewrite length_drop; lia).
    rewrite (IH (drop n l)).
    + subst l. cbn [chunks_fuel map write_all fold_left].
      rewrite length_take. reflexivity.
    + rewrite <- drop_drop, Hdrop. apply drop_min_length.
    + rewrite length_drop. subst n. lia.
Qed.

(** With a frame limit of exactly 8 the loop makes no progress on a body
    that is not empty: no amount of fuel is enough. *)
Lemma sendBody_loop_stuck channel (buffer : Buffer) : forall fuel pos len c,
  0 < len ->
  _sendBody_loop fuel 0 channel buffer pos len c = OutOfFuel.
Proof.
  induction fuel as [|fuel IH]; intros pos len c Hlen; cbn [_sendBody_loop];
    destruct (Z.gtb_spec len 0) as [_|Hc]; try lia; [reflexivity|].
  destruct (Z.ltb_spec len 0) as [Hneg|_]; [lia|].
  rewrite Z.sub_0_r. apply IH. exact Hlen.
Qed.

Lemma headerBodySize_headerFrame `{P : Platform} channel size properties :
  0 <= size < 2 ^ 64 ->
  headerBodySize (headerFrame channel size properties) = size.
Proof.
  intros Hs. unfold headerBodySize, headerFrame.
  pose proof (length_serializeInt 8 size) as H8.
  pose proof (parseInt_serializeInt 8 size) as Hparse.
  remember (serializeInt 8 size) as s eqn:Es.
  remember (serializeInt 4) as ser4 eqn:E4.
  pose proof (length_serializeInt 4) as H4. rewrite <- E4 in H4.
  remember (serializeInt 2 basicClassIndex) as cls eqn:Ecls.
  pose proof (length_serializeInt 2 basicClassIndex) as Hcls.
  rewrite <- Ecls in Hcls.
  cbn [app serializeInt drop].
  match goal with
  | |- context [ser4 ?n] => specialize (H4 n); remember (ser4 n) as len eqn:El
  end.
  destruct len as [|l0 [|l1 [|l2 [|l3 [|]]]]]; try discriminate H4.
  destruct cls as [|c0 [|c1 [|]]]; try discriminate Hcls.
  cbn [app drop].
  rewrite drop_0, <- app_assoc, take_app_length' by (symmetry; exact H8).
  rewrite Hparse. apply Z.mod_small.
  change (256 ^ Z.of_nat 8) with (2 ^ 64). exact Hs.
Qed.

Section Content.

Context `{P : Platform}.

Lemma sendBody_frames fuel g channel body properties c props buffer :
  8 < maxFrameBuffer g ->
  _bodyToBuffer body = Return (props, buffer) ->
  (length buffer <= fuel)%nat ->
  _sendBody fuel g channel body properties c
  = Return
      (write_all
         (headerFrame channel (Z.of_nat (length buffer))
                      (Object_assign (default ∅ props) properties)
          :: map (fun p => bodyFrame channel (Z.of_nat (length p)) p)
                 (chunks (Z.to_nat (maxFrameBuffer g - 8)) buffer)) c).
Proof.
  intros Hmax Hbody Hfuel. unfold _sendBody. rewrite Hbody.
  cbn zeta. unfold _sendHeader.
  rewrite (sendBody_loop_chunks (maxFrameBuffer g - 8) channel buffer
             ltac:(lia) fuel buffer 0 _ eq_refl Hfuel).
  unfold chunks.
  rewrite (chunks_fuel_enough (Z.to_nat (maxFrameBuffer g - 8)) ltac:(lia)
             fuel (length buffer) buffer Hfuel (le_n _)).
  reflexivity.
Qed.

End Content.




(** ** Body encoding *)

(** C7, as amended.  [_bodyToBuffer] returns a buffer as it is and the UTF-8
    octets of a string, in both cases without properties; for any other
    value that [JSON.stringify] turns into text it returns the UTF-8 octets
    of that text with the property contentType = application/json; for a
    value that [JSON.stringify] turns into [undefined] it throws, and
    [_sendBody] throws with it before anything is written.  In [_sendBody]
    the properties of [_bodyToBuffer] are the defaults under the caller's:
    with a frame limit above 8 that holds the content header frame, the
    content header is sent with the caller's properties unchanged for a
    buffer or a string, and otherwise with contentType set to the caller's
    if there is one and to application/json if not, the other properties
    being the caller's. *)
Theorem C7_body_encoding `{P : Platform} (fuel : nat) (g : Globals) (channel : Z)
    (properties : gmap string JsValue) (c : Connection) :
  (forall b, _bodyToBuffer (JBuffer b) = Return (None, b))
  /\ (forall s, _bodyToBuffer (JStr s) = Return (None, utf8 s))
  /\ (forall v json,
        (forall s, v <> JStr s) -> (forall b, v <> JBuffer b) ->
        JSON_stringify v = Some json ->
        _bodyToBuffer v
        = Return (Some {[ "contentType"%string := JStr "application/json" ]},
                  utf8 json))
  /\ (forall v,
        (forall s, v <> JStr s) -> (forall b, v <> JBuffer b) ->
        JSON_stringify v = None ->
        _bodyToBuffer v = Throw TypeError_buffer
        /\ _sendBody fuel g channel v properties c = Throw TypeError_buffer)
  /\ (forall body props buffer,
        8 < maxFrameBuffer g ->
        _bodyToBuffer body = Return (props, buffer) ->
        (length buffer <= fuel)%nat ->
        let sentProperties := Object_assign (default ∅ props) properties in
        Z.of_nat (length (headerFrame channel (Z.of_nat (length buffer))
                            sentProperties))
          <= maxFrameBuffer g ->
        (exists sent frames,
            _sendBody fuel g channel body properties c = Return sent
            /\ written (socket sent)
               = written (socket c)
                 ++ headerFrame channel (Z.of_nat (length buffer)) sentProperties
                 :: frames)
        /\ (props = None -> sentProperties = properties)
        /\ (props = Some {[ "contentType"%string := JStr "application/json" ]} ->
            sentProperties !! "contentType"%string
            = Some (default (JStr "application/json")
                            (properties !! "contentType"%string))
            /\ forall k, k <> "contentType"%string ->
                         sentProperties !! k = properties !! k)).
Proof.
  split; [reflexivity|]. split; [reflexivity|]. split.
  { intros v json Hs Hb Hjson. unfold _bodyToBuffer.
    destruct v; try (rewrite Hjson; reflexivity).
    - now destruct (Hs s).
    - now destruct (Hb bytes). }
  split.
  { intros v Hs Hb Hjson.
    assert (Hthrow : _bodyToBuffer v = Throw TypeError_buffer).
    { unfold _bodyToBuffer. destruct v; try (rewrite Hjson; reflexivity).
      - now destruct (Hs s).
      - now destruct (Hb bytes). }
    split; [exact Hthrow|]. unfold _sendBody. now rewrite Hthrow. }
  intros body props buffer Hmax Hbody Hfuel sentProperties _. split.
  { eexists _, _. split.
    - exact (sendBody_frames fuel g channel body properties c props buffer
               Hmax Hbody Hfuel).
    - apply written_write_all. }
  subst sentProperties. unfold Object_assign. split.
  - intros ->. cbn [default]. apply (right_id_L ∅ (∪)).
  - intros ->. unfold default at 1 3; cbn [from_option id]. split.
    + rewrite lookup_union, lookup_singleton_eq.
      destruct (properties !! "contentType"%string); reflexivity.
    + intros k Hk. rewrite lookup_union, lookup_singleton_ne by congruence.
      destruct (properties !! k); reflexivity.
Qed.

(** C7 at the example platform: an object is sent as its JSON text with the
    content type application/json; a string is sent without properties. *)
Lemma C7_body_encoding_witness :
  _bodyToBuffer (P := examplePlatform) (JObject [("a", JNum 1)]%string)
  = Return (Some {[ "contentType"%string := JStr "application/json" ]},
            example_utf8 ("{" +:+ quoted "a" +:+ ":1}"))
  /\ _bodyToBuffer (P := examplePlatform) (JStr "a") = Return (None, [97]).
Proof.
  destruct (C7_body_encoding (P := examplePlatform) 0 initialGlobals 1 ∅
              connectedConnection) as (_ & Hstr & Hjson & _ & _).
  split.
  - apply (Hjson (JObject [("a", JNum 1)]%string) ("{" +:+ quoted "a" +:+ ":1}"));
      [discriminate.. | vm_compute; reflexivity].
  - apply Hstr.
Defined.

(** C7 as stated fails for a value that is neither a string nor a buffer
    and has no JSON text: for [undefined], [JSON.stringify] gives
    [undefined], [new Buffer(undefined, 'utf8')] throws, and nothing is
    encoded or sent. *)
Lemma C7_counterexample :
  JSON_stringify (Platform := examplePlatform) JUndefined = None
  /\ _bodyToBuffer (P := examplePlatform) JUndefined = Throw TypeError_buffer
  /\ _sendBody (P := examplePlatform) 10 initialGlobals 1 JUndefined ∅
               connectedConnection
     = Throw TypeError_buffer.
Proof. vm_compute. repeat split; reflexivity. Qed.

(** ** SASL response and the start of the handshake *)

Section Handshake.

Context `{P : Platform}.

Lemma socket_outboundReset c :
  socket (_outboundHeartbeatTimerReset c) = socket c.
Proof. unfold _outboundHeartbeatTimerReset. fields. Qed.

Lemma emitted_outboundReset c :
  emitted (_outboundHeartbeatTimerReset c) = emitted c.
Proof. unfold _outboundHeartbeatTimerReset. fields. Qed.

Lemma serverProperties_outboundReset c :
  serverProperties (_outboundHeartbeatTimerReset c) = serverProperties c.
Proof. unfold _outboundHeartbeatTimerReset. fields. Qed.

Lemma written_sendMethod channel m args c :
  written (socket (_sendMethod channel m args c))
  = written (socket c) ++ [methodFrame channel m args].
Proof. unfold _sendMethod. rewrite socket_outboundReset. reflexivity. Qed.

Lemma ended_sendMethod channel m args c :
  ended (socket (_sendMethod channel m args c)) = ended (socket c).
Proof. unfold _sendMethod. rewrite socket_outboundReset. reflexivity. Qed.

(** What [_onMethod] does with Connection.Start on channel 0. *)
Lemma onMethod_start g args c :
  _onMethod g 0 (ConnectionStart args) c
  = if negb (versionMajor args =? 0) && negb (versionMinor args =? 9)
    then (g, emit_error (Error "Bad server version")
                        (set_socket (socket_end (socket c)) c), None)
    else (g, _sendMethod 0 connectionStartOk (startOkArgs c)
                         (set_serverProperties (serverProperties_arg args) c),
          None).
Proof. reflexivity. Qed.

(** Both numbers wrong: the transport is ended and the error raised. *)
Lemma start_rejected g args c :
  versionMajor args <> 0 -> versionMinor args <> 9 ->
  let c' := (_onMethod g 0 (ConnectionStart args) c).1.2 in
  ended (socket_end (socket c)) = true
  /\ c' = emit_error (Error "Bad server version")
                     (set_socket (socket_end (socket c)) c)
  /\ emitted c' = emitted c ++ [EvError (Error "Bad server version")]
  /\ written (socket c') = written (socket c).
Proof.
  intros Hmajor Hminor. cbn zeta. rewrite onMethod_start.
  destruct (Z.eqb_spec (versionMajor args) 0); [contradiction|].
  destruct (Z.eqb_spec (versionMinor args) 9); [contradiction|].
  cbn [negb andb fst snd]. split; [reflexivity|]. split; [reflexivity|].
  split; [rewrite emitted_emit_error; reflexivity|].
  unfold emit_error, backoff. fields.
Qed.

(** One number right: Connection.StartOk is sent. *)
Lemma start_accepted g args c :
  versionMajor args = 0 \/ versionMinor args = 9 ->
  let c' := (_onMethod g 0 (ConnectionStart args) c).1.2 in
  (_onMethod g 0 (ConnectionStart args) c).2 = None
  /\ ended (socket c') = ended (socket c)
  /\ emitted c' = emitted c
  /\ serverProperties c' = serverProperties_arg args
  /\ written (socket c')
     = written (socket c) ++ [methodFrame 0 connectionStartOk (startOkArgs c)].
Proof.
  intros Hv. cbn zeta. rewrite onMethod_start.
  assert (negb (versionMajor args =? 0) && negb (versionMinor args =? 9) = false)
    as ->.
  { destruct Hv as [-> | ->]; [reflexivity|]. cbn. apply andb_false_r. }
  cbn [fst snd]. split; [reflexivity|].
  rewrite ended_sendMethod, written_sendMethod.
  unfold _sendMethod. rewrite emitted_outboundReset, serverProperties_outboundReset.
  repeat split; reflexivity.
Qed.

End Handshake.

(** C2, the code where it departs from the claim.  The version test of
    [_onMethod] refuses Connection.Start only when both numbers are wrong.
    A Start with versionMajor 0 and versionMinor 8, or with versionMajor 1
    and versionMinor 9, is answered with Connection.StartOk, the transport
    left open and no error raised, where the claim requires BadServerVersion.
    Version 1-0 is refused and version 0-9 accepted, as the claim says. *)
Theorem C2_start_version_check `{P : Platform} (g : Globals) (c : Connection)
    (props : JsValue) (mechs locs : string) :
  start_is_accepted g (mkStartArgs 0 8 props mechs locs) c
  /\ start_is_accepted g (mkStartArgs 1 9 props mechs locs) c
  /\ start_is_rejected g (mkStartArgs 1 0 props mechs locs) c
  /\ start_is_accepted g (mkStartArgs 0 9 props mechs locs) c.
Proof.
  split; [apply start_accepted; left; reflexivity|].
  split; [apply start_accepted; right; reflexivity|].
  split; [|apply start_accepted; left; reflexivity].
  destruct (start_rejected g (mkStartArgs 1 0 props mechs locs) c) as (? & ? & ? & ?);
    [discriminate.. |].
  repeat split; assumption.
Qed.

(** C6.  The response of [_saslResponse] by [authMechanism]: the table of
    LOGIN and PASSWORD for AMQPLAIN, NUL login NUL password for PLAIN, NUL
    for EXTERNAL and for ANONYMOUS, and [options.response] as given for any
    other mechanism; it is the [response] argument of the Connection.StartOk
    that answers an accepted Connection.Start. *)
Theorem C6_sasl_response `{P : Platform} (g : Globals) (args : StartArgs)
    (c : Connection) :
  let o := options c in
  (authMechanism o = "AMQPLAIN"%string ->
     _saslResponse c
     = JObject [("LOGIN", JStr (login o)); ("PASSWORD", JStr (password o))]%string)
  /\ (authMechanism o = "PLAIN"%string ->
      _saslResponse c = JStr (NUL +:+ login o +:+ NUL +:+ password o))
  /\ (authMechanism o = "EXTERNAL"%string -> _saslResponse c = JStr NUL)
  /\ (authMechanism o = "ANONYMOUS"%string -> _saslResponse c = JStr NUL)
  /\ (authMechanism o <> "AMQPLAIN"%string -> authMechanism o <> "PLAIN"%string ->
      authMechanism o <> "EXTERNAL"%string ->
      authMechanism o <> "ANONYMOUS"%string ->
      _saslResponse c = response o)
  /\ (versionMajor args = 0 \/ versionMinor args = 9 ->
      written (socket (_onMethod g 0 (ConnectionStart args) c).1.2)
      = written (socket c)
        ++ [methodFrame 0 connectionStartOk
              [("clientProperties", clientProperties o);
               ("mechanism", JStr (authMechanism o));
               ("response", _saslResponse c);
               ("locale", JStr "en_US")]%string]).
Proof.
  cbn zeta. unfold _saslResponse.
  split; [intros ->; reflexivity|].
  split; [intros ->; reflexivity|].
  split; [intros ->; reflexivity|].
  split; [intros ->; reflexivity|].
  split.
  - intros H1 H2 H3 H4.
    apply String.eqb_neq in H1, H2, H3, H4. now rewrite H1, H2, H3, H4.
  - intros Hv. now destruct (start_accepted g args c Hv) as (_ & _ & _ & _ & Hw).
Qed.

(** C6 at two connections: with PLAIN and the default credentials the
    response is NUL guest NUL guest; with a mechanism of the caller's own
    it is the caller's response. *)
Lemma C6_sasl_response_witness :
  _saslResponse (mechanismConnection "PLAIN" JUndefined)
  = JStr (NUL +:+ "guest" +:+ NUL +:+ "guest")
  /\ _saslResponse (mechanismConnection "SCRAM-SHA-256" (JStr "n,,n=guest"))
     = JStr "n,,n=guest".
Proof.
  split.
  - destruct (C6_sasl_response (P := examplePlatform) initialGlobals
                (mkStartArgs 0 9 JNull "" "")
                (mechanismConnection "PLAIN" JUndefined))
      as (_ & Hplain & _).
    apply Hplain. reflexivity.
  - destruct (C6_sasl_response (P := examplePlatform) initialGlobals
                (mkStartArgs 0 9 JNull "" "")
                (mechanismConnection "SCRAM-SHA-256" (JStr "n,,n=guest")))
      as (_ & _ & _ & _ & Hother & _).
    apply Hother; discriminate.
Defined.

(** ** Reconnection backoff *)

Lemma backoff_schedules c :
  reconnect_opt (implOptions c) = true ->
  connectionAttemptScheduled c = false ->
  let t := next_backoff (implOptions c) (backoffTime c) in
  reconnectTimeouts (backoff c) = reconnectTimeouts c ++ [t]
  /\ backoffTime (backoff c) = Some t
  /\ connectionAttemptScheduled (backoff c) = true
  /\ backoffListener (backoff c) = backoffListener c
  /\ implOptions (backoff c) = implOptions c.
Proof.
  intros Hre Hsched. cbn zeta. unfold backoff, next_backoff.
  cbn [connectionAttemptScheduled implOptions backoffTime reconnectTimeouts
       backoffListener set_inboundHeartbeatTimer set_outboundHeartbeatTimer
       set_connectionAttemptScheduled set_socket set_parser set_channels
       set_queues].
  rewrite Hsched, Hre. cbn [negb].
  assert (Hmin : forall t limit,
            (if t * 2 >? limit then limit else t * 2) = Z.min (t * 2) limit).
  { intros t limit. destruct (Z.gtb_spec (t * 2) limit); lia. }
  destruct (backoffTime c) as [t|];
    [rewrite Hmin;
     destruct (String.eqb (reconnectBackoffStrategy (implOptions c)) "exponential");
     [|destruct (String.eqb (reconnectBackoffStrategy (implOptions c)) "linear")]|];
    repeat split; reflexivity.
Qed.

Lemma emit_error_attached e c :
  backoffListener c = true -> emit_error e c = backoff (emit (EvError e) c).
Proof.
  intros Hl. unfold emit_error. cbn [backoffListener emit set_emitted].
  now rewrite Hl.
Qed.

Lemma reconnectTimeout_fire_fields c :
  reconnectTimeouts (reconnectTimeout_fire c) = reconnectTimeouts c
  /\ backoffTime (reconnectTimeout_fire c) = backoffTime c
  /\ connectionAttemptScheduled (reconnectTimeout_fire c) = false
  /\ backoffListener (reconnectTimeout_fire c) = backoffListener c
  /\ implOptions (reconnectTimeout_fire c) = implOptions c.
Proof. repeat split; reflexivity. Qed.

Lemma failure_step e c :
  reconnect_opt (implOptions c) = true ->
  backoffListener c = true ->
  connectionAttemptScheduled c = false ->
  let t := next_backoff (implOptions c) (backoffTime c) in
  (reconnectTimeouts (emit_error e c) = reconnectTimeouts c ++ [t]
   /\ backoffTime (emit_error e c) = Some t)
  /\ reconnectTimeouts (failure e c) = reconnectTimeouts c ++ [t]
  /\ backoffTime (failure e c) = Some t
  /\ connectionAttemptScheduled (failure e c) = false
  /\ backoffListener (failure e c) = true
  /\ implOptions (failure e c) = implOptions c.
Proof.
  intros Hre Hl Hsched t.
  destruct (backoff_schedules (emit (EvError e) c) Hre Hsched)
    as (Ht & Hb & _ & Hl' & Hio).
  change (next_backoff _ _) with t in Ht, Hb.
  change (reconnectTimeouts (emit (EvError e) c)) with (reconnectTimeouts c) in Ht.
  change (backoffListener (emit (EvError e) c)) with (backoffListener c) in Hl'.
  change (implOptions (emit (EvError e) c)) with (implOptions c) in Hio.
  unfold failure.
  destruct (reconnectTimeout_fire_fields (emit_error e c))
    as (Ft & Fb & Fs & Fl & Fio).
  rewrite Ft, Fb, Fs, Fl, Fio, (emit_error_attached e c Hl).
  rewrite Ht, Hb, Hl', Hio. repeat split; try reflexivity. exact Hl.
Qed.

Lemma failures_series es : forall c,
  reconnect_opt (implOptions c) = true ->
  backoffListener c = true ->
  connectionAttemptScheduled c = false ->
  reconnectTimeouts (failures es c)
  = reconnectTimeouts c ++ backoff_series (implOptions c) (backoffTime c) (length es)
  /\ connectionAttemptScheduled (failures es c) = false
  /\ backoffListener (failures es c) = true
  /\ implOptions (failures es c) = implOptions c.
Proof.
  induction es as [|e es IH]; intros c Hre Hl Hsched.
  - cbn. rewrite app_nil_r. auto.
  - destruct (failure_step e c Hre Hl Hsched) as (_ & Ht & Hb & Hs & Hl' & Hio).
    cbn [failures fold_left length backoff_series].
    fold (failures es (failure e c)).
    destruct (IH (failure e c)) as (IHt & IHs & IHl & IHio);
      [now rewrite Hio | exact Hl' | exact Hs |].
    rewrite IHt, IHio, Ht, Hb, Hio, <- app_assoc. auto.
Qed.

Lemma ready_resets_backoff c :
  backoffTime (emit_ready c) = None
  /\ reconnectTimeouts (emit_ready c) = reconnectTimeouts c
  /\ connectionAttemptScheduled (emit_ready c) = connectionAttemptScheduled c
  /\ backoffListener (emit_ready c) = backoffListener c
  /\ implOptions (emit_ready c) = implOptions c.
Proof.
  unfold emit_ready, ready_listener, _outboundHeartbeatTimerReset.
  repeat split; fields.
Qed.

(** C5.  With reconnection enabled and no attempt pending, an error arms a
    reconnection timer whose delay is [reconnectBackoffTime] when it is the
    first failure since the last 'ready' (or since the start), and otherwise
    the previous delay doubled and capped at [reconnectExponentialLimit]
    under the exponential strategy, or the previous delay under the linear
    strategy.  'ready' resets the series.  With 1000 ms, exponential and a limit of
    10000 ms, six failures in a row arm timers of 1000, 2000, 4000, 8000,
    10000 and 10000 ms. *)
Theorem C5_reconnect_backoff (es : list JsError) (e : JsError) (c : Connection) :
  reconnect_opt (implOptions c) = true ->
  backoffListener c = true ->
  connectionAttemptScheduled c = false ->
  let io := implOptions c in
  reconnectTimeouts (emit_error e c)
    = reconnectTimeouts c ++ [next_backoff io (backoffTime c)]
  /\ backoffTime (emit_error e c) = Some (next_backoff io (backoffTime c))
  /\ next_backoff io None = reconnectBackoffTime io
  /\ (forall t, reconnectBackoffStrategy io = "exponential"%string ->
        next_backoff io (Some t) = Z.min (t * 2) (reconnectExponentialLimit io))
  /\ (forall t, reconnectBackoffStrategy io = "linear"%string ->
        next_backoff io (Some t) = t)
  /\ reconnectTimeouts (failures es c)
     = reconnectTimeouts c ++ backoff_series io (backoffTime c) (length es)
  /\ backoffTime (emit_ready (failures es c)) = None
  /\ reconnectTimeouts (failure e (emit_ready (failures es c)))
     = reconnectTimeouts c ++ backoff_series io (backoffTime c) (length es)
       ++ [reconnectBackoffTime io]
  /\ (reconnectBackoffTime io = 1000 ->
      reconnectBackoffStrategy io = "exponential"%string ->
      reconnectExponentialLimit io = 10000 ->
      backoffTime c = None ->
      length es = 6%nat ->
      reconnectTimeouts (failures es c)
      = reconnectTimeouts c ++ [1000; 2000; 4000; 8000; 10000; 10000]).
Proof.
  intros Hre Hl Hsched io.
  destruct (failure_step e c Hre Hl Hsched) as ((Ht & Hb) & _).
  destruct (failures_series es c Hre Hl Hsched) as (Hser & Hs & Hl' & Hio).
  destruct (ready_resets_backoff (failures es c)) as (Hr & Hrt & Hrs & Hrl & Hrio).
  split; [exact Ht|]. split; [exact Hb|]. split; [reflexivity|].
  split; [intros t Hx; cbn; subst io; now rewrite Hx|].
  split; [intros t Hx; cbn; subst io; now rewrite Hx|].
  split; [exact Hser|]. split; [exact Hr|].
  split.
  { destruct (failure_step e (emit_ready (failures es c))) as (_ & Hf & _).
    - now rewrite Hrio, Hio.
    - now rewrite Hrl.
    - now rewrite Hrs.
    - rewrite Hf, Hrt, Hser, Hr, Hrio, Hio, <- app_assoc. reflexivity. }
  intros H1000 Hexp H10000 Hnone H6.
  rewrite Hser, Hnone, H6. unfold backoff_series, next_backoff. subst io.
  rewrite H1000, Hexp, H10000. reflexivity.
Qed.

(** C5 at a connection configured with 1000 ms, exponential and a limit of
    10000 ms: seven errors, each followed by its reconnection attempt. *)
Lemma C5_reconnect_backoff_witness :
  reconnect_opt (implOptions exponentialConnection) = true
  /\ backoffListener exponentialConnection = true
  /\ connectionAttemptScheduled exponentialConnection = false
  /\ reconnectTimeouts
       (failures (repeat (Error "read ECONNRESET") 6) exponentialConnection)
     = [1000; 2000; 4000; 8000; 10000; 10000].
Proof.
  split; [reflexivity|]. split; [reflexivity|]. split; [reflexivity|].
  apply (C5_reconnect_backoff (repeat (Error "read ECONNRESET") 6)
           (Error "read ECONNRESET") exponentialConnection
           eq_refl eq_refl eq_refl); reflexivity.
Defined.

(** ** Channel ids *)

Section ChannelIds.

Variable m : Z.
Hypothesis m_pos : 1 <= m.

Lemma next_id_range x : 0 <= x -> 1 <= x mod m + 1 <= m.
Proof. intros Hx. pose proof (Z.mod_pos_bound x m ltac:(lia)). lia. Qed.

Lemma next_id_shift x n : (x mod m + 1 + n) mod m = (x + (1 + n)) mod m.
Proof.
  replace (x mod m + 1 + n) with (x mod m + (1 + n)) by lia.
  apply Zplus_mod_idemp_l.
Qed.

Lemma congruent_ids a b :
  1 <= a <= m -> 1 <= b <= m -> a mod m = b mod m -> a = b.
Proof.
  intros Ha Hb Hab.
  destruct (Z.eq_dec a m) as [->|Hna], (Z.eq_dec b m) as [->|Hnb];
    try reflexivity.
  - rewrite Z_mod_same_full, Z.mod_small in Hab by lia. lia.
  - rewrite Z_mod_same_full, Z.mod_small in Hab by lia. lia.
  - rewrite !Z.mod_small in Hab by lia. exact Hab.
Qed.

(** The loop stops at the first id of the scan that has no entry,
    provided that no earlier id of the scan is the starting counter. *)
Lemma loop_return (chs : gmap Z Channel) (k : Z) : forall (n fuel : nat) x,
  0 <= x -> (n < fuel)%nat ->
  chs !! ((x + Z.of_nat n) mod m + 1) = None ->
  (forall i, 0 <= i < Z.of_nat n ->
     chs !! ((x + i) mod m + 1) <> None /\ (x + i) mod m + 1 <> k) ->
  generateChannelId_loop fuel m chs k x = Return ((x + Z.of_nat n) mod m + 1).
Proof.
  induction n as [|n IH]; intros fuel x Hx Hfuel Hfree Hbusy;
    (destruct fuel as [|fuel]; [lia|]); cbn [generateChannelId_loop];
    rewrite Z.rem_mod_nonneg by lia.
  - replace (x + Z.of_nat 0) with x in * by lia. now rewrite Hfree.
  - destruct (Hbusy 0 ltac:(lia)) as [Hocc Hk].
    replace (x + 0) with x in * by lia.
    destruct (chs !! (x mod m + 1)) as [ch|]; [|congruence].
    destruct (Z.eqb_spec (x mod m + 1) k) as [Heq|_]; [contradiction|].
    rewrite (IH fuel (x mod m + 1)).
    + now rewrite next_id_shift, Nat2Z.inj_succ, <- Z.add_1_l.
    + pose proof (next_id_range x Hx). lia.
    + lia.
    + rewrite next_id_shift. rewrite Nat2Z.inj_succ, <- Z.add_1_l in Hfree.
      exact Hfree.
    + intros i Hi. rewrite next_id_shift. apply Hbusy. lia.
Qed.

(** With every id taken, the loop throws when the scan comes back to the
    starting counter. *)
Lemma loop_throw (chs : gmap Z Channel) (k : Z) :
  1 <= k <= m ->
  (forall id, 1 <= id <= m -> chs !! id <> None) ->
  forall (n fuel : nat) x,
    0 <= x -> (1 <= n <= fuel)%nat ->
    (x + Z.of_nat n) mod m = k mod m ->
    generateChannelId_loop fuel m chs k x = Throw NoChannelIds.
Proof.
  intros Hk Hfull. induction n as [|n IH]; intros fuel x Hx Hn Hcycle; [lia|].
  destruct fuel as [|fuel]; [lia|]. cbn [generateChannelId_loop].
  rewrite Z.rem_mod_nonneg by lia.
  pose proof (next_id_range x Hx) as Hrange.
  specialize (Hfull _ Hrange).
  destruct (chs !! (x mod m + 1)) as [ch|]; [|congruence].
  destruct (Z.eqb_spec (x mod m + 1) k) as [_|Hne]; [reflexivity|].
  destruct n as [|n].
  - exfalso. apply Hne. apply congruent_ids; [exact Hrange | exact Hk |].
    rewrite <- Hcycle. replace (x mod m + 1) with (x mod m + 1 + 0) by lia.
    rewrite next_id_shift. f_equal; lia.
  - apply IH; [lia | lia |].
    rewrite next_id_shift, <- Hcycle. f_equal; lia.
Qed.

(** With every id taken and a counter that is not one of them (0, or a
    counter above a limit that was lowered), the scan never meets the
    counter: no amount of fuel is enough. *)
Lemma loop_diverges (chs : gmap Z Channel) (k : Z) :
  ~ (1 <= k <= m) ->
  (forall id, 1 <= id <= m -> chs !! id <> None) ->
  forall (fuel : nat) x,
    0 <= x -> generateChannelId_loop fuel m chs k x = OutOfFuel.
Proof.
  intros Hk Hfull. induction fuel as [|fuel IH]; intros x Hx; [reflexivity|].
  cbn [generateChannelId_loop]. rewrite Z.rem_mod_nonneg by lia.
  pose proof (next_id_range x Hx) as Hrange.
  specialize (Hfull _ Hrange).
  destruct (chs !! (x mod m + 1)) as [ch|]; [|congruence].
  destruct (Z.eqb_spec (x mod m + 1) k) as [Heq|_]; [lia|].
  apply IH. lia.
Qed.

(** An id that the loop returns is in range and has no entry. *)
Lemma loop_returns_free (chs : gmap Z Channel) (k : Z) : forall (fuel : nat) x id,
  0 <= x ->
  generateChannelId_loop fuel m chs k x = Return id ->
  1 <= id <= m /\ chs !! id = None.
Proof.
  induction fuel as [|fuel IH]; intros x id Hx Hret; [discriminate|].
  cbn [generateChannelId_loop] in Hret.
  rewrite Z.rem_mod_nonneg in Hret by lia.
  pose proof (next_id_range x Hx) as Hrange.
  destruct (chs !! (x mod m + 1)) as [ch|] eqn:Hlook.
  - destruct (Z.eqb_spec (x mod m + 1) k); [discriminate|].
    apply (IH (x mod m + 1)); [lia | exact Hret].
  - injection Hret as <-. auto.
Qed.

(** Before the scan comes back to a counter in range, it does not meet
    it; a counter out of range is never met. *)
Lemma scan_avoids_counter k i :
  0 <= k -> 0 <= i < m - 1 -> (k + i) mod m + 1 <> k.
Proof.
  intros Hk Hi Heq.
  pose proof (next_id_range (k + i) ltac:(lia)) as Hrange.
  assert (Hmod : (k + i) mod m = (k - 1) mod m).
  { rewrite (Z.mod_small (k - 1)) by lia. lia. }
  assert (Hdiff : (i + 1) mod m = 0).
  { replace (i + 1) with ((k + i) - (k - 1)) by lia.
    rewrite Zminus_mod, Hmod, Z.sub_diag. apply Z.mod_0_l. lia. }
  rewrite Z.mod_small in Hdiff by lia. lia.
Qed.

End ChannelIds.

Lemma generateChannelId_first_free fuel g c (chs : gmap Z Channel) n :
  channels c = Some chs ->
  1 <= channelMax g ->
  0 <= channelCounter c ->
  (Z.to_nat (channelMax g) <= fuel)%nat ->
  0 <= n < channelMax g ->
  chs !! ((channelCounter c + n) mod channelMax g + 1) = None ->
  (forall i, 0 <= i < n ->
     chs !! ((channelCounter c + i) mod channelMax g + 1) <> None) ->
  generateChannelId fuel g c
  = Return ((channelCounter c + n) mod channelMax g + 1,
            set_channelCounter ((channelCounter c + n) mod channelMax g + 1) c).
Proof.
  intros Hchs Hm Hk Hfuel Hn Hfree Hbusy. unfold generateChannelId.
  rewrite Hchs.
  rewrite (loop_return (channelMax g) Hm chs (channelCounter c) (Z.to_nat n));
    rewrite ?Z2Nat.id by lia; try (reflexivity || lia || assumption).
  intros i Hi. split; [apply Hbusy; lia|].
  apply scan_avoids_counter; lia.
Qed.

Lemma generateChannelId_exhausted fuel g c (chs : gmap Z Channel) :
  channels c = Some chs ->
  (Z.to_nat (channelMax g) <= fuel)%nat ->
  1 <= channelCounter c <= channelMax g ->
  (forall id, 1 <= id <= channelMax g -> chs !! id <> None) ->
  generateChannelId fuel g c = Throw NoChannelIds.
Proof.
  intros Hchs Hfuel Hk Hfull. unfold generateChannelId. rewrite Hchs.
  rewrite (loop_throw (channelMax g) ltac:(lia) chs (channelCounter c) Hk Hfull
             (Z.to_nat (channelMax g)) fuel (channelCounter c));
    [reflexivity | lia | lia |].
  rewrite Z2Nat.id by lia.
  rewrite <- (Z_mod_plus_full (channelCounter c) 1 (channelMax g)).
  f_equal; lia.
Qed.

Lemma generateChannelId_returns fuel g c id c' :
  1 <= channelMax g ->
  0 <= channelCounter c ->
  generateChannelId fuel g c = Return (id, c') ->
  exists chs : gmap Z Channel,
    channels c = Some chs /\ chs !! id = None /\ 1 <= id <= channelMax g
    /\ c' = set_channelCounter id c.
Proof.
  intros Hm Hk. unfold generateChannelId.
  destruct (channels c) as [chs|]; [|discriminate].
  destruct (generateChannelId_loop _ _ _ _ _) as [x| |] eqn:Hloop; try discriminate.
  intros [= <- <-].
  destruct (loop_returns_free (channelMax g) Hm chs _ _ _ _ Hk Hloop).
  exists chs. auto.
Qed.

Lemma lookup_close_channels (chs : gmap Z Channel) id :
  close_channels_but_0 chs !! id = None <-> chs !! id = None.
Proof.
  unfold close_channels_but_0. rewrite map_lookup_imap.
  destruct (chs !! id); cbn; [split; discriminate | tauto].
Qed.

(** An error on the connection moves no channel and leaves the counter. *)
Lemma channels_emit_error e c (chs : gmap Z Channel) :
  channels c = Some chs ->
  channelCounter (emit_error e c) = channelCounter c
  /\ exists chs' : gmap Z Channel,
       channels (emit_error e c) = Some chs'
       /\ forall id, chs' !! id = None <-> chs !! id = None.
Proof.
  intros Hchs. unfold emit_error, backoff, emit.
  cbn [backoffListener connectionAttemptScheduled set_emitted
       set_inboundHeartbeatTimer set_outboundHeartbeatTimer].
  destruct (backoffListener c); [|split; [reflexivity | exists chs; tauto]].
  destruct (connectionAttemptScheduled c);
    [split; [reflexivity | exists chs; tauto]|].
  cbn [negb].
  destruct (reconnect_opt _);
    cbn [channelCounter channels set_backoffTime set_reconnectTimeouts
         set_backoffListener set_queues set_channels set_parser set_socket
         set_connectionAttemptScheduled set_emitted set_inboundHeartbeatTimer
         set_outboundHeartbeatTimer];
    rewrite Hchs; (split; [reflexivity|]);
    exists (close_channels_but_0 chs); (split; [reflexivity|]);
    apply lookup_close_channels.
Qed.

Section Allocation.

Variables (fuel : nat) (g : Globals).
Hypothesis max_pos : 1 <= channelMax g.

(** Ids returned in a row are distinct, in range and were free. *)
Lemma allocate_distinct : forall n c (chs : gmap Z Channel),
  channels c = Some chs ->
  0 <= channelCounter c ->
  NoDup (allocate n fuel g c).1
  /\ Forall (fun id => 1 <= id <= channelMax g /\ chs !! id = None)
            (allocate n fuel g c).1.
Proof.
  induction n as [|n IH]; intros c chs Hchs Hk; [split; constructor|].
  cbn [allocate]. unfold exchange, open_channel.
  destruct (generateChannelId fuel g c) as [[id c1]|e|] eqn:Hgen.
  - destruct (generateChannelId_returns _ _ _ _ _ max_pos Hk Hgen)
      as (chs0 & Hchs0 & Hfree & Hrange & ->).
    assert (chs0 = chs) as -> by congruence.
    set (c2 := set_channels _ _).
    destruct (IH c2 (<[id := Handler ExchangeHandler "" "opening"]> chs))
      as [Hnodup Hall].
    { subst c2. cbn [channels set_channels set_channelCounter]. now rewrite Hchs. }
    { subst c2. cbn. lia. }
    destruct (allocate n fuel g c2) as [ids c3]. cbn [fst] in *.
    split.
    + constructor; [|exact Hnodup]. intros Hin.
      rewrite Forall_forall in Hall. destruct (Hall _ Hin) as [_ Hnone].
      now rewrite lookup_insert_eq in Hnone.
    + constructor; [auto|]. eapply Forall_impl; [exact Hall|].
      cbn beta. intros x [Hx Hnone]. split; [exact Hx|].
      destruct (Z.eq_dec id x) as [->|Hne];
        [now rewrite lookup_insert_eq in Hnone|].
      now rewrite lookup_insert_ne in Hnone.
  - destruct (channels_emit_error e c chs Hchs) as (Hk' & chs' & Hchs' & Hsame).
    destruct (IH (emit_error e c) chs' Hchs' ltac:(lia)) as [Hnodup Hall].
    split; [exact Hnodup|]. eapply Forall_impl; [exact Hall|].
    cbn beta. intros x [Hx Hnone]. split; [exact Hx | now apply Hsame].
  - split; constructor.
Qed.

(** From a counter [j] above which every id is free, [n] allocations
    return [j + 1], ..., [j + n] and fill exactly these slots. *)
Lemma allocate_fresh : forall n c (chs : gmap Z Channel) j,
  channels c = Some chs ->
  channelCounter c = j -> 0 <= j ->
  j + Z.of_nat n <= channelMax g ->
  (Z.to_nat (channelMax g) <= fuel)%nat ->
  (forall id, j < id <= channelMax g -> chs !! id = None) ->
  (allocate n fuel g c).1 = map (fun i => j + Z.of_nat i) (seq 1 n)
  /\ channelCounter (allocate n fuel g c).2 = j + Z.of_nat n
  /\ exists chs' : gmap Z Channel,
       channels (allocate n fuel g c).2 = Some chs'
       /\ forall id,
            chs' !! id
            = if (j <? id) && (id <=? j + Z.of_nat n)
              then Some (Handler ExchangeHandler "" "opening")
              else chs !! id.
Proof.
  induction n as [|n IH]; intros c chs j Hchs Hk Hj Hn Hfuel Hfree.
  - cbn [allocate fst snd seq map]. split; [reflexivity|].
    split; [lia|]. exists chs. split; [exact Hchs|].
    intros id. destruct (Z.ltb_spec j id), (Z.leb_spec id (j + Z.of_nat 0));
      try reflexivity; lia.
  - cbn [allocate]. unfold exchange, open_channel.
    assert (Hnext : (channelCounter c + 0) mod channelMax g + 1 = j + 1).
    { rewrite Z.add_0_r, Z.mod_small; lia. }
    rewrite (generateChannelId_first_free fuel g c chs 0 Hchs max_pos
               ltac:(lia) Hfuel ltac:(lia));
      [| rewrite Hnext; apply Hfree; lia | intros i Hi; lia].
    rewrite Hnext.
    set (c2 := set_channels _ _).
    destruct (IH c2 (<[j + 1 := Handler ExchangeHandler "" "opening"]> chs) (j + 1))
      as (Hids & Hcounter & chs' & Hchs' & Hlook).
    { subst c2. cbn [channels set_channels set_channelCounter]. now rewrite Hchs. }
    { reflexivity. }
    { lia. }
    { lia. }
    { exact Hfuel. }
    { intros id Hid. rewrite lookup_insert_ne by lia. apply Hfree. lia. }
    destruct (allocate n fuel g c2) as [ids c3]. cbn [fst snd] in *.
    split; [|split; [lia|]].
    + rewrite Hids. cbn [seq map].
      replace (j + Z.of_nat 1) with (j + 1) by lia. f_equal.
      rewrite <- (seq_shift n 1), map_map. apply map_ext. intros i. lia.
    + exists chs'. split; [exact Hchs'|]. intros id. rewrite Hlook.
      destruct (Z.eq_dec id (j + 1)) as [->|Hne].
      * rewrite lookup_insert_eq.
        destruct (Z.ltb_spec (j + 1) (j + 1)), (Z.leb_spec (j + 1) (j + 1 + Z.of_nat n)),
          (Z.ltb_spec j (j + 1)), (Z.leb_spec (j + 1) (j + Z.of_nat (S n)));
          try reflexivity; lia.
      * rewrite lookup_insert_ne by lia.
        destruct (Z.ltb_spec (j + 1) id), (Z.leb_spec id (j + 1 + Z.of_nat n)),
          (Z.ltb_spec j id), (Z.leb_spec id (j + Z.of_nat (S n)));
          try reflexivity; lia.
Qed.

End Allocation.

(** C4.  [generateChannelId] visits the ids (counter + n) mod channelMax + 1
    for n = 0, 1, ..., all of them in 1..channelMax, returns the first one
    that has no entry in [channels] and stores it in [channelCounter]; when
    every id of 1..channelMax has an entry and the counter is one of them,
    it throws "No valid Channel Id values available".  Ids allocated in a
    row without a release are distinct and in 1..channelMax, and on a
    connection without channels the first channelMax allocations return
    1, 2, ... in turn.  With channelMax = 3, after three allocations a
    fourth fails, and once channel 2 is released the next one returns 2. *)
Theorem C4_channel_id_allocation (fuel : nat) (g : Globals) (c : Connection)
    (chs : gmap Z Channel) :
  channels c = Some chs ->
  1 <= channelMax g ->
  0 <= channelCounter c ->
  (Z.to_nat (channelMax g) <= fuel)%nat ->
  let m := channelMax g in
  let k := channelCounter c in
  (forall n, 0 <= n < m ->
     chs !! ((k + n) mod m + 1) = None ->
     (forall i, 0 <= i < n -> chs !! ((k + i) mod m + 1) <> None) ->
     generateChannelId fuel g c
     = Return ((k + n) mod m + 1, set_channelCounter ((k + n) mod m + 1) c))
  /\ (forall n, 0 <= n -> 1 <= (k + n) mod m + 1 <= m)
  /\ (1 <= k <= m ->
      (forall id, 1 <= id <= m -> chs !! id <> None) ->
      generateChannelId fuel g c = Throw NoChannelIds)
  /\ (forall n,
        NoDup (allocate n fuel g c).1
        /\ Forall (fun id => 1 <= id <= m) (allocate n fuel g c).1)
  /\ (k = 0 -> (forall id, 1 <= id <= m -> chs !! id = None) ->
      forall n, Z.of_nat n <= m ->
        (allocate n fuel g c).1 = map Z.of_nat (seq 1 n))
  /\ (m = 3 -> k = 0 -> (forall id, 1 <= id <= 3 -> chs !! id = None) ->
      let c3 := (allocate 3 fuel g c).2 in
      (allocate 3 fuel g c).1 = [1; 2; 3]
      /\ generateChannelId fuel g c3 = Throw NoChannelIds
      /\ generateChannelId fuel g (release_channel 2 c3)
         = Return (2, set_channelCounter 2 (release_channel 2 c3))).
Proof.
  intros Hchs Hm Hk Hfuel m k. subst m k.
  split; [intros n; now apply generateChannelId_first_free|].
  split; [intros n Hn; apply next_id_range; lia|].
  split; [intros Hrange Hfull; now apply generateChannelId_exhausted with chs|].
  split.
  { intros n. destruct (allocate_distinct fuel g Hm n c chs Hchs Hk) as [Hnd Hall].
    split; [exact Hnd|]. eapply Forall_impl; [exact Hall|]. cbn beta. tauto. }
  split.
  { intros Hk0 Hfree n Hn.
    destruct (allocate_fresh fuel g Hm n c chs 0 Hchs Hk0 ltac:(lia) ltac:(lia)
                Hfuel ltac:(intros; apply Hfree; lia)) as [Hids _].
    rewrite Hids. apply map_ext. intros i. lia. }
  intros H3 Hk0 Hfree. cbn zeta.
  destruct (allocate_fresh fuel g Hm 3 c chs 0 Hchs Hk0 ltac:(lia) ltac:(lia)
              Hfuel ltac:(intros; apply Hfree; lia))
    as (Hids & Hcounter & chs3 & Hchs3 & Hlook).
  split; [rewrite Hids; reflexivity|].
  assert (Hfull : forall id, 1 <= id <= 3 -> chs3 !! id <> None).
  { intros id Hid. rewrite Hlook.
    destruct (Z.ltb_spec 0 id), (Z.leb_spec id (0 + Z.of_nat 3)); cbn; try lia.
    discriminate. }
  split.
  - apply generateChannelId_exhausted with chs3;
      [exact Hchs3 | exact Hfuel | lia | rewrite H3; exact Hfull].
  - set (c3 := (allocate 3 fuel g c).2) in *.
    assert (Hrel : channels (release_channel 2 c3) = Some (delete 2 chs3)).
    { unfold release_channel. cbn [channels set_channels]. now rewrite Hchs3. }
    assert (Hcnt : channelCounter (release_channel 2 c3) = 3).
    { unfold release_channel. cbn [channelCounter set_channels]. lia. }
    pose proof (generateChannelId_first_free fuel g (release_channel 2 c3)
                  (delete 2 chs3) 1 Hrel Hm ltac:(lia) Hfuel ltac:(lia)) as Hgen.
    rewrite Hcnt, H3 in Hgen. change ((3 + 1) mod 3 + 1) with 2 in Hgen.
    apply Hgen.
    + apply lookup_delete_eq.
    + intros i Hi. assert (i = 0) as -> by lia.
      change ((3 + 0) mod 3 + 1) with 1.
      rewrite lookup_delete_ne by lia. apply Hfull. lia.
Qed.

(** C4 at the example connection with a channel limit of 3. *)
Lemma C4_channel_id_allocation_witness :
  channels connectedConnection = Some {[ 0 := Self ]}
  /\ 1 <= channelMax threeChannels
  /\ 0 <= channelCounter connectedConnection
  /\ (let c3 := (allocate 3 3 threeChannels connectedConnection).2 in
      (allocate 3 3 threeChannels connectedConnection).1 = [1; 2; 3]
      /\ generateChannelId 3 threeChannels c3 = Throw NoChannelIds
      /\ generateChannelId 3 threeChannels (release_channel 2 c3)
         = Return (2, set_channelCounter 2 (release_channel 2 c3))).
Proof.
  assert (Hchs : channels connectedConnection = Some {[ 0 := Self ]})
    by reflexivity.
  assert (Hm : 1 <= channelMax threeChannels) by (cbn; lia).
  assert (Hk : 0 <= channelCounter connectedConnection) by (cbn; lia).
  split; [exact Hchs|]. split; [exact Hm|]. split; [exact Hk|].
  apply (C4_channel_id_allocation 3 threeChannels connectedConnection
           {[ 0 := Self ]} Hchs Hm Hk (le_n _)); [reflexivity.. |].
  intros id Hid. apply lookup_singleton_ne. lia.
Defined.

(** ** Module variables *)

Section Tune.

Context `{P : Platform}.

Lemma sendMethod_parser channel m args c :
  parser (_sendMethod channel m args c) = parser c.
Proof. unfold _sendMethod, _outboundHeartbeatTimerReset. fields. Qed.

(** The module variables after Connection.Tune. *)
Lemma onMethod_tune_globals g args c :
  let g' := (_onMethod g 0 (ConnectionTune args) c).1.1 in
  maxFrameBuffer g' = (if frameMax args =? 0 then maxFrameBuffer g else frameMax args)
  /\ (frameMax args = 0 \/ parser c <> None ->
      channelMax g' = (if channelMax_arg args =? 0 then channelMax g
                       else channelMax_arg args)).
Proof.
  cbn zeta. cbn [_onMethod Z.gtb Z.compare].
  destruct (Z.eqb_spec (frameMax args) 0) as [Hf|Hf]; cbn [negb].
  - split; [destruct (channelMax_arg args =? 0); reflexivity|].
    intros _. destruct (channelMax_arg args =? 0); reflexivity.
  - cbn [parser set_sendBuffer maxFrameBuffer].
    destruct (parser c) as [p|]; cbn [fst snd maxFrameBuffer].
    + split; [destruct (channelMax_arg args =? 0); reflexivity|].
      intros _. destruct (channelMax_arg args =? 0); reflexivity.
    + split; [reflexivity|]. intros [H|H]; congruence.
Qed.

End Tune.

Lemma chunks_nonempty (n : nat) (l : Buffer) :
  l <> [] -> chunks n l = take n l :: chunks_fuel (length l - 1) n (drop n l).
Proof.
  intros Hl. unfold chunks. destruct l as [|x l]; [contradiction|].
  replace (length (x :: l) - 1)%nat with (length l) by (cbn [length]; lia).
  reflexivity.
Qed.

(** Two different limits cut a buffer longer than the smaller one
    differently. *)
Lemma bodyFrames_differ channel (n1 n2 : nat) (l : Buffer) :
  (0 < n1 < n2)%nat -> (n1 < length l)%nat ->
  map (fun p => bodyFrame channel (Z.of_nat (length p)) p) (chunks n1 l)
  <> map (fun p => bodyFrame channel (Z.of_nat (length p)) p) (chunks n2 l).
Proof.
  intros Hn Hl Heq.
  assert (Hne : l <> []) by (intros ->; cbn in Hl; lia).
  rewrite !chunks_nonempty in Heq by exact Hne. cbn [map] in Heq.
  apply (f_equal (fun fs => Z.of_nat (length (hd [] fs)))) in Heq.
  cbn [hd] in Heq.
  rewrite !length_bodyFrame, !length_take in Heq. lia.
Qed.

Lemma deliver_tune `{P : Platform} (p : Process) (j : nat) (cj : Connection)
    (method : InboundMethod) :
  connections p !! j = Some cj ->
  globals (deliver j method p) = (_onMethod (globals p) 0 method cj).1.1
  /\ connections (deliver j method p)
     = <[j := (_onMethod (globals p) 0 method cj).1.2]> (connections p).
Proof.
  intros Hj. unfold deliver. rewrite Hj.
  destruct (_onMethod (globals p) 0 method cj) as [[g c] e]. split; reflexivity.
Qed.




(** * Further properties of lib/connection.js *)

(** ** What a step is made of *)

Lemma outboundReset_eq c :
  _outboundHeartbeatTimerReset c
  = set_outboundHeartbeatTimer
      (if writable (socket c) && negb (heartbeat (options c) =? 0)
       then Some (mkTimer OutboundHeartbeat (1000 * heartbeat (options c)))
       else None) c.
Proof.
  unfold _outboundHeartbeatTimerReset. cbn [socket options set_outboundHeartbeatTimer].
  destruct (writable (socket c) && negb (heartbeat (options c) =? 0)); reflexivity.
Qed.

Lemma inboundReset_eq c :
  _inboundHeartbeatTimerReset c
  = set_inboundHeartbeatTimer
      (if negb (heartbeat (options c) =? 0)
       then Some (mkTimer (InboundHeartbeatCheck (2 * heartbeat (options c)))
                          (2 * heartbeat (options c) * 1000))
       else None) c.
Proof.
  unfold _inboundHeartbeatTimerReset. cbn [options set_inboundHeartbeatTimer].
  destruct (negb (heartbeat (options c) =? 0)); reflexivity.
Qed.

Lemma sendMethod_eq `{P : Platform} channel m args c :
  _sendMethod channel m args c
  = set_outboundHeartbeatTimer
      (if writable (socket c) && negb (heartbeat (options c) =? 0)
       then Some (mkTimer OutboundHeartbeat (1000 * heartbeat (options c)))
       else None)
      (write (methodFrame channel m args) c).
Proof. unfold _sendMethod. rewrite outboundReset_eq. reflexivity. Qed.

(** The error listener while an attempt is pending, and otherwise. *)
Lemma backoff_pending c :
  connectionAttemptScheduled c = true ->
  backoff c = set_outboundHeartbeatTimer None (set_inboundHeartbeatTimer None c).
Proof.
  intros H. unfold backoff.
  cbn [connectionAttemptScheduled set_outboundHeartbeatTimer set_inboundHeartbeatTimer].
  now rewrite H.
Qed.

Lemma backoff_teardown c :
  connectionAttemptScheduled c = false ->
  let c1 :=
    set_queues (close_consumers <$> queues c)
      (set_channels (close_channels_but_0 <$> channels c)
         (set_parser None
            (set_socket (socket_end (socket c))
               (set_connectionAttemptScheduled true
                  (set_outboundHeartbeatTimer None
                     (set_inboundHeartbeatTimer None c)))))) in
  backoff c
  = if reconnect_opt (implOptions c)
    then set_reconnectTimeouts
           (reconnectTimeouts c ++ [next_backoff (implOptions c) (backoffTime c)])
           (set_backoffTime (Some (next_backoff (implOptions c) (backoffTime c))) c1)
    else set_backoffListener false c1.
Proof.
  intros H. cbn zeta. unfold backoff, next_backoff.
  cbn [connectionAttemptScheduled implOptions backoffTime reconnectTimeouts
       socket channels queues
       set_inboundHeartbeatTimer set_outboundHeartbeatTimer
       set_connectionAttemptScheduled set_socket set_parser set_channels
       set_queues].
  rewrite H. cbn [negb].
  destruct (reconnect_opt (implOptions c)); [|reflexivity].
  destruct (backoffTime c) as [t|]; [|reflexivity].
  destruct (String.eqb _ "exponential").
  - destruct (Z.gtb_spec (t * 2) (reconnectExponentialLimit (implOptions c)));
      [rewrite Z.min_r by lia | rewrite Z.min_l by lia]; reflexivity.
  - destruct (String.eqb _ "linear"); reflexivity.
Qed.

Lemma lookup_close_channels_but_0 (chs : gmap Z Channel) id :
  close_channels_but_0 chs !! id
  = (if id =? 0 then chs !! id else channel_set_state "closed" <$> chs !! id).
Proof.
  unfold close_channels_but_0. rewrite map_lookup_imap.
  destruct (chs !! id), (id =? 0); reflexivity.
Qed.

(** ** Errors and the reconnection supervisor *)

(** X1.  Errors raised while a reconnection attempt is pending and the
    error listener is attached arm no further timer and leave the backoff,
    the socket, the parser, the channels and the queues as they are; each is
    logged and cancels both heartbeat timers, and the listener stays
    attached. *)
Theorem errors_while_attempt_pending (es : list JsError) (c : Connection) :
  backoffListener c = true ->
  connectionAttemptScheduled c = true ->
  reconnectTimeouts (errors es c) = reconnectTimeouts c
  /\ backoffTime (errors es c) = backoffTime c
  /\ connectionAttemptScheduled (errors es c) = true
  /\ backoffListener (errors es c) = true
  /\ socket (errors es c) = socket c
  /\ parser (errors es c) = parser c
  /\ channels (errors es c) = channels c
  /\ queues (errors es c) = queues c
  /\ emitted (errors es c) = emitted c ++ map EvError es
  /\ (es <> [] ->
      _inboundHeartbeatTimer (errors es c) = None
      /\ _outboundHeartbeatTimer (errors es c) = None).
Proof.
  revert c. induction es as [|e es IH]; intros c Hl Hp.
  - cbn. rewrite app_nil_r. repeat split; auto; congruence.
  - cbn [errors fold_left map]. fold (errors es (emit_error e c)).
    assert (Hstep : emit_error e c
                    = set_outboundHeartbeatTimer None
                        (set_inboundHeartbeatTimer None (emit (EvError e) c))).
    { rewrite (emit_error_attached e c Hl). apply backoff_pending. exact Hp. }
    destruct (IH (emit_error e c))
      as (H1 & H2 & H3 & H4 & H5 & H6 & H7 & H8 & H9 & H10).
    { rewrite Hstep. exact Hl. }
    { rewrite Hstep. exact Hp. }
    assert (Htimers : _inboundHeartbeatTimer (errors es (emit_error e c)) = None
                      /\ _outboundHeartbeatTimer (errors es (emit_error e c)) = None).
    { destruct es as [|e' es]; [|apply H10; discriminate].
      cbn [errors fold_left]. rewrite Hstep. split; reflexivity. }
    rewrite H1, H2, H3, H4, H5, H6, H7, H8, H9, Hstep.
    cbn [emit set_emitted emitted reconnectTimeouts backoffTime socket parser
         channels queues set_outboundHeartbeatTimer set_inboundHeartbeatTimer].
    rewrite <- app_assoc. repeat (split; [reflexivity|]).
    intros _. rewrite <- Hstep. exact Htimers.
Qed.

Lemma errors_while_attempt_pending_witness :
  let c := emit_error (Error "read ECONNRESET") exponentialConnection in
  backoffListener c = true
  /\ connectionAttemptScheduled c = true
  /\ reconnectTimeouts (errors [Error "write EPIPE"; Error "socket hang up"] c)
     = reconnectTimeouts c.
Proof.
  cbn zeta.
  assert (Hl : backoffListener
                 (emit_error (Error "read ECONNRESET") exponentialConnection) = true)
    by (vm_compute; reflexivity).
  assert (Hp : connectionAttemptScheduled
                 (emit_error (Error "read ECONNRESET") exponentialConnection) = true)
    by (vm_compute; reflexivity).
  split; [exact Hl|]. split; [exact Hp|].
  exact (proj1 (errors_while_attempt_pending
                  [Error "write EPIPE"; Error "socket hang up"] _ Hl Hp)).
Defined.

(** X2.  The first error while no attempt is pending tears the connection
    down: the socket is ended and nothing more is written, the parser is
    dropped, both heartbeat timers are cancelled, every channel but 0 and
    every consumer is marked closed, and no channel id is given up. *)
Theorem error_tears_down (e : JsError) (c : Connection) :
  backoffListener c = true ->
  connectionAttemptScheduled c = false ->
  let c' := emit_error e c in
  ended (socket c') = true
  /\ writable (socket c') = false
  /\ written (socket c') = written (socket c)
  /\ parser c' = None
  /\ _inboundHeartbeatTimer c' = None
  /\ _outboundHeartbeatTimer c' = None
  /\ connectionAttemptScheduled c' = true
  /\ channelCounter c' = channelCounter c
  /\ channels c' = (close_channels_but_0 <$> channels c)
  /\ (forall chs : gmap Z Channel, channels c = Some chs ->
      exists chs' : gmap Z Channel,
        channels c' = Some chs'
        /\ chs' !! 0 = chs !! 0
        /\ forall id, id <> 0 ->
             chs' !! id = channel_set_state "closed" <$> chs !! id)
  /\ (forall name (q : gmap string string) tag (st : string),
        queues c !! name = Some q -> q !! tag = Some st ->
        exists q' : gmap string string,
          queues c' !! name = Some q' /\ q' !! tag = Some "closed"%string).
Proof.
  intros Hl Hs. cbn zeta. rewrite (emit_error_attached e c Hl).
  rewrite (backoff_teardown (emit (EvError e) c) Hs). cbn zeta.
  assert (Hch : forall chs : gmap Z Channel, channels c = Some chs ->
    exists chs' : gmap Z Channel,
      (close_channels_but_0 <$> channels c) = Some chs'
      /\ chs' !! 0 = chs !! 0
      /\ forall id, id <> 0 -> chs' !! id = channel_set_state "closed" <$> chs !! id).
  { intros chs Hc. rewrite Hc. exists (close_channels_but_0 chs).
    split; [reflexivity|]. split; [now rewrite lookup_close_channels_but_0|].
    intros id Hid. rewrite lookup_close_channels_but_0.
    destruct (Z.eqb_spec id 0); [contradiction | reflexivity]. }
  assert (Hq : forall name (q : gmap string string) tag (st : string),
    queues c !! name = Some q -> q !! tag = Some st ->
    exists q' : gmap string string,
      (close_consumers <$> queues c) !! name = Some q'
      /\ q' !! tag = Some "closed"%string).
  { intros name q tag st Hn Ht. exists (close_consumers q).
    rewrite lookup_fmap, Hn. split; [reflexivity|].
    unfold close_consumers. now rewrite lookup_fmap, Ht. }
  destruct (reconnect_opt (implOptions (emit (EvError e) c)));
    cbn [emit set_emitted socket parser channels queues channelCounter
         connectionAttemptScheduled _inboundHeartbeatTimer _outboundHeartbeatTimer
         set_reconnectTimeouts set_backoffTime set_backoffListener set_queues
         set_channels set_parser set_socket set_connectionAttemptScheduled
         set_outboundHeartbeatTimer set_inboundHeartbeatTimer
         socket_end ended writable written];
    repeat (split; [reflexivity|]); (split; [exact Hch | exact Hq]).
Qed.

Lemma error_tears_down_witness :
  let c' := emit_error (Error "read ECONNRESET") heartbeatConnection in
  backoffListener heartbeatConnection = true
  /\ connectionAttemptScheduled heartbeatConnection = false
  /\ ended (socket c') = true /\ parser c' = None
  /\ _inboundHeartbeatTimer c' = None.
Proof.
  cbn zeta.
  assert (H2 : backoffListener heartbeatConnection = true)
    by (vm_compute; reflexivity).
  assert (H3 : connectionAttemptScheduled heartbeatConnection = false)
    by (vm_compute; reflexivity).
  destruct (error_tears_down (Error "read ECONNRESET") heartbeatConnection H2 H3)
    as (H1 & _ & _ & H4 & H5 & _).
  split; [exact H2|]. split; [exact H3|].
  split; [exact H1|]. split; [exact H4 | exact H5].
Defined.

Lemma errors_detached (es : list JsError) : forall c,
  backoffListener c = false ->
  errors es c = set_emitted (emitted c ++ map EvError es) c.
Proof.
  induction es as [|e es IH]; intros c Hl.
  - cbn. rewrite app_nil_r. now destruct c.
  - cbn [errors fold_left map]. fold (errors es (emit_error e c)).
    assert (He : emit_error e c = emit (EvError e) c).
    { unfold emit_error. cbn [backoffListener emit set_emitted]. now rewrite Hl. }
    rewrite He, IH by exact Hl.
    cbn [emit set_emitted emitted]. rewrite <- app_assoc. reflexivity.
Qed.

(** X3.  With reconnection disabled the first error detaches the error
    listener without arming a timer, so no reconnection is attempted.  Of
    the errors that follow, one raised while the application has no
    listener for 'error' is thrown at the code that raises it; with a
    listener of the application they are logged and change nothing else. *)
Theorem no_reconnect_when_disabled (listening : bool) (e e' : JsError)
    (es : list JsError) (c : Connection) :
  reconnect_opt (implOptions c) = false ->
  backoffListener c = true ->
  connectionAttemptScheduled c = false ->
  let c1 := emit_error e c in
  emit_error_from listening e c = Return c1
  /\ backoffListener c1 = false
  /\ reconnectTimeouts c1 = reconnectTimeouts c
  /\ backoffTime c1 = backoffTime c
  /\ ended (socket c1) = true
  /\ emit_error_from false e' c1 = Throw e'
  /\ errors_from false (e' :: es) c1 = Throw e'
  /\ errors_from true es c1
     = Return (set_emitted (emitted c1 ++ map EvError es) c1).
Proof.
  intros Hre Hl Hs. cbn zeta.
  assert (Hl1 : backoffListener (emit_error e c) = false
               /\ reconnectTimeouts (emit_error e c) = reconnectTimeouts c
               /\ backoffTime (emit_error e c) = backoffTime c
               /\ ended (socket (emit_error e c)) = true).
  { rewrite (emit_error_attached e c Hl).
    rewrite (backoff_teardown (emit (EvError e) c) Hs). cbn zeta.
    cbn [implOptions emit set_emitted]. rewrite Hre. repeat split; reflexivity. }
  destruct Hl1 as (H1 & H2 & H3 & H4).
  assert (Hthrow : emit_error_from false e' (emit_error e c) = Throw e').
  { unfold emit_error_from. now rewrite H1. }
  split; [unfold emit_error_from; now rewrite Hl|].
  repeat (split; [assumption|]).
  split; [cbn [errors_from]; now rewrite Hthrow|].
  rewrite <- (errors_detached es _ H1).
  generalize (emit_error e c). clear.
  induction es as [|x es IH]; intros c; [reflexivity|].
  cbn [errors_from errors fold_left]. unfold emit_error_from.
  rewrite orb_true_r. apply IH.
Qed.

Lemma no_reconnect_when_disabled_witness :
  let c1 := emit_error (Error "read ECONNRESET") noReconnectConnection in
  reconnect_opt (implOptions noReconnectConnection) = false
  /\ backoffListener noReconnectConnection = true
  /\ connectionAttemptScheduled noReconnectConnection = false
  /\ backoffListener c1 = false
  /\ reconnectTimeouts c1 = reconnectTimeouts noReconnectConnection
  /\ emit_error_from false (Error "write EPIPE") c1 = Throw (Error "write EPIPE").
Proof.
  cbn zeta.
  assert (H1 : reconnect_opt (implOptions noReconnectConnection) = false)
    by (vm_compute; reflexivity).
  assert (H2 : backoffListener noReconnectConnection = true)
    by (vm_compute; reflexivity).
  assert (H3 : connectionAttemptScheduled noReconnectConnection = false)
    by (vm_compute; reflexivity).
  destruct (no_reconnect_when_disabled false (Error "read ECONNRESET")
              (Error "write EPIPE") [] noReconnectConnection H1 H2 H3)
    as (_ & Hl & Ht & _ & _ & Hthrow & _).
  split; [exact H1|]. split; [exact H2|]. split; [exact H3|].
  split; [exact Hl|]. split; [exact Ht | exact Hthrow].
Defined.

(** ** Methods on channel 0 *)

Section Channel0.

Context `{P : Platform}.

Lemma onMethod_tune g tune c :
  frameMax tune = 0 \/ parser c <> None ->
  _onMethod g 0 (ConnectionTune tune) c
  = (tuned g tune,
     _sendMethod 0 connectionOpen (openArgs c)
       (_sendMethod 0 connectionTuneOk (tuneOkArgs (tuned g tune) c)
          (if frameMax tune =? 0 then c
           else set_parser (Some (Some (frameMax tune)))
                  (set_sendBuffer (frameMax tune) c))),
     None).
Proof.
  intros Hp. destruct g as [mf cm]. unfold tuned, openArgs, tuneOkArgs.
  cbn [_onMethod Z.gtb Z.compare maxFrameBuffer channelMax].
  destruct (Z.eqb_spec (frameMax tune) 0) as [Hf|Hf]; cbn [negb].
  - destruct (channelMax_arg tune =? 0); cbn [negb maxFrameBuffer channelMax];
      rewrite ?options_sendMethod; reflexivity.
  - cbn [parser set_sendBuffer maxFrameBuffer channelMax].
    destruct (parser c) as [p|]; [|destruct Hp; congruence].
    destruct (channelMax_arg tune =? 0); cbn [negb maxFrameBuffer channelMax];
      rewrite ?options_sendMethod; reflexivity.
Qed.

Lemma parser_execute_app pre : forall g post last c,
  parser_execute g (pre ++ post) last c
  = match parser_execute g pre None c with
    | (g1, c1, None) => parser_execute g1 post last c1
    | (g1, c1, Some e) => (g1, c1, Some e)
    end.
Proof.
  induction pre as [|cb pre IH]; intros g post last c; [reflexivity|].
  cbn [app parser_execute].
  destruct (parser_callback g cb c) as [[g1 c1] [e|]]; [reflexivity | apply IH].
Qed.

(** What a step leaves alone. *)
Lemma sendMethod_frame channel m args c :
  let c' := _sendMethod channel m args c in
  written (socket c') = written (socket c) ++ [methodFrame channel m args]
  /\ ended (socket c') = ended (socket c)
  /\ emitted c' = emitted c
  /\ readyEmitted c' = readyEmitted c
  /\ serverProperties c' = serverProperties c
  /\ backoffTime c' = backoffTime c
  /\ _readyCallback c' = _readyCallback c
  /\ parser c' = parser c
  /\ _sendBuffer c' = _sendBuffer c
  /\ options c' = options c.
Proof. cbn zeta. rewrite sendMethod_eq. repeat split; reflexivity. Qed.

Lemma emit_ready_frame c :
  let c' := emit_ready c in
  written (socket c') = written (socket c)
  /\ ended (socket c') = ended (socket c)
  /\ emitted c' = emitted c ++ [EvReady]
  /\ readyEmitted c' = true
  /\ serverProperties c' = serverProperties c
  /\ backoffTime c' = None
  /\ _readyCallback c' = _readyCallback c
  /\ parser c' = parser c
  /\ _sendBuffer c' = _sendBuffer c
  /\ options c' = options c.
Proof.
  cbn zeta. unfold emit_ready, ready_listener. rewrite outboundReset_eq.
  unfold emit. cbn [implOptions set_backoffTime set_emitted].
  destruct (reconnect_opt (implOptions c)); repeat split; reflexivity.
Qed.

Lemma inboundReset_frame c :
  let c' := _inboundHeartbeatTimerReset c in
  written (socket c') = written (socket c)
  /\ ended (socket c') = ended (socket c)
  /\ emitted c' = emitted c
  /\ readyEmitted c' = readyEmitted c
  /\ serverProperties c' = serverProperties c
  /\ backoffTime c' = backoffTime c
  /\ _readyCallback c' = _readyCallback c
  /\ parser c' = parser c
  /\ _sendBuffer c' = _sendBuffer c
  /\ options c' = options c.
Proof. cbn zeta. rewrite inboundReset_eq. repeat split; reflexivity. Qed.

Lemma parser_execute_handshake g start tune c :
  parser c <> None ->
  versionMajor start = 0 ->
  parser_execute g (callbacks (handshakeData start tune)) None c
  = (tuned g tune,
     emit_ready
       (set_readyCallback false
          (_sendMethod 0 connectionOpen (openArgs c)
             (_sendMethod 0 connectionTuneOk (tuneOkArgs (tuned g tune) c)
                (let c1 := _sendMethod 0 connectionStartOk (startOkArgs c)
                             (set_serverProperties (serverProperties_arg start) c) in
                 if frameMax tune =? 0 then c1
                 else set_parser (Some (Some (frameMax tune)))
                        (set_sendBuffer (frameMax tune) c1))))),
     None).
Proof.
  intros Hp Hmaj. cbn [handshakeData callbacks parser_execute parser_callback].
  rewrite onMethod_start, Hmaj. cbn [Z.eqb negb andb].
  set (c1 := _sendMethod 0 connectionStartOk (startOkArgs c)
               (set_serverProperties (serverProperties_arg start) c)).
  assert (Hp1 : parser c1 <> None).
  { subst c1. now rewrite sendMethod_parser. }
  assert (Ho1 : options c1 = options c).
  { subst c1. now rewrite options_sendMethod. }
  rewrite (onMethod_tune g tune c1) by (right; exact Hp1).
  unfold openArgs, tuneOkArgs. rewrite Ho1.
  reflexivity.
Qed.

End Channel0.

(** The 'data' listener on the three methods of a successful handshake. *)
Lemma data_listener_handshake `{P : Platform} (g : Globals) (start : StartArgs)
    (tune : TuneArgs) (c : Connection) :
  parser c <> None ->
  versionMajor start = 0 -> versionMinor start = 9 ->
  let r := data_listener g (handshakeData start tune) c in
  r.1 = tuned g tune
  /\ written (socket r.2)
     = written (socket c)
       ++ [methodFrame 0 connectionStartOk (startOkArgs c);
           methodFrame 0 connectionTuneOk (tuneOkArgs (tuned g tune) c);
           methodFrame 0 connectionOpen (openArgs c)]
  /\ emitted r.2 = emitted c ++ [EvReady]
  /\ readyEmitted r.2 = true
  /\ serverProperties r.2 = serverProperties_arg start
  /\ backoffTime r.2 = None
  /\ _readyCallback r.2 = false
  /\ ended (socket r.2) = ended (socket c)
  /\ (frameMax tune <> 0 ->
      parser r.2 = Some (Some (frameMax tune)) /\ _sendBuffer r.2 = frameMax tune).
Proof.
  intros Hp Hmaj Hmin. cbn zeta. unfold data_listener.
  destruct (parser c) as [p|] eqn:Epar; [|congruence].
  change (parse_exception (handshakeData start tune)) with (@None JsError).
  rewrite parser_execute_handshake by (rewrite ?Epar; congruence).
  cbn [fst snd].
  set (c0 := set_serverProperties (serverProperties_arg start) c).
  set (c1 := _sendMethod 0 connectionStartOk (startOkArgs c) c0).
  set (c2 := if frameMax tune =? 0 then c1
             else set_parser (Some (Some (frameMax tune)))
                    (set_sendBuffer (frameMax tune) c1)).
  set (c3 := _sendMethod 0 connectionTuneOk (tuneOkArgs (tuned g tune) c) c2).
  set (c4 := _sendMethod 0 connectionOpen (openArgs c) c3).
  set (c5 := set_readyCallback false c4).
  set (c6 := emit_ready c5).
  destruct (sendMethod_frame 0 connectionStartOk (startOkArgs c) c0)
    as (W1 & N1 & E1 & _ & S1 & _ & _ & P1 & B1 & _). fold c1 in W1, N1, E1, S1, P1, B1.
  assert (F2 : written (socket c2) = written (socket c1)
               /\ ended (socket c2) = ended (socket c1)
               /\ emitted c2 = emitted c1
               /\ serverProperties c2 = serverProperties c1
               /\ (frameMax tune <> 0 ->
                   parser c2 = Some (Some (frameMax tune))
                   /\ _sendBuffer c2 = frameMax tune)).
  { subst c2. destruct (Z.eqb_spec (frameMax tune) 0);
      repeat split; try reflexivity; contradiction. }
  destruct F2 as (W2 & N2 & E2 & S2 & PB2).
  destruct (sendMethod_frame 0 connectionTuneOk (tuneOkArgs (tuned g tune) c) c2)
    as (W3 & N3 & E3 & _ & S3 & _ & _ & P3 & B3 & _). fold c3 in W3, N3, E3, S3, P3, B3.
  destruct (sendMethod_frame 0 connectionOpen (openArgs c) c3)
    as (W4 & N4 & E4 & _ & S4 & _ & _ & P4 & B4 & _). fold c4 in W4, N4, E4, S4, P4, B4.
  destruct (emit_ready_frame c5) as (W6 & N6 & E6 & R6 & S6 & T6 & C6 & P6 & B6 & _).
  fold c6 in W6, N6, E6, R6, S6, T6, C6, P6, B6.
  destruct (inboundReset_frame c6) as (W7 & N7 & E7 & R7 & S7 & T7 & C7 & P7 & B7 & _).
  rewrite W7, N7, E7, R7, S7, T7, C7, P7, B7.
  rewrite W6, N6, E6, R6, S6, T6, C6, P6, B6.
  subst c5. cbn [socket emitted serverProperties _readyCallback parser _sendBuffer
                 set_readyCallback].
  rewrite W4, N4, E4, S4, P4, B4, W3, N3, E3, S3, P3, B3, W2, N2, E2, S2, W1, N1, E1, S1.
  subst c0. cbn [socket emitted serverProperties set_serverProperties].
  rewrite <- !app_assoc. repeat split; try reflexivity; now apply PB2.
Qed.

(** X5.  An unknown method on channel 0 aborts the chunk it arrives in:
    the callbacks before it are carried out, the ones after it are not, and
    the exception "Uncaught method ..." is raised on the error channel
    instead of the inbound heartbeat timer being re-armed. *)
Theorem unknown_method_aborts_chunk `{P : Platform} (g g1 : Globals)
    (pre post : list ParserCallback) (last : option JsError)
    (name : string) (args : JsValue) (c c1 : Connection) :
  parser c <> None ->
  parser_execute g pre None c = (g1, c1, None) ->
  data_listener g (mkParsed (pre ++ OnMethod 0 (OtherMethod name args) :: post) last) c
  = (g1, emit_error (Error ("Uncaught method '" +:+ name +:+ "' with args "
                            +:+ JSON_text args)) c1).
Proof.
  intros Hp Hpre. unfold data_listener.
  destruct (parser c) as [p|]; [|congruence].
  cbn [callbacks parse_exception].
  rewrite parser_execute_app, Hpre. reflexivity.
Qed.

Lemma unknown_method_aborts_chunk_witness :
  parser connectedConnection <> None
  /\ data_listener (P := examplePlatform) initialGlobals
       (mkParsed ([OnHeartBeat] ++ OnMethod 0 (OtherMethod "basicDeliver" JNull)
                  :: [OnMethod 0 ConnectionOpenOk]) None) connectedConnection
     = (initialGlobals,
        emit_error (Error ("Uncaught method '" +:+ "basicDeliver" +:+ "' with args "
                           +:+ JSON_text (P := examplePlatform) JNull))
                   (emit EvHeartbeat connectedConnection)).
Proof.
  assert (Hp : parser connectedConnection <> None) by (vm_compute; discriminate).
  split; [exact Hp|].
  exact (unknown_method_aborts_chunk (P := examplePlatform) initialGlobals
           initialGlobals [OnHeartBeat] [OnMethod 0 ConnectionOpenOk] None
           "basicDeliver" JNull connectedConnection
           (emit EvHeartbeat connectedConnection) Hp eq_refl).
Defined.

(** X6.  Closing.  [disconnect()] writes one Connection.Close frame with
    reply code 200 and emits nothing; the Connection.CloseOk that answers
    it ends and destroys the socket.  A Connection.Close from the server
    destroys the socket with an error that carries the reply text and code;
    the connection writes nothing in return, no Connection.CloseOk, and in
    neither case does it emit an event or arm a reconnection timer
    itself. *)
Theorem closing_handshakes `{P : Platform} (g : Globals) (args : CloseArgs)
    (c : Connection) :
  (let c1 := disconnect c in
   let r := _onMethod g 0 ConnectionCloseOk c1 in
   written (socket c1)
   = written (socket c)
     ++ [methodFrame 0 connectionClose
           [("replyText", JStr "client disconnect"); ("replyCode", JNum 200);
            ("classId", JNum 0); ("methodId", JNum 0)]%string]
   /\ emitted c1 = emitted c
   /\ r.2 = None /\ r.1.1 = g
   /\ written (socket r.1.2) = written (socket c1)
   /\ ended (socket r.1.2) = true
   /\ destroyed (socket r.1.2) = Some None
   /\ readable (socket r.1.2) = false /\ writable (socket r.1.2) = false
   /\ emitted r.1.2 = emitted c
   /\ reconnectTimeouts r.1.2 = reconnectTimeouts c)
  /\ (let r := _onMethod g 0 (ConnectionClose args) c in
      r.2 = None /\ r.1.1 = g
      /\ written (socket r.1.2) = written (socket c)
      /\ destroyed (socket r.1.2)
         = Some (Some (mkError "Error" (replyText args) (Some (replyCode args))))
      /\ readable (socket r.1.2) = false /\ writable (socket r.1.2) = false
      /\ emitted r.1.2 = emitted c
      /\ reconnectTimeouts r.1.2 = reconnectTimeouts c
      /\ connectionAttemptScheduled r.1.2 = connectionAttemptScheduled c).
Proof.
  split; cbn zeta.
  - unfold disconnect. rewrite sendMethod_eq. repeat split; reflexivity.
  - repeat split; reflexivity.
Qed.


(** ** Histories *)

Ltac project :=
  cbn [options implOptions _readyCallback connectionAttemptScheduled channelCounter
       _sendBuffer _blocked _blockedReason channels queues parser readyEmitted
       _inboundHeartbeatTimer _outboundHeartbeatTimer socket serverProperties
       backoffTime backoffListener reconnectTimeouts emitted
       set_readyCallback set_connectionAttemptScheduled set_channelCounter
       set_sendBuffer set_blocked set_blockedReason set_channels set_queues
       set_parser set_readyEmitted set_inboundHeartbeatTimer
       set_outboundHeartbeatTimer set_socket set_serverProperties set_backoffTime
       set_backoffListener set_reconnectTimeouts set_emitted
       set_options_heartbeat emit write].

Section Quiet.

Context `{P : Platform}.

Lemma outboundTimer_backoff c : _outboundHeartbeatTimer (backoff c) = None.
Proof. unfold backoff. fields. Qed.

Lemma outboundReset_quiet c :
  heartbeat (options c) = 0 ->
  _outboundHeartbeatTimerReset c = set_outboundHeartbeatTimer None c.
Proof.
  intros H. rewrite outboundReset_eq, H. cbn [Z.eqb negb].
  now rewrite andb_false_r.
Qed.

Lemma inboundReset_quiet c :
  heartbeat (options c) = 0 ->
  _inboundHeartbeatTimerReset c = set_inboundHeartbeatTimer None c.
Proof. intros H. rewrite inboundReset_eq, H. reflexivity. Qed.

Lemma quiet_emit_error e c : quiet c -> quiet (emit_error e c).
Proof.
  intros (H & Hi & Ho). unfold emit_error.
  destruct (backoffListener (emit (EvError e) c)).
  - split; [|split].
    + rewrite options_backoff. exact H.
    + apply inboundTimer_backoff.
    + apply outboundTimer_backoff.
  - repeat split; assumption.
Qed.

Lemma quiet_sendMethod channel m args c :
  quiet c -> quiet (_sendMethod channel m args c).
Proof.
  intros (H & Hi & Ho). unfold _sendMethod.
  rewrite outboundReset_quiet by exact H.
  repeat split; project; assumption.
Qed.

Lemma quiet_emit_ready c : quiet c -> quiet (emit_ready c).
Proof.
  intros (H & Hi & Ho). unfold emit_ready, ready_listener.
  rewrite outboundReset_quiet by (project; destruct (reconnect_opt _); exact H).
  repeat split; project; destruct (reconnect_opt _); project; assumption.
Qed.

Lemma quiet_onMethod g channel m c :
  quiet c -> quiet (_onMethod g channel m c).1.2.
Proof.
  intros Hq. pose proof Hq as (H & Hi & Ho). unfold _onMethod.
  destruct (channel >? 0).
  { repeat case_match; exact Hq. }
  destruct m; cbn [fst snd].
  - destruct (_ && _); cbn [fst snd].
    + apply quiet_emit_error. repeat split; project; assumption.
    + apply quiet_sendMethod. repeat split; project; assumption.
  - destruct (negb (frameMax args =? 0)).
    + cbn [parser set_sendBuffer]. destruct (parser c); cbn [fst snd].
      * do 2 apply quiet_sendMethod. repeat split; project; assumption.
      * repeat split; project; assumption.
    + cbn [fst snd]. do 2 apply quiet_sendMethod. exact Hq.
  - apply quiet_emit_ready. repeat split; project; assumption.
  - repeat split; project; assumption.
  - repeat split; project; assumption.
  - repeat split; project; assumption.
  - repeat split; project; assumption.
  - exact Hq.
Qed.

Lemma quiet_parser_execute cbs : forall g last c,
  quiet c -> quiet (parser_execute g cbs last c).1.2.
Proof.
  induction cbs as [|cb cbs IH]; intros g last c Hq; [exact Hq|].
  cbn [parser_execute].
  assert (Hcb : quiet (parser_callback g cb c).1.2).
  { destruct cb; cbn [parser_callback fst snd]; try exact Hq.
    - now apply quiet_onMethod.
    - destruct (quiet_emit_error e c Hq) as (H & Hi & Ho).
      repeat split; project; assumption. }
  destruct (parser_callback g cb c) as [[g1 c1] [e|]]; cbn [fst snd] in *.
  - exact Hcb.
  - now apply IH.
Qed.

Lemma quiet_on_socket_event g ev c :
  quiet c -> quiet (on_socket_event g ev c).2.
Proof.
  intros Hq. pose proof Hq as (H & Hi & Ho).
  destruct ev; cbn [on_socket_event snd]; try exact Hq.
  - destruct (ssl_enabled _); [exact Hq|].
    repeat split; unfold connect_listener; project; assumption.
  - destruct (ssl_enabled _); [|exact Hq].
    repeat split; unfold connect_listener; project; assumption.
  - unfold data_listener. destruct (parser c).
    + pose proof (quiet_parser_execute (callbacks data) g (parse_exception data) c Hq)
        as Hq1.
      destruct (parser_execute _ _ _ _) as [[g1 c1] [e|]]; cbn [fst snd] in *.
      * now apply quiet_emit_error.
      * destruct Hq1 as (H1 & Hi1 & Ho1). rewrite inboundReset_quiet by exact H1.
        repeat split; project; assumption.
    + cbn [snd]. rewrite inboundReset_quiet by exact H.
      repeat split; project; assumption.
  - now apply quiet_emit_error.
  - unfold end_listener. destruct (negb _); [now apply quiet_emit_error | exact Hq].
Qed.

Lemma quiet_open_channel kind fuel g name c r c' :
  quiet c -> open_channel kind fuel g name c = Return (r, c') -> quiet c'.
Proof.
  intros Hq. pose proof Hq as (H & Hi & Ho). unfold open_channel, generateChannelId.
  destruct (channels c) as [chs|].
  - destruct (generateChannelId_loop _ _ _ _ _); intros [= <- <-].
    + repeat split; project; assumption.
    + now apply quiet_emit_error.
  - intros [= <- <-]. now apply quiet_emit_error.
Qed.

Lemma quiet_deliver fuel st g c :
  quiet c -> quiet (deliver_stimulus fuel st (g, c)).2.
Proof.
  intros Hq. pose proof Hq as (H & Hi & Ho).
  destruct st; cbn [deliver_stimulus snd].
  - now apply quiet_on_socket_event.
  - unfold inboundHeartbeatTimer_fire. rewrite Hi. exact Hq.
  - unfold outboundHeartbeatTimer_fire, Connection_heartbeat.
    destruct (writable (socket c));
      rewrite outboundReset_quiet by (project; exact H);
      repeat split; project; assumption.
  - repeat split; assumption.
  - unfold connectionTimeout_fire. destruct (_ =? 0); [exact Hq|].
    apply quiet_emit_error. repeat split; project; assumption.
  - unfold exchange. destruct (open_channel _ _ _ _ _) as [[r c']| |] eqn:E;
      cbn [snd]; try exact Hq. eapply quiet_open_channel; eassumption.
  - unfold queue. destruct (open_channel _ _ _ _ _) as [[r c']| |] eqn:E;
      cbn [snd]; try exact Hq. eapply quiet_open_channel; eassumption.
  - unfold disconnect. now apply quiet_sendMethod.
  - repeat split; assumption.
  - repeat split; unfold Connection_end; project; try reflexivity.
Qed.

End Quiet.

(** X8.  [end()] stops the heartbeats for good: it ends the socket, turns
    the heartbeat option off and cancels both timers, and after it no event
    of the socket, no timer and no call of [exchange], [queue],
    [disconnect], [reconnect] or [end], in any order, sets a heartbeat timer
    again. *)
Theorem end_stops_heartbeats_for_good `{P : Platform} (fuel : nat)
    (sts : list Stimulus) (g : Globals) (c : Connection) :
  ended (socket (Connection_end c)) = true
  /\ written (socket (Connection_end c)) = written (socket c)
  /\ let c' := (history fuel sts (g, Connection_end c)).2 in
     heartbeat (options c') = 0
     /\ _inboundHeartbeatTimer c' = None
     /\ _outboundHeartbeatTimer c' = None.
Proof.
  split; [reflexivity|]. split; [reflexivity|]. cbn zeta.
  assert (Hq : quiet (Connection_end c)) by (repeat split; reflexivity).
  change (quiet (history fuel sts (g, Connection_end c)).2).
  generalize dependent (Connection_end c). clear c. revert g.
  induction sts as [|st sts IH]; intros g c Hq; [exact Hq|].
  cbn [history fold_left].
  pose proof (quiet_deliver fuel st g c Hq) as Hq1.
  destruct (deliver_stimulus fuel st (g, c)) as [g1 c1]. now apply IH.
Qed.

Section Supervised.

Context `{P : Platform}.

Variable io : ImplOptions.

Ltac sup := repeat split; project; assumption.

Lemma supervised_backoff c : supervised io c -> supervised io (backoff c).
Proof.
  intros (Hio & Hre & Hl). destruct (connectionAttemptScheduled c) eqn:Hs.
  - rewrite backoff_pending by exact Hs. sup.
  - rewrite backoff_teardown by exact Hs. cbn zeta. rewrite Hio, Hre. sup.
Qed.

Lemma supervised_emit_error e c :
  supervised io c -> supervised io (emit_error e c).
Proof.
  intros Hs. pose proof Hs as (Hio & Hre & Hl).
  rewrite emit_error_attached by exact Hl.
  apply supervised_backoff. sup.
Qed.

Lemma supervised_sendMethod channel m args c :
  supervised io c -> supervised io (_sendMethod channel m args c).
Proof. intros (Hio & Hre & Hl). rewrite sendMethod_eq. sup. Qed.

Lemma supervised_emit_ready c :
  supervised io c -> supervised io (emit_ready c).
Proof.
  intros (Hio & Hre & Hl). unfold emit_ready, ready_listener.
  rewrite outboundReset_eq. project. rewrite Hio, Hre. sup.
Qed.

Lemma supervised_onMethod g channel m c :
  supervised io c -> supervised io (_onMethod g channel m c).1.2.
Proof.
  intros Hq. pose proof Hq as (Hio & Hre & Hl). unfold _onMethod.
  destruct (channel >? 0).
  { repeat case_match; exact Hq. }
  destruct m; cbn [fst snd]; try exact Hq.
  - destruct (_ && _); cbn [fst snd].
    + apply supervised_emit_error. sup.
    + apply supervised_sendMethod. sup.
  - destruct (negb (frameMax args =? 0)).
    + cbn [parser set_sendBuffer]. destruct (parser c); cbn [fst snd].
      * do 2 apply supervised_sendMethod. sup.
      * sup.
    + cbn [fst snd]. do 2 apply supervised_sendMethod. exact Hq.
  - apply supervised_emit_ready. sup.
Qed.

Lemma supervised_parser_execute cbs : forall g last c,
  supervised io c -> supervised io (parser_execute g cbs last c).1.2.
Proof.
  induction cbs as [|cb cbs IH]; intros g last c Hq; [exact Hq|].
  cbn [parser_execute].
  assert (Hcb : supervised io (parser_callback g cb c).1.2).
  { destruct cb; cbn [parser_callback fst snd]; try exact Hq.
    - now apply supervised_onMethod.
    - destruct (supervised_emit_error e c Hq) as (H0 & H & Hi). sup. }
  destruct (parser_callback g cb c) as [[g1 c1] [e|]]; cbn [fst snd] in *.
  - exact Hcb.
  - now apply IH.
Qed.

Lemma supervised_on_socket_event g ev c :
  supervised io c -> supervised io (on_socket_event g ev c).2.
Proof.
  intros Hq. pose proof Hq as (Hio & Hre & Hl).
  destruct ev; cbn [on_socket_event snd]; try exact Hq.
  - destruct (ssl_enabled _); exact Hq.
  - destruct (ssl_enabled _); exact Hq.
  - unfold data_listener. destruct (parser c).
    + pose proof (supervised_parser_execute (callbacks data) g
                    (parse_exception data) c Hq) as Hq1.
      destruct (parser_execute _ _ _ _) as [[g1 c1] [e|]]; cbn [fst snd] in *.
      * now apply supervised_emit_error.
      * destruct Hq1 as (H0 & H1 & Hl1). rewrite inboundReset_eq. sup.
    + cbn [snd]. rewrite inboundReset_eq. sup.
  - now apply supervised_emit_error.
  - unfold end_listener. destruct (negb _);
      [now apply supervised_emit_error | exact Hq].
Qed.

Lemma supervised_open_channel kind fuel g name c r c' :
  supervised io c -> open_channel kind fuel g name c = Return (r, c') ->
  supervised io c'.
Proof.
  intros Hq. pose proof Hq as (Hio & Hre & Hl).
  unfold open_channel, generateChannelId.
  destruct (channels c) as [chs|].
  - destruct (generateChannelId_loop _ _ _ _ _); intros [= <- <-].
    + sup.
    + now apply supervised_emit_error.
  - intros [= <- <-]. now apply supervised_emit_error.
Qed.

Lemma supervised_deliver fuel st g c :
  supervised io c -> supervised io (deliver_stimulus fuel st (g, c)).2.
Proof.
  intros Hq. pose proof Hq as (Hio & Hre & Hl).
  destruct st; cbn [deliver_stimulus snd].
  - now apply supervised_on_socket_event.
  - unfold inboundHeartbeatTimer_fire.
    destruct (_inboundHeartbeatTimer c) as [[[gp|] ms]|]; try exact Hq.
    destruct (_ || _); [now apply supervised_emit_error | exact Hq].
  - unfold outboundHeartbeatTimer_fire, Connection_heartbeat.
    rewrite outboundReset_eq.
    destruct (writable (socket c)); sup.
  - exact Hq.
  - unfold connectionTimeout_fire. destruct (_ =? 0); [exact Hq|].
    apply supervised_emit_error. sup.
  - unfold exchange. destruct (open_channel _ _ _ _ _) as [[r c']| |] eqn:E;
      cbn [snd]; try exact Hq. eapply supervised_open_channel; eassumption.
  - unfold queue. destruct (open_channel _ _ _ _ _) as [[r c']| |] eqn:E;
      cbn [snd]; try exact Hq. eapply supervised_open_channel; eassumption.
  - unfold disconnect. now apply supervised_sendMethod.
  - exact Hq.
  - exact Hq.
Qed.

Lemma supervised_history fuel sts : forall g c,
  supervised io c -> supervised io (history fuel sts (g, c)).2.
Proof.
  induction sts as [|st sts IH]; intros g c Hq; [exact Hq|].
  cbn [history fold_left].
  pose proof (supervised_deliver fuel st g c Hq) as Hq1.
  destruct (deliver_stimulus fuel st (g, c)) as [g1 c1]. now apply IH.
Qed.

End Supervised.

(** X9.  With reconnection enabled the error listener is never detached,
    whatever happens to the connection; so at any point of its life an error
    either finds a reconnection attempt pending, and arms nothing, or arms
    exactly one reconnection timer with the next backoff delay. *)
Theorem every_error_is_supervised `{P : Platform} (fuel : nat)
    (sts : list Stimulus) (e : JsError) (g : Globals) (c : Connection) :
  reconnect_opt (implOptions c) = true ->
  backoffListener c = true ->
  let c' := (history fuel sts (g, c)).2 in
  backoffListener c' = true
  /\ implOptions c' = implOptions c
  /\ (connectionAttemptScheduled c' = true ->
      reconnectTimeouts (emit_error e c') = reconnectTimeouts c')
  /\ (connectionAttemptScheduled c' = false ->
      reconnectTimeouts (emit_error e c')
      = reconnectTimeouts c' ++ [next_backoff (implOptions c) (backoffTime c')]
      /\ connectionAttemptScheduled (emit_error e c') = true).
Proof.
  intros Hre Hl. cbn zeta.
  destruct (supervised_history (implOptions c) fuel sts g c
              (conj eq_refl (conj Hre Hl))) as (Hio & _ & Hl').
  assert (Hre' : reconnect_opt (implOptions (history fuel sts (g, c)).2) = true)
    by (rewrite Hio; exact Hre).
  split; [exact Hl'|]. split; [exact Hio|]. split.
  - intros Hs. rewrite (emit_error_attached e _ Hl'), backoff_pending by exact Hs.
    reflexivity.
  - intros Hs.
    destruct (failure_step e _ Hre' Hl' Hs) as ((Ht & _) & _).
    rewrite Ht, Hio. split; [reflexivity|].
    rewrite (emit_error_attached e _ Hl').
    now destruct (backoff_schedules (emit (EvError e) (history fuel sts (g, c)).2)
                    Hre' Hs) as (_ & _ & Hp & _).
Qed.

Lemma every_error_is_supervised_witness :
  let sts := [FromSocket (SockError (Error "read ECONNRESET"));
              ReconnectTimerFires; FromSocket SockConnect;
              OpenExchange "logs"; FromSocket SockEnd] in
  reconnect_opt (implOptions exponentialConnection) = true
  /\ backoffListener exponentialConnection = true
  /\ backoffListener
       (history (P := examplePlatform) 10 sts
          (initialGlobals, exponentialConnection)).2 = true.
Proof.
  cbn zeta.
  assert (H1 : reconnect_opt (implOptions exponentialConnection) = true)
    by (vm_compute; reflexivity).
  assert (H2 : backoffListener exponentialConnection = true)
    by (vm_compute; reflexivity).
  split; [exact H1|]. split; [exact H2|].
  exact (proj1 (every_error_is_supervised (P := examplePlatform) 10
                  [FromSocket (SockError (Error "read ECONNRESET"));
                   ReconnectTimerFires; FromSocket SockConnect;
                   OpenExchange "logs"; FromSocket SockEnd]
                  (Error "write EPIPE") initialGlobals exponentialConnection
                  H1 H2)).
Defined.

(** ** Channels are never dropped *)

Section Kept.

Context `{P : Platform}.

Variable a : gmap Z Channel.

Lemma same_handler_refl ch : same_handler ch ch.
Proof. destruct ch; cbn; auto. Qed.

Lemma same_handler_trans x y z :
  same_handler x y -> same_handler y z -> same_handler x z.
Proof. destruct x, y, z; cbn; intuition congruence. Qed.

Lemma same_handler_set_state st ch : same_handler ch (channel_set_state st ch).
Proof. destruct ch; cbn; auto. Qed.

Lemma gentle_close : gentle close_channels_but_0.
Proof.
  intros chs id ch H. rewrite lookup_close_channels_but_0, H.
  destruct (id =? 0); cbn; eexists; split; try reflexivity.
  - apply same_handler_refl.
  - apply same_handler_set_state.
Qed.

Lemma gentle_reconnect : gentle reconnect_channels_but_0.
Proof.
  intros chs id ch H. unfold reconnect_channels_but_0.
  rewrite map_lookup_imap, H. cbn.
  destruct (id =? 0); eexists; split; try reflexivity.
  - apply same_handler_refl.
  - apply same_handler_set_state.
Qed.

Lemma gentle_set_state st : gentle (fmap (channel_set_state st)).
Proof.
  intros chs id ch H. rewrite lookup_fmap, H. cbn.
  eexists; split; [reflexivity | apply same_handler_set_state].
Qed.

Lemma kept_gentle f c c' :
  gentle f -> channels c' = f <$> channels c ->
  channels_kept a c -> channels_kept a c'.
Proof.
  intros Hf Hc (chs1 & H1 & Hk).
  exists (f chs1). rewrite Hc, H1. split; [reflexivity|].
  intros id ch Hl. destruct (Hk id ch Hl) as (ch1 & H2 & H3).
  destruct (Hf chs1 id ch1 H2) as (ch2 & H4 & H5).
  exists ch2. split; [exact H4|]. eapply same_handler_trans; eassumption.
Qed.

Lemma kept_backoff c : channels_kept a c -> channels_kept a (backoff c).
Proof.
  intros Hk. destruct (connectionAttemptScheduled c) eqn:Hs.
  - rewrite backoff_pending by exact Hs. exact Hk.
  - rewrite backoff_teardown by exact Hs. cbn zeta.
    apply (kept_gentle close_channels_but_0 c); [apply gentle_close | | exact Hk].
    destruct (reconnect_opt _); reflexivity.
Qed.

Lemma kept_emit_error e c : channels_kept a c -> channels_kept a (emit_error e c).
Proof.
  intros Hk. unfold emit_error. project.
  destruct (backoffListener c); [apply kept_backoff|]; exact Hk.
Qed.

Lemma kept_sendMethod channel m args c :
  channels_kept a c -> channels_kept a (_sendMethod channel m args c).
Proof. intros Hk. rewrite sendMethod_eq. exact Hk. Qed.

Lemma kept_emit_ready c : channels_kept a c -> channels_kept a (emit_ready c).
Proof.
  intros Hk. unfold emit_ready, ready_listener. rewrite outboundReset_eq.
  project. destruct (reconnect_opt _); [|exact Hk].
  now apply (kept_gentle reconnect_channels_but_0 c); [apply gentle_reconnect | |].
Qed.

Lemma kept_onMethod g channel m c :
  channel <= 0 ->
  channels_kept a c -> channels_kept a (_onMethod g channel m c).1.2.
Proof.
  intros Hch Hk. unfold _onMethod.
  destruct (Z.gtb_spec channel 0) as [Hgt|_]; [lia|].
  destruct m; cbn [fst snd]; try exact Hk.
  - destruct (_ && _); cbn [fst snd].
    + apply kept_emit_error. exact Hk.
    + apply kept_sendMethod. exact Hk.
  - destruct (negb (frameMax args =? 0)).
    + cbn [parser set_sendBuffer]. destruct (parser c); cbn [fst snd].
      * do 2 apply kept_sendMethod. exact Hk.
      * exact Hk.
    + cbn [fst snd]. do 2 apply kept_sendMethod. exact Hk.
  - apply kept_emit_ready. exact Hk.
Qed.

Lemma kept_parser_execute cbs : forall g last c,
  Forall control_callback cbs ->
  channels_kept a c -> channels_kept a (parser_execute g cbs last c).1.2.
Proof.
  induction cbs as [|cb cbs IH]; intros g last c Hw Hk; [exact Hk|].
  apply Forall_cons in Hw as [Hcb0 Hw]. cbn [parser_execute].
  assert (Hcb : channels_kept a (parser_callback g cb c).1.2).
  { destruct cb; cbn [parser_callback fst snd control_callback] in *;
      try contradiction; try exact Hk.
    - now apply kept_onMethod.
    - exact (kept_emit_error e c Hk). }
  destruct (parser_callback g cb c) as [[g1 c1] [e|]]; cbn [fst snd] in *.
  - exact Hcb.
  - now apply IH.
Qed.

Lemma kept_connect_listener c :
  channels_kept a c -> channels_kept a (connect_listener c).
Proof.
  intros (chs1 & H1 & Hk). exists chs1.
  unfold connect_listener. project. rewrite H1. auto.
Qed.

Lemma kept_on_socket_event g ev c :
  control_stimulus (FromSocket ev) ->
  channels_kept a c -> channels_kept a (on_socket_event g ev c).2.
Proof.
  intros Hw Hk. destruct ev; cbn [on_socket_event snd]; try exact Hk.
  - destruct (ssl_enabled _); [exact Hk | now apply kept_connect_listener].
  - destruct (ssl_enabled _); [now apply kept_connect_listener | exact Hk].
  - cbn [control_stimulus] in Hw. unfold data_listener. destruct (parser c).
    + pose proof (kept_parser_execute (callbacks data) g
                    (parse_exception data) c Hw Hk) as Hk1.
      destruct (parser_execute _ _ _ _) as [[g1 c1] [e|]]; cbn [fst snd] in *.
      * now apply kept_emit_error.
      * rewrite inboundReset_eq. exact Hk1.
    + cbn [snd]. rewrite inboundReset_eq. exact Hk.
  - now apply kept_emit_error.
  - unfold end_listener. destruct (negb _); [now apply kept_emit_error | exact Hk].
Qed.

(** The scan only ever returns an id that has no entry. *)
Lemma loop_return_free m (chs : gmap Z Channel) k : forall fuel x id,
  generateChannelId_loop fuel m chs k x = Return id -> chs !! id = None.
Proof.
  induction fuel as [|fuel IH]; intros x id; [discriminate|].
  cbn [generateChannelId_loop].
  destruct (chs !! (Z.rem x m + 1)) eqn:Hl.
  - destruct (_ =? _); [discriminate | apply IH].
  - now intros [= <-].
Qed.

Lemma kept_open_channel kind fuel g name c r c' :
  channels_kept a c -> open_channel kind fuel g name c = Return (r, c') ->
  channels_kept a c'.
Proof.
  intros Hk. unfold open_channel, generateChannelId.
  destruct (channels c) as [chs|] eqn:Hc.
  - destruct (generateChannelId_loop _ _ _ _ _) as [id|e|] eqn:Hloop;
      intros [= <- <-].
    + apply loop_return_free in Hloop.
      destruct Hk as (chs1 & H1 & Hk).
      assert (chs1 = chs) as -> by congruence.
      exists (<[id := Handler kind name "opening"]> chs).
      project. rewrite Hc. split; [reflexivity|].
      intros i ch Hl. destruct (Hk i ch Hl) as (ch1 & H2 & H3).
      exists ch1. split; [|exact H3].
      rewrite lookup_insert_ne; [exact H2 | congruence].
    + now apply kept_emit_error.
  - intros [= <- <-]. now apply kept_emit_error.
Qed.

Lemma kept_reconnect c : channels_kept a c -> channels_kept a (reconnect c).
Proof.
  intros Hk.
  now apply (kept_gentle (fmap (channel_set_state "closed")) c);
    [apply gentle_set_state | |].
Qed.

Lemma kept_deliver fuel st g c :
  control_stimulus st ->
  channels_kept a c -> channels_kept a (deliver_stimulus fuel st (g, c)).2.
Proof.
  intros Hw Hk. destruct st; cbn [deliver_stimulus snd].
  - now apply kept_on_socket_event.
  - unfold inboundHeartbeatTimer_fire.
    destruct (_inboundHeartbeatTimer c) as [[[gp|] ms]|]; try exact Hk.
    destruct (_ || _); [now apply kept_emit_error | exact Hk].
  - unfold outboundHeartbeatTimer_fire, Connection_heartbeat.
    rewrite outboundReset_eq. destruct (writable (socket c)); exact Hk.
  - unfold reconnectTimeout_fire. apply kept_reconnect. exact Hk.
  - unfold connectionTimeout_fire. destruct (_ =? 0); [exact Hk|].
    apply kept_emit_error. exact Hk.
  - unfold exchange. destruct (open_channel _ _ _ _ _) as [[r c']| |] eqn:E;
      cbn [snd]; try exact Hk. eapply kept_open_channel; eassumption.
  - unfold queue. destruct (open_channel _ _ _ _ _) as [[r c']| |] eqn:E;
      cbn [snd]; try exact Hk. eapply kept_open_channel; eassumption.
  - unfold disconnect. now apply kept_sendMethod.
  - now apply kept_reconnect.
  - exact Hk.
Qed.

Lemma kept_history fuel sts : forall g c,
  Forall control_stimulus sts ->
  channels_kept a c -> channels_kept a (history fuel sts (g, c)).2.
Proof.
  induction sts as [|st sts IH]; intros g c Hw Hk; [exact Hk|].
  apply Forall_cons in Hw as [Hst Hw]. cbn [history fold_left].
  pose proof (kept_deliver fuel st g c Hst Hk) as Hk1.
  destruct (deliver_stimulus fuel st (g, c)) as [g1 c1]. now apply IH.
Qed.

End Kept.

(** X10.  The code of the connection never gives up a channel.  As long as
    the data that arrives is traffic of the control channel, so that
    nothing is handed to an exchange or a queue, then whatever events,
    timers and calls of [exchange], [queue], [disconnect], [reconnect] and
    [end] follow, the table of channels stays defined and an entry of it
    stays under its id, the same exchange or queue with at most its state
    changed; channel 0 stays the connection itself. *)
Theorem channels_never_dropped `{P : Platform} (fuel : nat)
    (sts : list Stimulus) (g : Globals) (c : Connection)
    (chs : gmap Z Channel) :
  Forall control_stimulus sts ->
  channels c = Some chs ->
  exists chs' : gmap Z Channel,
    channels (history fuel sts (g, c)).2 = Some chs'
    /\ (forall id, chs !! id <> None -> chs' !! id <> None)
    /\ (forall id kind name state,
          chs !! id = Some (Handler kind name state) ->
          exists state', chs' !! id = Some (Handler kind name state'))
    /\ (chs !! 0 = Some Self -> chs' !! 0 = Some Self).
Proof.
  intros Hw Hc.
  destruct (kept_history chs fuel sts g c Hw) as (chs' & Hc' & Hk).
  { exists chs. split; [exact Hc|]. intros id ch Hl.
    exists ch. auto using same_handler_refl. }
  exists chs'. split; [exact Hc'|]. split; [|split].
  - intros id Hl. destruct (chs !! id) as [ch|] eqn:E; [|congruence].
    destruct (Hk id ch E) as (ch' & -> & _). discriminate.
  - intros id kind name state Hl.
    destruct (Hk id _ Hl) as ([|k n st] & H1 & H2); cbn in H2; [contradiction|].
    destruct H2 as [<- <-]. now exists st.
  - intros Hl. destruct (Hk 0 _ Hl) as ([|k n st] & H1 & H2);
      cbn in H2; [exact H1 | contradiction].
Qed.

Lemma channels_never_dropped_witness :
  let sts := [OpenExchange "logs"; FromSocket (SockError (Error "read ECONNRESET"));
              ReconnectTimerFires; FromSocket SockConnect;
              FromSocket (SockData
                            (handshakeData
                               (mkStartArgs 0 9 (JObject []) "PLAIN" "en_US")
                               (mkTuneArgs 131072 2047 60)));
              OpenQueue "jobs"] in
  Forall control_stimulus sts
  /\ channels connectedConnection = Some {[ 0 := Self ]}
  /\ exists chs' : gmap Z Channel,
       channels (history (P := examplePlatform) 10 sts
                   (initialGlobals, connectedConnection)).2 = Some chs'
       /\ chs' !! 0 = Some Self.
Proof.
  cbn zeta.
  assert (H0 : Forall control_stimulus
                 [OpenExchange "logs";
                  FromSocket (SockError (Error "read ECONNRESET"));
                  ReconnectTimerFires; FromSocket SockConnect;
                  FromSocket (SockData
                                (handshakeData
                                   (mkStartArgs 0 9 (JObject []) "PLAIN" "en_US")
                                   (mkTuneArgs 131072 2047 60)));
                  OpenQueue "jobs"]).
  { repeat constructor; cbn; lia. }
  assert (H1 : channels connectedConnection = Some {[ 0 := Self ]})
    by (vm_compute; reflexivity).
  split; [exact H0|]. split; [exact H1|].
  destruct (channels_never_dropped (P := examplePlatform) 10 _
              initialGlobals connectedConnection {[ 0 := Self ]} H0 H1)
    as (chs' & Hc & _ & _ & Hself).
  exists chs'. split; [exact Hc|]. apply Hself. reflexivity.
Defined.

(** ** Allocation: an id, an exception, or no return *)

Lemma first_true (p : Z -> bool) : forall b : nat,
  (exists n, 0 <= n < Z.of_nat b /\ p n = true
             /\ forall i, 0 <= i < n -> p i = false)
  \/ (forall i, 0 <= i < Z.of_nat b -> p i = false).
Proof.
  induction b as [|b [(n & Hn & Hp & Hmin)|Hnone]].
  - right. intros i Hi. lia.
  - left. exists n. split; [lia|]. auto.
  - destruct (p (Z.of_nat b)) eqn:Hb.
    + left. exists (Z.of_nat b). split; [lia|]. split; [exact Hb|].
      intros i Hi. apply Hnone. lia.
    + right. intros i Hi.
      destruct (Z.eq_dec i (Z.of_nat b)) as [->|Hne]; [exact Hb|].
      apply Hnone. lia.
Qed.

(** X11.  An allocation fails only when every id is taken: as long as some
    id of 1..channelMax has no entry, [generateChannelId] returns an id of
    that range without an entry and makes it the counter, and [exchange]
    stores the new exchange under it. *)
Theorem a_free_id_is_found (fuel : nat) (g : Globals)
    (c : Connection) (chs : gmap Z Channel) (free : Z) (name : string) :
  channels c = Some chs ->
  1 <= channelMax g ->
  0 <= channelCounter c ->
  (Z.to_nat (channelMax g) <= fuel)%nat ->
  1 <= free <= channelMax g ->
  chs !! free = None ->
  exists id,
    generateChannelId fuel g c = Return (id, set_channelCounter id c)
    /\ 1 <= id <= channelMax g
    /\ chs !! id = None
    /\ exchange fuel g name c
       = Return (Some id,
                 set_channels
                   (Some (<[id := Handler ExchangeHandler name "opening"]> chs))
                   (set_channelCounter id c)).
Proof.
  intros Hchs Hm Hk Hfuel Hfree Hnone.
  set (m := channelMax g) in *. set (k := channelCounter c) in *.
  set (p := fun n => bool_decide (chs !! ((k + n) mod m + 1) = None)).
  assert (Hn0 : p ((free - 1 - k) mod m) = true).
  { unfold p. apply bool_decide_eq_true.
    rewrite Zplus_mod_idemp_r.
    replace (k + (free - 1 - k)) with (free - 1) by lia.
    rewrite Z.mod_small by lia. now replace (free - 1 + 1) with free by lia. }
  pose proof (Z.mod_pos_bound (free - 1 - k) m ltac:(lia)) as Hb.
  destruct (first_true p (Z.to_nat m)) as [(n & Hn & Hp & Hmin)|Hall].
  - rewrite Z2Nat.id in Hn by lia.
    apply bool_decide_eq_true in Hp.
    assert (Hbusy : forall i, 0 <= i < n -> chs !! ((k + i) mod m + 1) <> None).
    { intros i Hi. specialize (Hmin i Hi). now apply bool_decide_eq_false in Hmin. }
    pose proof (generateChannelId_first_free fuel g c chs n Hchs Hm Hk Hfuel
                  Hn Hp Hbusy) as Hgen.
    fold k m in Hgen.
    exists ((k + n) mod m + 1). split; [exact Hgen|].
    split; [apply next_id_range; lia|]. split; [exact Hp|].
    unfold exchange, open_channel. rewrite Hgen.
    cbn [channels set_channelCounter]. rewrite Hchs. reflexivity.
  - rewrite Hall in Hn0; [discriminate|]. rewrite Z2Nat.id by lia. exact Hb.
Qed.

Lemma a_free_id_is_found_witness :
  exists id,
    generateChannelId 8 (mkGlobals 131072 8) fiveChannels
    = Return (id, set_channelCounter id fiveChannels)
    /\ 1 <= id <= channelMax (mkGlobals 131072 8).
Proof.
  assert (H1 : channels fiveChannels = Some (default ∅ (channels fiveChannels)))
    by (vm_compute; reflexivity).
  destruct (a_free_id_is_found 8 (mkGlobals 131072 8)
              fiveChannels (default ∅ (channels fiveChannels)) 7 "logs" H1)
    as (id & Hgen & Hr & _).
  - vm_compute; discriminate.
  - vm_compute; discriminate.
  - vm_compute; lia.
  - vm_compute; split; discriminate.
  - vm_compute; reflexivity.
  - exists id. split; [exact Hgen | exact Hr].
Defined.

(** X12.  A Connection.Tune that lowers channelMax below the counter, while
    every id up to the new channelMax has an entry, leaves
    [generateChannelId] in a loop without exit: the scan stays in
    1..channelMax, finds every id taken and never meets the counter, so
    neither an id nor the exception comes back, and [exchange] and [queue]
    do not return. *)
Theorem lowered_channelMax_hangs_allocation `{P : Platform} (g : Globals)
    (c : Connection) (chs : gmap Z Channel) (tune : TuneArgs) :
  channels c = Some chs ->
  frameMax tune = 0 \/ parser c <> None ->
  1 <= channelMax_arg tune < channelCounter c ->
  (forall id, 1 <= id <= channelMax_arg tune -> chs !! id <> None) ->
  let r := _onMethod g 0 (ConnectionTune tune) c in
  r.2 = None
  /\ channelMax r.1.1 = channelMax_arg tune
  /\ forall fuel name,
       generateChannelId fuel r.1.1 r.1.2 = OutOfFuel
       /\ exchange fuel r.1.1 name r.1.2 = OutOfFuel
       /\ queue fuel r.1.1 name r.1.2 = OutOfFuel.
Proof.
  intros Hchs Hp Hlow Hfull. cbn zeta. rewrite (onMethod_tune g tune c Hp).
  cbn [fst snd]. split; [reflexivity|].
  assert (Hmax : channelMax (tuned g tune) = channelMax_arg tune).
  { unfold tuned. cbn [channelMax].
    destruct (Z.eqb_spec (channelMax_arg tune) 0); [lia | reflexivity]. }
  split; [exact Hmax|].
  set (c' := _sendMethod _ _ _ _).
  assert (Hc : channels c' = Some chs /\ channelCounter c' = channelCounter c).
  { unfold c'. rewrite !sendMethod_eq. project.
    destruct (frameMax tune =? 0); project; auto. }
  destruct Hc as [Hc Hk].
  assert (Hgen : forall fuel, generateChannelId fuel (tuned g tune) c' = OutOfFuel).
  { intros fuel. unfold generateChannelId. rewrite Hc, Hk, Hmax.
    rewrite (loop_diverges (channelMax_arg tune) ltac:(lia) chs (channelCounter c)
               ltac:(lia) Hfull fuel (channelCounter c) ltac:(lia)).
    reflexivity. }
  intros fuel name. split; [apply Hgen|].
  unfold exchange, queue, open_channel. rewrite Hgen. auto.
Qed.

Lemma lowered_channelMax_hangs_allocation_witness :
  let r := _onMethod (P := examplePlatform) initialGlobals 0
             (ConnectionTune (mkTuneArgs 0 3 0)) fiveChannels in
  channelCounter fiveChannels = 5
  /\ channelMax r.1.1 = 3
  /\ exchange 1000 r.1.1 "logs" r.1.2 = OutOfFuel.
Proof.
  cbn zeta.
  assert (H0 : channelCounter fiveChannels = 5) by (vm_compute; reflexivity).
  assert (H1 : channels fiveChannels = Some (default ∅ (channels fiveChannels)))
    by (vm_compute; reflexivity).
  assert (H2 : 1 <= 3 < channelCounter fiveChannels)
    by (rewrite H0; lia).
  assert (H3 : forall id, 1 <= id <= 3 ->
                 default ∅ (channels fiveChannels) !! id <> None).
  { intros id Hid.
    assert (id = 1 \/ id = 2 \/ id = 3) as [-> | [-> | ->]] by lia;
      vm_compute; discriminate. }
  destruct (lowered_channelMax_hangs_allocation (P := examplePlatform)
              initialGlobals fiveChannels (default ∅ (channels fiveChannels))
              (mkTuneArgs 0 3 0) H1 (or_introl eq_refl) H2 H3)
    as (_ & Hmax & Hhang).
  split; [exact H0|]. split; [exact Hmax|].
  exact (proj1 (proj2 (Hhang 1000%nat "logs"%string))).
Defined.

(** ** The property flags of a content header *)

Lemma propertyFlags_from_spec (properties : gmap string JsValue) :
  forall (fields : list string) (i flags : Z),
    0 <= i -> i + Z.of_nat (length fields) <= 16 ->
    0 <= flags < 2 ^ 16 ->
    let r := propertyFlags_from i fields properties flags in
    0 <= r < 2 ^ 16
    /\ forall b, 0 <= b ->
         Z.testbit r b = true
         <-> Z.testbit flags b = true
             \/ exists (j : nat) name,
                  fields !! j = Some name /\ b = 15 - (i + Z.of_nat j)
                  /\ truthy_prop properties name = true.
Proof.
  induction fields as [|name rest IH]; intros i flags Hi Hlen Hflags; cbn zeta.
  - cbn. split; [exact Hflags|]. intros b _. split; [auto|].
    intros [H|(j & n & H & _)]; [exact H | discriminate].
  - cbn [propertyFlags_from length] in *.
    rewrite Nat2Z.inj_succ in Hlen.
    set (flags' := if truthy_prop properties name
                   then Z.lor flags (Z.shiftl 1 ((15 - i) mod 32)) else flags).
    assert (Hmod : (15 - i) mod 32 = 15 - i) by (apply Z.mod_small; lia).
    assert (Hflags' : 0 <= flags' < 2 ^ 16).
    { unfold flags'. destruct (truthy_prop properties name); [|exact Hflags].
      rewrite Hmod, Z.shiftl_1_l.
      assert (Hnn : 0 <= Z.lor flags (2 ^ (15 - i))).
      { apply Z.lor_nonneg. split; [lia | apply Z.pow_nonneg; lia]. }
      split; [exact Hnn|].
      destruct (Z.eq_dec (Z.lor flags (2 ^ (15 - i))) 0) as [->|Hne]; [lia|].
      apply Z.log2_lt_pow2; [lia|].
      rewrite Z.log2_lor by (try lia; apply Z.pow_nonneg; lia).
      rewrite Z.log2_pow2 by lia.
      apply Z.max_lub_lt; [|lia].
      destruct (Z.eq_dec flags 0) as [->|Hf]; [cbn; lia|].
      apply Z.log2_lt_pow2; lia. }
    assert (Hhead : forall b, 0 <= b ->
              Z.testbit flags' b = true
              <-> Z.testbit flags b = true
                  \/ (b = 15 - i /\ truthy_prop properties name = true)).
    { intros b Hb. unfold flags'. destruct (truthy_prop properties name).
      - rewrite Z.lor_spec, Hmod, Z.shiftl_1_l, Z.pow2_bits_eqb by lia.
        rewrite orb_true_iff, Z.eqb_eq. intuition lia.
      - intuition discriminate. }
    destruct (IH (i + 1) flags' ltac:(lia) ltac:(lia) Hflags') as [Hr Hbits].
    split; [exact Hr|]. intros b Hb. rewrite (Hbits b Hb), (Hhead b Hb).
    split.
    + intros [[H|[H1 H2]]|(j & n & H1 & H2 & H3)].
      * now left.
      * right. exists 0%nat, name. split; [reflexivity|]. split; [lia | exact H2].
      * right. exists (S j), n. split; [exact H1|]. split; [lia | exact H3].
    + intros [H|([|j] & n & H1 & H2 & H3)].
      * left. now left.
      * injection H1 as ->. left. right. split; [lia | exact H3].
      * right. exists j, n. split; [exact H1|]. split; [lia | exact H3].
Qed.

Lemma take_drop_middle {A} (pre x post : list A) (n k : nat) :
  length pre = n -> length x = k -> take k (drop n (pre ++ x ++ post)) = x.
Proof.
  intros <- <-. rewrite drop_app_length. apply take_app_length.
Qed.

(** X13.  The flags of a content header name the properties it carries: with
    at most 16 fields in the basic class, the flags fit the two octets they
    are written in, and bit 15 - i is set exactly when the i-th field has a
    truthy value among the caller's properties completed by the default
    content type; so a header whose caller names no content type announces
    one all the same. *)
Theorem header_flags_name_the_properties `{P : Platform} (channel size : Z)
    (properties : gmap string JsValue) :
  (length basicFields <= 16)%nat ->
  let flags := headerPropertyFlags (headerFrame channel size properties) in
  flags = propertyFlags_from 0 basicFields (headerProperties properties) 0
  /\ 0 <= flags < 65536
  /\ (forall (i : nat) name,
        basicFields !! i = Some name ->
        Z.testbit flags (15 - Z.of_nat i)
        = truthy_prop (headerProperties properties) name)
  /\ (forall b, 0 <= b ->
        (forall i : nat, (i < length basicFields)%nat -> b <> 15 - Z.of_nat i) ->
        Z.testbit flags b = false)
  /\ (forall i : nat,
        basicFields !! i = Some "contentType"%string ->
        properties !! "contentType"%string = None ->
        Z.testbit flags (15 - Z.of_nat i) = true).
Proof.
  intros Hlen. cbn zeta.
  assert (H16 : 0 <= 0 < 2 ^ 16) by (split; [lia | reflexivity]).
  assert (H0 : 0 <= 0) by lia.
  assert (HL : 0 + Z.of_nat (length basicFields) <= 16) by lia.
  destruct (propertyFlags_from_spec (headerProperties properties) basicFields 0 0
              H0 HL H16) as [Hr Hbits].
  cbn zeta in Hr, Hbits.
  assert (Hflags : headerPropertyFlags (headerFrame channel size properties)
                   = propertyFlags_from 0 basicFields (headerProperties properties) 0).
  { unfold headerPropertyFlags, headerFrame. fold (headerProperties properties).
    cbn zeta.
    match goal with
    | |- parseInt (take 2 (drop 19 ([2] ++ ?sc ++ ?len ++ (?cls ++ ?w ++ ?s8 ++ ?s ++ ?props)
                                     ++ [206]))) = _ =>
        replace ([2] ++ sc ++ len ++ (cls ++ w ++ s8 ++ s ++ props) ++ [206])
          with (([2] ++ sc ++ len ++ cls ++ w ++ s8) ++ s ++ (props ++ [206]))
          by (rewrite <- !app_assoc; reflexivity)
    end.
    rewrite take_drop_middle by (rewrite ?length_app, ?length_serializeInt; reflexivity).
    rewrite parseInt_serializeInt. apply Z.mod_small.
    change (256 ^ Z.of_nat 2) with (2 ^ 16). exact Hr. }
  rewrite Hflags. split; [reflexivity|]. split; [exact Hr|].
  set (flags := propertyFlags_from 0 basicFields (headerProperties properties) 0)
    in *.
  assert (Hfield : forall (i : nat) name,
            basicFields !! i = Some name ->
            Z.testbit flags (15 - Z.of_nat i)
            = truthy_prop (headerProperties properties) name).
  2: { split; [exact Hfield|]. split.
       - intros b Hb Hnot. apply not_true_iff_false. intros Hbit.
         apply Hbits in Hbit; [|exact Hb].
         destruct Hbit as [Hbit|(j & n & Hj & Hbj & Hn)];
           [now rewrite Z.bits_0 in Hbit|].
         apply (Hnot j); [now apply lookup_lt_Some in Hj | lia].
       - intros i Hi Hnone. rewrite (Hfield i _ Hi).
         unfold truthy_prop, headerProperties, Object_assign.
         rewrite lookup_union_r by exact Hnone.
         rewrite lookup_singleton_eq. reflexivity. }
  intros i name Hi.
  destruct (truthy_prop (headerProperties properties) name) eqn:Ht.
  - apply Hbits; [apply lookup_lt_Some in Hi; lia|].
    right. exists i, name. split; [exact Hi|]. split; [lia | exact Ht].
  - apply not_true_iff_false. intros Hb.
    apply Hbits in Hb; [|apply lookup_lt_Some in Hi; lia].
    destruct Hb as [Hb|(j & n & Hj & Hbj & Hn)]; [now rewrite Z.bits_0 in Hb|].
    assert (j = i) as -> by lia. congruence.
Qed.

Lemma header_flags_name_the_properties_witness :
  (length (basicFields (Platform := examplePlatform)) <= 16)%nat
  /\ Z.testbit (headerPropertyFlags
                  (headerFrame (P := examplePlatform) 1 300 ∅)) 15 = true.
Proof.
  assert (H : (length (basicFields (Platform := examplePlatform)) <= 16)%nat)
    by (vm_compute; lia).
  split; [exact H|].
  destruct (header_flags_name_the_properties (P := examplePlatform) 1 300 ∅ H)
    as (_ & _ & _ & _ & Hct).
  exact (Hct 0%nat eq_refl eq_refl).
Defined.

(** ** The choice of a host *)

Lemma chooseHosts_rotation (hs : list string) pref random : forall (n : nat) i,
  hs <> [] -> 0 <= i < Z.of_nat (length hs) ->
  chooseHosts n (HostArray hs) pref random (Index i)
  = (map (fun k : nat =>
            match hs !! Z.to_nat ((i + 1 + Z.of_nat k) mod Z.of_nat (length hs)) with
            | Some h => JStr h
            | None => JUndefined
            end) (seq 0 n),
     if (n =? 0)%nat then Index i
     else Index ((i + Z.of_nat n) mod Z.of_nat (length hs))).
Proof.
  intros n i Hne. revert i.
  assert (Hlen : 0 < Z.of_nat (length hs)) by (destruct hs; [congruence | cbn; lia]).
  induction n as [|n IH]; intros i Hi; [reflexivity|].
  cbn [chooseHosts _chooseHost].
  destruct (Z.eqb_spec (Z.of_nat (length hs)) 0) as [H0|_]; [lia|].
  rewrite Z.rem_mod_nonneg by lia.
  pose proof (Z.mod_pos_bound (i + 1) (Z.of_nat (length hs)) Hlen) as Hb.
  rewrite (IH _ Hb). cbn [host_at seq map].
  destruct (Z.leb_spec 0 ((i + 1) mod Z.of_nat (length hs))) as [_|Hneg]; [|lia].
  f_equal.
  - f_equal; [now rewrite Z.add_0_r|].
    rewrite <- seq_shift, map_map. apply map_ext. intros k.
    rewrite <- Z.add_assoc, Zplus_mod_idemp_l.
    now replace (i + 1 + (1 + Z.of_nat k)) with (i + 1 + Z.of_nat (S k)) by lia.
  - destruct n as [|n]; cbn [Nat.eqb]; apply (f_equal Index).
    + apply (f_equal (fun x => x mod _)). lia.
    + rewrite Zplus_mod_idemp_l. apply (f_equal (fun x => x mod _)). lia.
Qed.

(** X14.  Failover goes round the list: from a position inside an array of
    hosts, as many calls of [_chooseHost] as there are hosts return every
    host exactly once, in the order of the array starting after the current
    one, and end on the position they started from; no call, however many
    follow, returns [undefined]. *)
Theorem failover_visits_every_host (hs : list string) (pref : JsValue)
    (random i : Z) :
  hs <> [] ->
  0 <= i < Z.of_nat (length hs) ->
  let r := chooseHosts (length hs) (HostArray hs) pref random (Index i) in
  r.1 = map JStr (rotate (Z.to_nat (i + 1)) hs)
  /\ r.1 ≡ₚ map JStr hs
  /\ r.2 = Index i
  /\ forall n,
       Forall (fun h => exists s, h = JStr s /\ s ∈ hs)
              (chooseHosts n (HostArray hs) pref random (Index i)).1.
Proof.
  intros Hne Hi. cbn zeta.
  assert (Hlen : 0 < Z.of_nat (length hs)) by lia.
  assert (Hrot : (chooseHosts (length hs) (HostArray hs) pref random (Index i)).1
                 = map JStr (rotate (Z.to_nat (i + 1)) hs)).
  { rewrite chooseHosts_rotation by assumption. cbn [fst].
    apply list_eq. intros k. rewrite !list_lookup_fmap.
    destruct (decide (k < length hs)%nat) as [Hk|Hk].
    - rewrite lookup_seq_lt by exact Hk. rewrite lookup_rotate_r by exact Hk.
      unfold rotate_nat_add. rewrite Z2Nat.id by lia. cbn.
      pose proof (Z.mod_pos_bound (i + 1 + Z.of_nat k) (Z.of_nat (length hs)) Hlen).
      destruct (lookup_lt_is_Some_2 hs
                  (Z.to_nat ((i + 1 + Z.of_nat k) mod Z.of_nat (length hs)))
                  ltac:(lia)) as [h ->].
      reflexivity.
    - rewrite lookup_seq_ge by lia.
      rewrite (lookup_ge_None_2 (rotate _ _)) by (rewrite length_rotate; lia).
      reflexivity. }
  split; [exact Hrot|]. split.
  { rewrite Hrot. apply fmap_Permutation. unfold rotate.
    rewrite Permutation_app_comm. now rewrite take_drop. }
  split.
  { rewrite chooseHosts_rotation by assumption. cbn [snd].
    destruct (Nat.eqb_spec (length hs) 0) as [H0|_]; [lia|].
    rewrite <- (Z.mul_1_l (Z.of_nat (length hs))) at 1.
    rewrite Z_mod_plus_full, Z.mod_small by lia. reflexivity. }
  intros n. rewrite chooseHosts_rotation by assumption. cbn [fst].
  apply Forall_forall. intros h Hh. apply list_elem_of_fmap in Hh.
  destruct Hh as (k & -> & _).
  pose proof (Z.mod_pos_bound (i + 1 + Z.of_nat k) (Z.of_nat (length hs)) Hlen).
  destruct (lookup_lt_is_Some_2 hs
              (Z.to_nat ((i + 1 + Z.of_nat k) mod Z.of_nat (length hs)))
              ltac:(lia)) as [s Hs].
  rewrite Hs. exists s. split; [reflexivity|]. eapply list_elem_of_lookup_2, Hs.
Qed.

Lemma failover_visits_every_host_witness :
  ["a"; "b"; "c"]%string <> []
  /\ 0 <= 1 < Z.of_nat (length ["a"; "b"; "c"]%string)
  /\ (chooseHosts (length ["a"; "b"; "c"]%string)
        (HostArray ["a"; "b"; "c"]%string) JUndefined 0 (Index 1)).1
     = map JStr (rotate (Z.to_nat (1 + 1)) ["a"; "b"; "c"]%string).
Proof.
  assert (H1 : ["a"; "b"; "c"]%string <> []) by discriminate.
  assert (H2 : 0 <= 1 < Z.of_nat (length ["a"; "b"; "c"]%string)) by (cbn; lia).
  split; [exact H1|]. split; [exact H2|].
  exact (proj1 (failover_visits_every_host ["a"; "b"; "c"]%string JUndefined 0 1
                  H1 H2)).
Defined.

(** X15.  The first choice among an array of hosts follows a numeric
    [hostPreference] clamped to the last position: a preference inside the
    array selects that host, a preference past the end selects the last
    host, and a negative preference selects no host at all, so that
    [undefined] is returned. *)
Theorem first_host_follows_preference (hs : list string) (p random : Z) :
  let r := _chooseHost (HostArray hs) (JNum p) random NoIndex in
  r.1 = Index (Z.min p (Z.of_nat (length hs) - 1))
  /\ (forall h, 0 <= p -> hs !! Z.to_nat p = Some h -> r.2 = JStr h)
  /\ (forall h, Z.of_nat (length hs) <= p -> last hs = Some h -> r.2 = JStr h)
  /\ (p < 0 \/ hs = [] -> r.2 = JUndefined).
Proof.
  cbn zeta. cbn [_chooseHost fst snd host_at].
  destruct (Z.ltb_spec p (Z.of_nat (length hs))) as [Hlt|Hge].
  - split; [f_equal; lia|]. split; [|split].
    + intros h Hp Hh. destruct (Z.leb_spec 0 p); [|lia]. now rewrite Hh.
    + intros h Hp. lia.
    + intros [Hp | ->]; [|cbn in Hlt].
      * destruct (Z.leb_spec 0 p); [lia | reflexivity].
      * destruct (Z.leb_spec 0 p); [lia | reflexivity].
  - split; [f_equal; lia|]. split; [|split].
    + intros h Hp Hh. apply lookup_lt_Some in Hh. lia.
    + intros h _ Hh. rewrite last_lookup in Hh.
      destruct hs as [|h0 hs']; [discriminate|].
      destruct (Z.leb_spec 0 (Z.of_nat (length (h0 :: hs')) - 1));
        [|cbn [length] in *; lia].
      replace (Z.to_nat (Z.of_nat (length (h0 :: hs')) - 1))
        with (pred (length (h0 :: hs'))) by (cbn [length]; lia).
      now rewrite Hh.
    + intros [Hp | ->]; [lia|]. reflexivity.
Qed.

(** ** Options from a URL *)

Lemma lastIndexOf_snoc ch : forall s i found,
  lastIndexOf_from ch (s +:+ String ch EmptyString) i found
  = i + Z.of_nat (String.length s).
Proof.
  induction s as [|c s IH]; intros i found.
  - change (EmptyString +:+ String ch EmptyString) with (String ch EmptyString).
    cbn [lastIndexOf_from String.length]. rewrite Ascii.eqb_refl. lia.
  - change (String c s +:+ String ch EmptyString)
      with (String c (s +:+ String ch EmptyString)).
    cbn [lastIndexOf_from String.length]. rewrite IH. lia.
Qed.

Lemma substring_prefix : forall s t,
  String.substring 0 (String.length s) (s +:+ t) = s.
Proof.
  induction s as [|c s IH]; intros t.
  - change (EmptyString +:+ t) with t. now destruct t.
  - change (String c s +:+ t) with (String c (s +:+ t)).
    cbn [String.substring String.length]. now rewrite IH.
Qed.

(** The scheme [_parseURLOptions] reads off a protocol that ends in a
    colon. *)
Lemma scheme_of_protocol s :
  String.substring 0 (Z.to_nat (lastIndexOf ":" (s +:+ ":"))) (s +:+ ":") = s.
Proof.
  unfold lastIndexOf. rewrite lastIndexOf_snoc, Z.add_0_l, Nat2Z.id.
  apply substring_prefix.
Qed.

Lemma split_colon_nonempty s : split_colon s <> [].
Proof.
  induction s as [|c s IH]; cbn; [discriminate|].
  destruct (split_colon s); [contradiction|]. now destruct (Ascii.eqb c ":").
Qed.

Lemma split_colon_app u rest :
  colon_free u = true ->
  split_colon (u +:+ String ":" rest) = u :: split_colon rest.
Proof.
  induction u as [|c u IH]; intros Hu.
  - change (EmptyString +:+ String ":" rest) with (String ":" rest).
    cbn [split_colon]. pose proof (split_colon_nonempty rest).
    now destruct (split_colon rest).
  - change (String c u +:+ String ":" rest) with (String c (u +:+ String ":" rest)).
    cbn [split_colon colon_free] in *.
    apply andb_true_iff in Hu as [Hc Hu]. rewrite (IH Hu).
    apply negb_true_iff in Hc. now rewrite Hc.
Qed.

Lemma ToBoolean_JStr s : s <> EmptyString -> ToBoolean (JStr s) = true.
Proof. intros Hs. cbn. now destruct s. Qed.

(** X16.  [_parseURLOptions] takes the scheme to be what stands before the
    last colon of the protocol: a URL whose scheme is neither amqp nor amqps
    is refused with an exception, whatever the rest of it; for amqp and
    amqps the options have TLS enabled exactly for amqps, the port of the
    URL or else 5672 for amqp and 5671 for amqps, and the host of the URL. *)
Theorem url_scheme_decides (unescape : string -> string) (url : Url)
    (scheme : string) :
  url_protocol url = Some (scheme +:+ ":") ->
  (scheme <> "amqp"%string -> scheme <> "amqps"%string ->
   parsedURLOptions unescape url = Throw BadScheme)
  /\ (scheme = "amqp"%string \/ scheme = "amqps"%string ->
      exists opts : gmap string JsValue,
        parsedURLOptions unescape url = Return opts
        /\ opts !! "ssl"%string
           = Some (JObject [("enabled"%string,
                             JBool (String.eqb scheme "amqps"))])
        /\ opts !! "host"%string = Some (nullable (url_hostname url))
        /\ opts !! "port"%string
           = Some (match url_port url with
                   | Some p => if String.eqb p "" then JNum (defaultPorts scheme)
                               else JStr p
                   | None => JNum (defaultPorts scheme)
                   end)).
Proof.
  intros Hp. unfold parsedURLOptions. rewrite Hp, scheme_of_protocol. split.
  - intros H1 H2.
    destruct (String.eqb_spec scheme "amqp") as [->|_]; [contradiction|].
    destruct (String.eqb_spec scheme "amqps") as [->|_]; [contradiction|].
    reflexivity.
  - intros Hs.
    assert (Hok : negb (String.eqb scheme "amqp") && negb (String.eqb scheme "amqps")
                  = false) by (destruct Hs as [-> | ->]; reflexivity).
    rewrite Hok. cbn zeta. eexists. split; [reflexivity|].
    rewrite (String.eqb_sym "amqps").
    assert (Hport : js_or (nullable (url_port url)) (JNum (defaultPorts scheme))
                    = match url_port url with
                      | Some p => if String.eqb p "" then JNum (defaultPorts scheme)
                                  else JStr p
                      | None => JNum (defaultPorts scheme)
                      end).
    { unfold js_or, nullable. destruct (url_port url) as [p|]; [|reflexivity].
      cbn [ToBoolean]. now destruct (String.eqb p ""). }
    rewrite Hport.
    repeat split;
      repeat match goal with
      | |- context [if ToBoolean ?v then _ else _] => destruct (ToBoolean v)
      end;
      rewrite ?lookup_insert_ne by discriminate;
      rewrite ?lookup_insert_eq; try reflexivity.
    all: rewrite ?lookup_insert_ne by discriminate;
      rewrite ?lookup_insert_eq, ?lookup_singleton_eq; try reflexivity.
Qed.

Lemma url_scheme_decides_witness :
  let url := mkUrl (Some "amqps:"%string) (Some "bus.megacorp.internal"%string)
                   None None None in
  url_protocol url = Some ("amqps" +:+ ":")
  /\ exists opts : gmap string JsValue,
       parsedURLOptions (fun s => s) url = Return opts
       /\ opts !! "port"%string = Some (JNum 5671).
Proof.
  cbn zeta.
  assert (H : url_protocol (mkUrl (Some "amqps:"%string)
                                  (Some "bus.megacorp.internal"%string)
                                  None None None)
              = Some ("amqps" +:+ ":")) by reflexivity.
  split; [exact H|].
  destruct (proj2 (url_scheme_decides (fun s => s) _ "amqps" H)
              (or_intror eq_refl)) as (opts & Hret & _ & _ & Hport).
  exists opts. split; [exact Hret | exact Hport].
Defined.

Lemma split_colon_free u : colon_free u = true -> split_colon u = [u].
Proof.
  induction u as [|c u IH]; cbn [split_colon colon_free]; intros Hu;
    [reflexivity|].
  apply andb_true_iff in Hu as [Hc Hu]. rewrite (IH Hu).
  apply negb_true_iff in Hc. now rewrite Hc.
Qed.

(** The login and the password [_parseURLOptions] takes from a userinfo
    whose first two parts are [user] and [pass]. *)
Lemma credentials_of_parts (unescape : string -> string) (url : Url)
    (scheme auth user : string) (second : JsValue) (parts : list string) :
  url_protocol url = Some (scheme +:+ ":") ->
  scheme = "amqp"%string \/ scheme = "amqps"%string ->
  url_auth url = Some auth ->
  user <> EmptyString ->
  split_colon auth = user :: parts ->
  item (user :: parts) 1 = second ->
  exists opts : gmap string JsValue,
    parsedURLOptions unescape url = Return opts
    /\ opts !! "login"%string = Some (JStr user)
    /\ opts !! "password"%string
       = (if ToBoolean second then Some second else None).
Proof.
  intros Hp Hs Ha Hu Hsplit Hsecond. unfold parsedURLOptions.
  rewrite Hp, scheme_of_protocol.
  assert (Hok : negb (String.eqb scheme "amqp") && negb (String.eqb scheme "amqps")
                = false) by (destruct Hs as [-> | ->]; reflexivity).
  rewrite Hok. cbn zeta. eexists. split; [reflexivity|].
  rewrite Ha. cbn [default nullable].
  assert (Hauth : auth <> EmptyString).
  { intros ->. cbn in Hsplit. congruence. }
  unfold id. rewrite (ToBoolean_JStr auth Hauth), Hsplit, Hsecond.
  change (item (user :: parts) 0) with (JStr user).
  rewrite (ToBoolean_JStr user Hu).
  split;
    repeat match goal with
    | |- context [if ToBoolean ?v then _ else _] => destruct (ToBoolean v)
    end;
    rewrite ?lookup_insert_ne by discriminate;
    rewrite ?lookup_insert_eq; try reflexivity.
  all: rewrite ?lookup_insert_ne by discriminate;
    rewrite ?lookup_insert_eq, ?lookup_singleton_ne by discriminate;
    try reflexivity.
Qed.

(** X17.  The credentials of a URL are the first two colon-separated parts
    of its userinfo: a password that contains a colon is cut at that colon,
    and a userinfo without a colon sets the login and no password. *)
Theorem url_password_stops_at_second_colon (unescape : string -> string)
    (url : Url) (scheme user pass rest : string) :
  url_protocol url = Some (scheme +:+ ":") ->
  scheme = "amqp"%string \/ scheme = "amqps"%string ->
  colon_free user = true -> colon_free pass = true ->
  user <> EmptyString -> pass <> EmptyString ->
  (url_auth url = Some (user +:+ ":" +:+ pass +:+ ":" +:+ rest) ->
   exists opts : gmap string JsValue,
     parsedURLOptions unescape url = Return opts
     /\ opts !! "login"%string = Some (JStr user)
     /\ opts !! "password"%string = Some (JStr pass))
  /\ (url_auth url = Some (user +:+ ":" +:+ pass) ->
      exists opts : gmap string JsValue,
        parsedURLOptions unescape url = Return opts
        /\ opts !! "login"%string = Some (JStr user)
        /\ opts !! "password"%string = Some (JStr pass))
  /\ (url_auth url = Some user ->
      exists opts : gmap string JsValue,
        parsedURLOptions unescape url = Return opts
        /\ opts !! "login"%string = Some (JStr user)
        /\ opts !! "password"%string = None).
Proof.
  intros Hp Hs Hu Hpass Hune Hpne. split; [|split]; intros Ha.
  - destruct (credentials_of_parts unescape url scheme _ user (JStr pass)
                (pass :: split_colon rest) Hp Hs Ha Hune)
      as (opts & Hret & Hl & Hpw).
    + change (user +:+ ":" +:+ pass +:+ ":" +:+ rest)
        with (user +:+ String ":" (pass +:+ String ":" rest)).
      now rewrite !split_colon_app.
    + reflexivity.
    + exists opts. rewrite (ToBoolean_JStr pass Hpne) in Hpw. auto.
  - destruct (credentials_of_parts unescape url scheme _ user (JStr pass)
                [pass] Hp Hs Ha Hune)
      as (opts & Hret & Hl & Hpw).
    + change (user +:+ ":" +:+ pass) with (user +:+ String ":" pass).
      now rewrite split_colon_app, split_colon_free.
    + reflexivity.
    + exists opts. rewrite (ToBoolean_JStr pass Hpne) in Hpw. auto.
  - destruct (credentials_of_parts unescape url scheme _ user JUndefined
                [] Hp Hs Ha Hune)
      as (opts & Hret & Hl & Hpw).
    + now apply split_colon_free.
    + reflexivity.
    + exists opts. auto.
Qed.

Lemma url_password_stops_at_second_colon_witness :
  url_auth exampleUrl = Some ("admin" +:+ ":" +:+ "s3" +:+ ":" +:+ "cret")
  /\ exists opts : gmap string JsValue,
       parsedURLOptions (fun s => s) exampleUrl = Return opts
       /\ opts !! "login"%string = Some (JStr "admin")
       /\ opts !! "password"%string = Some (JStr "s3").
Proof.
  assert (Ha : url_auth exampleUrl
               = Some ("admin" +:+ ":" +:+ "s3" +:+ ":" +:+ "cret"))
    by reflexivity.
  assert (H1 : "admin"%string <> EmptyString) by discriminate.
  assert (H2 : "s3"%string <> EmptyString) by discriminate.
  split; [exact Ha|].
  exact (proj1 (url_password_stops_at_second_colon (fun s => s) exampleUrl
                  "amqp" "admin" "s3" "cret" eq_refl (or_introl eq_refl)
                  eq_refl eq_refl H1 H2) Ha).
Defined.

(** ** The merge of the options *)

Lemma parsedURLOptions_ssl_port (unescape : string -> string) (url : Url)
    (opts : gmap string JsValue) :
  parsedURLOptions unescape url = Return opts ->
  (exists b, opts !! "ssl"%string = Some (JObject [("enabled"%string, JBool b)]))
  /\ is_Some (opts !! "port"%string).
Proof.
  unfold parsedURLOptions. destruct (url_protocol url) as [protocol|]; [|discriminate].
  cbn zeta. destruct (_ && _); [discriminate|]. intros [= <-].
  split; [eexists|];
    repeat match goal with
    | |- context [if ToBoolean ?v then _ else _] => destruct (ToBoolean v)
    end;
    rewrite ?lookup_insert_ne by discriminate;
    rewrite ?lookup_insert_eq; try reflexivity; try (eexists; reflexivity).
  all: rewrite ?lookup_insert_ne by discriminate;
    rewrite ?lookup_insert_eq, ?lookup_singleton_eq;
    try reflexivity; try (eexists; reflexivity).
Qed.

(** X18.  The TLS defaults never reach the merged options: [setOptions]
    selects [defaultSslOptions] only when the caller's options have an
    [ssl] entry, and that entry then replaces the one of the defaults as a
    whole.  So the merged [ssl] is the caller's when there is one, and
    otherwise a bare [{enabled: ...}] from the URL or from the defaults, and
    its [rejectUnauthorized] is what the caller wrote, never the [true] of
    the defaults.  Of [defaultSslOptions] only the port 5671 can show, and
    only when neither the caller nor a URL gives a port. *)
Theorem ssl_defaults_never_reach_the_options (unescape : string -> string)
    (URL_parse : string -> Url) (options : option (gmap string JsValue))
    (merged : gmap string JsValue) :
  setOptions unescape URL_parse options = Return merged ->
  let o := default ∅ options in
  (forall v, o !! "ssl"%string = Some v -> merged !! "ssl"%string = Some v)
  /\ (o !! "ssl"%string = None ->
      exists b, merged !! "ssl"%string
                = Some (JObject [("enabled"%string, JBool b)]))
  /\ js_get (prop merged "ssl") "rejectUnauthorized"
     = js_get (prop o "ssl") "rejectUnauthorized"
  /\ (o !! "port"%string = None -> ToBoolean (prop o "url") = false ->
      merged !! "port"%string
      = Some (JNum (if ToBoolean (prop o "ssl")
                       && ToBoolean (js_get (prop o "ssl") "enabled")
                    then 5671 else 5672)))
  /\ (o !! "port"%string = None -> ToBoolean (prop o "url") = true ->
      exists urlo : gmap string JsValue,
        _parseURLOptions unescape URL_parse (prop o "url") = Return urlo
        /\ merged !! "port"%string = urlo !! "port"%string).
Proof.
  unfold setOptions. cbn zeta. set (o := default ∅ options).
  set (sslo := if ToBoolean (prop o "ssl")
                  && ToBoolean (js_get (prop o "ssl") "enabled")
               then defaultSslOptions else ∅).
  intros Hret.
  assert (Hurlo : exists urlo : gmap string JsValue,
            (if ToBoolean (prop o "url")
             then _parseURLOptions unescape URL_parse (prop o "url")
             else Return ∅) = Return urlo
            /\ merged = o ∪ (urlo ∪ (sslo ∪ (defaultOptionsObject ∪ ∅)))
            /\ (urlo = ∅
                \/ (exists b, urlo !! "ssl"%string
                              = Some (JObject [("enabled"%string, JBool b)]))
                   /\ is_Some (urlo !! "port"%string))).
  { destruct (ToBoolean (prop o "url")).
    - destruct (_parseURLOptions _ _ _) as [urlo|e|] eqn:Hparse; try discriminate.
      injection Hret as <-. exists urlo. split; [reflexivity|].
      split; [reflexivity|]. right.
      unfold _parseURLOptions in Hparse.
      destruct (prop o "url"); try discriminate.
      eapply parsedURLOptions_ssl_port, Hparse.
    - injection Hret as <-. exists ∅. auto. }
  destruct Hurlo as (urlo & Hparse & -> & Hurlo). clear Hret.
  assert (Hdef : (sslo ∪ (defaultOptionsObject ∪ ∅)) !! "ssl"%string
                 = Some (if ToBoolean (prop o "ssl")
                            && ToBoolean (js_get (prop o "ssl") "enabled")
                         then JObject [("rejectUnauthorized"%string, JBool true)]
                         else JObject [("enabled"%string, JBool false)])).
  { unfold sslo. destruct (_ && _).
    - apply lookup_union_Some_l. reflexivity.
    - rewrite lookup_union_r by apply lookup_empty. reflexivity. }
  assert (Hssl_some : forall v, o !! "ssl"%string = Some v ->
            (o ∪ (urlo ∪ (sslo ∪ (defaultOptionsObject ∪ ∅)))) !! "ssl"%string
            = Some v).
  { intros v Hv. now apply lookup_union_Some_l. }
  assert (Hssl_none : o !! "ssl"%string = None ->
            exists b, (o ∪ (urlo ∪ (sslo ∪ (defaultOptionsObject ∪ ∅))))
                        !! "ssl"%string
                      = Some (JObject [("enabled"%string, JBool b)])).
  { intros Hnone. rewrite lookup_union_r by exact Hnone.
    destruct Hurlo as [-> | [[b Hb] _]].
    - rewrite lookup_union_r by apply lookup_empty. rewrite Hdef.
      unfold prop. rewrite Hnone. cbn. now exists false.
    - exists b. now apply lookup_union_Some_l. }
  split; [exact Hssl_some|]. split; [exact Hssl_none|]. split; [|split].
  - unfold prop. destruct (o !! "ssl"%string) as [v|] eqn:Hv.
    + now rewrite (Hssl_some v).
    + destruct (Hssl_none eq_refl) as [b ->]. reflexivity.
  - intros Hport Hurl. rewrite Hurl in Hparse. injection Hparse as <-.
    rewrite lookup_union_r by exact Hport.
    rewrite lookup_union_r by apply lookup_empty.
    unfold sslo. destruct (_ && _).
    + apply lookup_union_Some_l. reflexivity.
    + rewrite lookup_union_r by apply lookup_empty. reflexivity.
  - intros Hport Hurl. rewrite Hurl in Hparse. exists urlo.
    split; [exact Hparse|].
    rewrite lookup_union_r by exact Hport.
    destruct Hurlo as [-> | [_ [p Hp]]].
    + exfalso. unfold _parseURLOptions in Hparse.
      destruct (prop o "url"); try discriminate.
      apply parsedURLOptions_ssl_port in Hparse as [_ [p Hp]].
      now rewrite lookup_empty in Hp.
    + rewrite Hp. now apply lookup_union_Some_l.
Qed.

Lemma ssl_defaults_never_reach_the_options_witness :
  let merged :=
    Object_assign
      (Object_assign
         (Object_assign (Object_assign ∅ defaultOptionsObject) defaultSslOptions)
         ∅)
      tlsArguments in
  setOptions (fun s => s) (fun _ => exampleUrl) (Some tlsArguments) = Return merged
  /\ js_get (prop merged "ssl") "rejectUnauthorized"
     = js_get (prop tlsArguments "ssl") "rejectUnauthorized".
Proof.
  cbn zeta.
  assert (H : setOptions (fun s => s) (fun _ => exampleUrl) (Some tlsArguments)
              = Return
                  (Object_assign
                     (Object_assign
                        (Object_assign (Object_assign ∅ defaultOptionsObject)
                                       defaultSslOptions)
                        ∅)
                     tlsArguments)) by reflexivity.
  split; [exact H|].
  destruct (ssl_defaults_never_reach_the_options _ _ _ _ H) as (_ & _ & Hr & _).
  exact Hr.
Defined.

(** ** Recovery *)

Section Recovery.

Context `{P : Platform}.

(** What the handshake leaves of the channels and of the reconnection
    state. *)
Lemma data_listener_handshake_rest g start tune c :
  parser c <> None ->
  versionMajor start = 0 ->
  let r := data_listener g (handshakeData start tune) c in
  channels r.2
  = (if reconnect_opt (implOptions c)
     then reconnect_channels_but_0 <$> channels c else channels c)
  /\ reconnectTimeouts r.2 = reconnectTimeouts c
  /\ connectionAttemptScheduled r.2 = connectionAttemptScheduled c
  /\ backoffListener r.2 = backoffListener c
  /\ writable (socket r.2) = writable (socket c)
  /\ readable (socket r.2) = readable (socket c).
Proof.
  intros Hp Hmaj. cbn zeta. unfold data_listener.
  destruct (parser c) as [p|] eqn:Epar; [|congruence].
  change (parse_exception (handshakeData start tune)) with (@None JsError).
  rewrite parser_execute_handshake by (rewrite ?Epar; congruence).
  cbn [fst snd]. rewrite inboundReset_eq.
  unfold emit_ready, ready_listener. rewrite outboundReset_eq.
  rewrite !sendMethod_eq. project.
  destruct (frameMax tune =? 0); project;
    destruct (reconnect_opt (implOptions c)); project;
    repeat split; reflexivity.
Qed.

(** The connection after an error, the reconnection timer and the connect
    event of the new socket. *)
Lemma reconnected_fields g e c :
  reconnect_opt (implOptions c) = true ->
  backoffListener c = true ->
  connectionAttemptScheduled c = false ->
  let c3 := (on_socket_event g (connectEvent c)
               (reconnectTimeout_fire (emit_error e c))).2 in
  written (socket c3) = [protocolHeader]
  /\ ended (socket c3) = false
  /\ writable (socket c3) = true
  /\ parser c3 = Some None
  /\ emitted c3 = emitted c ++ [EvError e]
  /\ options c3 = options c
  /\ implOptions c3 = implOptions c
  /\ reconnectTimeouts c3
     = reconnectTimeouts c ++ [next_backoff (implOptions c) (backoffTime c)]
  /\ connectionAttemptScheduled c3 = false
  /\ backoffListener c3 = true
  /\ readyEmitted c3 = false
  /\ channels c3
     = Some (default {[ 0 := Self ]}
               (fmap (M := gmap Z) (channel_set_state "closed")
                  <$> (close_channels_but_0 <$> channels c))).
Proof.
  intros Hre Hl Hs. cbn zeta.
  rewrite (emit_error_attached e c Hl).
  rewrite backoff_teardown by exact Hs. cbn zeta.
  change (implOptions (emit (EvError e) c)) with (implOptions c).
  rewrite Hre.
  unfold reconnectTimeout_fire, reconnect, connect, _startHandshake, _createSocket.
  unfold connectEvent, on_socket_event. project.
  destruct (ssl_enabled (options c)) eqn:Hssl; cbn [snd];
    unfold connect_listener; project; rewrite ?Hssl;
    unfold connect_listener; project;
    repeat split; try reflexivity; try exact Hl.
Qed.

End Recovery.

(** With nothing besides channel 0 the 'ready' listener changes no
    channel. *)
Lemma reconnect_only_0 (chs : gmap Z Channel) :
  (forall id, id <> 0 -> chs !! id = None) ->
  reconnect_channels_but_0 chs = chs.
Proof.
  intros Hnone. apply map_eq. intros id. unfold reconnect_channels_but_0.
  rewrite map_lookup_imap. destruct (Z.eqb_spec id 0) as [-> | Hid].
  - now destruct (chs !! 0).
  - now rewrite (Hnone id Hid).
Qed.





(** ** The limit and the counter of the channel ids *)

Section Allocatable.

Context `{P : Platform}.

Lemma counter_backoff c : channelCounter (backoff c) = channelCounter c.
Proof.
  destruct (connectionAttemptScheduled c) eqn:Hs.
  - rewrite backoff_pending by exact Hs. reflexivity.
  - rewrite backoff_teardown by exact Hs. cbn zeta.
    destruct (reconnect_opt _); reflexivity.
Qed.

Lemma counter_emit_error e c : channelCounter (emit_error e c) = channelCounter c.
Proof.
  unfold emit_error. project.
  destruct (backoffListener c); [rewrite counter_backoff|]; reflexivity.
Qed.

Lemma counter_sendMethod channel m args c :
  channelCounter (_sendMethod channel m args c) = channelCounter c.
Proof. rewrite sendMethod_eq. reflexivity. Qed.

Lemma counter_emit_ready c : channelCounter (emit_ready c) = channelCounter c.
Proof.
  unfold emit_ready, ready_listener. rewrite outboundReset_eq. project.
  destruct (reconnect_opt _); reflexivity.
Qed.

Lemma allocatable_onMethod g channel m c :
  wire_callback (OnMethod channel m) ->
  allocatable (g, c) -> allocatable (_onMethod g channel m c).1.
Proof.
  unfold allocatable. cbn [fst snd]. intros Hw [Hg Hc]. unfold _onMethod.
  destruct (channel >? 0).
  { repeat case_match; cbn [fst snd]; auto. }
  destruct m; cbn [fst snd]; auto.
  - destruct (_ && _); cbn [fst snd];
      rewrite ?counter_emit_error, ?counter_sendMethod; auto.
  - cbn [wire_callback] in Hw.
    destruct (negb (frameMax args =? 0)).
    + cbn [parser set_sendBuffer]. destruct (parser c); cbn [fst snd];
        rewrite ?counter_sendMethod; project; cbn [channelMax];
        [|auto].
      destruct (Z.eqb_spec (channelMax_arg args) 0); cbn [negb channelMax];
        split; auto; lia.
    + cbn [fst snd]. rewrite !counter_sendMethod.
      destruct (Z.eqb_spec (channelMax_arg args) 0); cbn [negb channelMax];
        split; auto; lia.
  - rewrite counter_emit_ready. auto.
Qed.

Lemma allocatable_parser_execute cbs : forall g last c,
  Forall wire_callback cbs ->
  allocatable (g, c) -> allocatable (parser_execute g cbs last c).1.
Proof.
  induction cbs as [|cb cbs IH]; intros g last c Hw Ha; [exact Ha|].
  apply Forall_cons in Hw as [Hcb Hw]. cbn [parser_execute].
  assert (H1 : allocatable (parser_callback g cb c).1).
  { destruct cb; cbn [parser_callback fst snd]; try exact Ha.
    - now apply allocatable_onMethod.
    - destruct Ha as [Hg Hc]. split; [exact Hg|]. cbn [fst snd] in *.
      unfold emit. project. now rewrite counter_emit_error. }
  destruct (parser_callback g cb c) as [[g1 c1] [e|]]; cbn [fst snd] in *.
  - exact H1.
  - now apply IH.
Qed.

Lemma allocatable_on_socket_event g ev c :
  wire_stimulus (FromSocket ev) ->
  allocatable (g, c) -> allocatable (on_socket_event g ev c).
Proof.
  intros Hw Ha. pose proof Ha as [Hg Hc]. cbn [fst snd] in Hg, Hc.
  destruct ev; cbn [on_socket_event]; try exact Ha.
  - destruct (ssl_enabled _); exact Ha.
  - destruct (ssl_enabled _); exact Ha.
  - cbn [wire_stimulus] in Hw. unfold data_listener. destruct (parser c).
    + pose proof (allocatable_parser_execute (callbacks data) g
                    (parse_exception data) c Hw Ha) as H1.
      destruct (parser_execute _ _ _ _) as [[g1 c1] [e|]]; cbn [fst snd] in *.
      * destruct H1 as [Hg1 Hc1]. split; [exact Hg1|]. cbn [fst snd] in *.
        now rewrite counter_emit_error.
      * rewrite inboundReset_eq. exact H1.
    + rewrite inboundReset_eq. exact Ha.
  - split; [exact Hg|]. cbn [snd]. now rewrite counter_emit_error.
  - unfold end_listener. destruct (negb _); [|exact Ha].
    split; [exact Hg|]. cbn [snd]. now rewrite counter_emit_error.
Qed.

Lemma allocatable_open_channel kind fuel g name c r c' :
  allocatable (g, c) -> open_channel kind fuel g name c = Return (r, c') ->
  allocatable (g, c').
Proof.
  intros [Hg Hc]. cbn [fst snd] in *. unfold open_channel.
  destruct (generateChannelId fuel g c) as [[id c1]|e|] eqn:Hgen;
    intros [= <- <-]; (split; [exact Hg|]); cbn [fst snd].
  - destruct (generateChannelId_returns fuel g c id c1 (proj1 Hg) (proj1 Hc) Hgen)
      as (chs & _ & _ & Hid & ->).
    project. lia.
  - now rewrite counter_emit_error.
Qed.

Lemma allocatable_deliver fuel st g c :
  wire_stimulus st ->
  allocatable (g, c) -> allocatable (deliver_stimulus fuel st (g, c)).
Proof.
  intros Hw Ha. pose proof Ha as [Hg Hc]. cbn [fst snd] in Hg, Hc.
  destruct st; cbn [deliver_stimulus]; try exact Ha.
  - now apply allocatable_on_socket_event.
  - unfold inboundHeartbeatTimer_fire.
    destruct (_inboundHeartbeatTimer c) as [[[gp|] ms]|]; try exact Ha.
    destruct (_ || _); [|exact Ha].
    split; [exact Hg|]. cbn [snd]. now rewrite counter_emit_error.
  - unfold outboundHeartbeatTimer_fire, Connection_heartbeat.
    rewrite outboundReset_eq. destruct (writable (socket c)); exact Ha.
  - unfold connectionTimeout_fire. destruct (_ =? 0); [exact Ha|].
    split; [exact Hg|]. cbn [snd]. now rewrite counter_emit_error.
  - unfold exchange. destruct (open_channel _ _ _ _ _) as [[r c']| |] eqn:E;
      try exact Ha. eapply allocatable_open_channel; eassumption.
  - unfold queue. destruct (open_channel _ _ _ _ _) as [[r c']| |] eqn:E;
      try exact Ha. eapply allocatable_open_channel; eassumption.
  - unfold disconnect. split; [exact Hg|]. cbn [snd].
    now rewrite counter_sendMethod.
Qed.

Lemma allocatable_history fuel sts : forall gc,
  Forall wire_stimulus sts ->
  allocatable gc -> allocatable (history fuel sts gc).
Proof.
  induction sts as [|st sts IH]; intros [g c] Hw Ha; [exact Ha|].
  apply Forall_cons in Hw as [Hst Hw]. cbn [history fold_left].
  apply IH; [exact Hw|]. now apply allocatable_deliver.
Qed.

End Allocatable.

(** X20.  What [generateChannelId] relies on holds for the whole life of a
    connection: as long as every Connection.Tune carries a channelMax of
    0..65535, as it does when decoded from the wire, channelMax stays in
    1..65535 and the counter in 0..65535 through any events, timers and
    calls; so an allocation that returns, at any time, returns an id of
    1..channelMax that had no entry, and every id fits the two octets of a
    frame's channel field. *)
Theorem allocation_stays_well_founded `{P : Platform} (fuel : nat)
    (sts : list Stimulus) (g : Globals) (c : Connection) :
  Forall wire_stimulus sts ->
  1 <= channelMax g <= 65535 ->
  0 <= channelCounter c <= 65535 ->
  let r := history fuel sts (g, c) in
  1 <= channelMax r.1 <= 65535
  /\ 0 <= channelCounter r.2 <= 65535
  /\ forall fuel' id c',
       generateChannelId fuel' r.1 r.2 = Return (id, c') ->
       1 <= id <= channelMax r.1
       /\ parseInt (serializeInt 2 id) = id
       /\ exists chs : gmap Z Channel,
            channels r.2 = Some chs /\ chs !! id = None.
Proof.
  intros Hw Hg Hc. cbn zeta.
  destruct (allocatable_history fuel sts (g, c) Hw (conj Hg Hc)) as [Hg' Hc'].
  split; [exact Hg'|]. split; [exact Hc'|].
  intros fuel' id c' Hgen.
  destruct (generateChannelId_returns fuel' _ _ id c' (proj1 Hg') (proj1 Hc') Hgen)
    as (chs & Hchs & Hfree & Hid & _).
  split; [exact Hid|]. split.
  - rewrite parseInt_serializeInt. apply Z.mod_small.
    change (256 ^ Z.of_nat 2) with 65536. lia.
  - exists chs. auto.
Qed.

Lemma allocation_stays_well_founded_witness :
  let sts := [FromSocket (SockData
                            (handshakeData
                               (mkStartArgs 0 9 (JObject []) "PLAIN" "en_US")
                               (mkTuneArgs 131072 2047 60)));
              OpenExchange "logs"; OpenQueue "jobs"] in
  Forall wire_stimulus sts
  /\ 1 <= channelMax initialGlobals <= 65535
  /\ 0 <= channelCounter connectedConnection <= 65535
  /\ 1 <= channelMax (history (P := examplePlatform) 10 sts
                        (initialGlobals, connectedConnection)).1 <= 65535.
Proof.
  cbn zeta.
  assert (H1 : Forall wire_stimulus
                 [FromSocket (SockData
                                (handshakeData
                                   (mkStartArgs 0 9 (JObject []) "PLAIN" "en_US")
                                   (mkTuneArgs 131072 2047 60)));
                  OpenExchange "logs"; OpenQueue "jobs"]).
  { repeat constructor; cbn; lia. }
  assert (H2 : 1 <= channelMax initialGlobals <= 65535) by (cbn; lia).
  assert (H3 : 0 <= channelCounter connectedConnection <= 65535)
    by (vm_compute; split; discriminate).
  split; [exact H1|]. split; [exact H2|]. split; [exact H3|].
  exact (proj1 (allocation_stays_well_founded (P := examplePlatform) 10 _
                  initialGlobals connectedConnection H1 H2 H3)).
Defined.

(** ** Data after an error *)

(** X21.  Data that arrives after an error has torn the connection down is
    not parsed: whatever the chunk holds, no method is handled, nothing is
    written or emitted and the module variables stay as they are.  The data
    listener still restarts the inbound heartbeat timer that the error
    listener had cancelled; when that timer fires during the pending
    reconnection attempt, the error it may raise arms no second
    reconnection timer. *)
Theorem late_data_is_dropped `{P : Platform} (g : Globals) (e : JsError)
    (data : Parsed) (c : Connection) :
  backoffListener c = true ->
  connectionAttemptScheduled c = false ->
  reconnect_opt (implOptions c) = true ->
  let c1 := emit_error e c in
  let r := data_listener g data c1 in
  parser c1 = None
  /\ _inboundHeartbeatTimer c1 = None
  /\ r.1 = g
  /\ written (socket r.2) = written (socket c)
  /\ emitted r.2 = emitted c ++ [EvError e]
  /\ channels r.2 = channels c1
  /\ _inboundHeartbeatTimer r.2
     = (if heartbeat (options c) =? 0 then None
        else Some (mkTimer (InboundHeartbeatCheck (2 * heartbeat (options c)))
                           (2 * heartbeat (options c) * 1000)))
  /\ reconnectTimeouts (inboundHeartbeatTimer_fire r.2) = reconnectTimeouts c1.
Proof.
  intros Hl Hs Hre. cbn zeta.
  assert (Hc1 : parser (emit_error e c) = None
                /\ _inboundHeartbeatTimer (emit_error e c) = None
                /\ written (socket (emit_error e c)) = written (socket c)
                /\ emitted (emit_error e c) = emitted c ++ [EvError e]
                /\ options (emit_error e c) = options c
                /\ connectionAttemptScheduled (emit_error e c) = true
                /\ backoffListener (emit_error e c) = true).
  { rewrite (emit_error_attached e c Hl), backoff_teardown by exact Hs.
    cbn zeta. change (implOptions (emit (EvError e) c)) with (implOptions c).
    rewrite Hre. repeat split; try reflexivity. exact Hl. }
  destruct Hc1 as (Hp & Hi & Hw & He & Ho & Hsched & Hl1).
  split; [exact Hp|]. split; [exact Hi|].
  unfold data_listener. rewrite Hp. cbn [fst snd].
  rewrite inboundReset_eq. project. rewrite Ho.
  split; [reflexivity|]. split; [exact Hw|]. split; [exact He|].
  split; [reflexivity|]. split; [now destruct (heartbeat (options c) =? 0)|].
  unfold inboundHeartbeatTimer_fire. project.
  destruct (heartbeat (options c) =? 0); cbn [negb]; [reflexivity|].
  destruct (_ || _); [|reflexivity].
  rewrite emit_error_attached by exact Hl1.
  rewrite backoff_pending by exact Hsched. reflexivity.
Qed.

Lemma late_data_is_dropped_witness :
  let c1 := emit_error (Error "read ECONNRESET") heartbeatConnection in
  let r := data_listener (P := examplePlatform) initialGlobals
             (handshakeData (mkStartArgs 0 9 (JObject []) "PLAIN" "en_US")
                            (mkTuneArgs 4096 8 0)) c1 in
  backoffListener heartbeatConnection = true
  /\ connectionAttemptScheduled heartbeatConnection = false
  /\ reconnect_opt (implOptions heartbeatConnection) = true
  /\ parser c1 = None
  /\ r.1 = initialGlobals.
Proof.
  cbn zeta.
  assert (H1 : backoffListener heartbeatConnection = true)
    by (vm_compute; reflexivity).
  assert (H2 : connectionAttemptScheduled heartbeatConnection = false)
    by (vm_compute; reflexivity).
  assert (H3 : reconnect_opt (implOptions heartbeatConnection) = true)
    by (vm_compute; reflexivity).
  destruct (late_data_is_dropped (P := examplePlatform) initialGlobals
              (Error "read ECONNRESET")
              (handshakeData (mkStartArgs 0 9 (JObject []) "PLAIN" "en_US")
                             (mkTuneArgs 4096 8 0))
              heartbeatConnection H1 H2 H3) as (Hp & _ & Hg & _).
  split; [exact H1|]. split; [exact H2|]. split; [exact H3|].
  split; [exact Hp | exact Hg].
Defined.
